(** * Issuu scraper: the acquisition pipeline and its idempotency ledger

    A shallow embedding of [scripts/issuu_scraper.py] (class [IssuuScraper])
    and [scripts/scraper_worker.py], and the properties of the filename
    sanitizer, the page fetcher, the PDF assembler and the worker loop. *)

From Stdlib Require Import Ascii String.
From Stdlib Require Import List ZArith NArith Bool Lia Arith.
From Stdlib Require Import Sorting.Sorted Sorting.Permutation.
Import ListNotations.

Set Implicit Arguments.

(** ** Python strings

    A Python [str] is a sequence of Unicode code points; [len], slicing,
    [str.replace] and comparison all work on code points. *)

Module Py.

Definition char := N.
Definition pystr := list char.

(** A literal, written with the ASCII characters of a Rocq string. *)
Definition str (s : string) : pystr :=
  List.map N_of_ascii (list_ascii_of_string s).

Definition chr_eqb (a b : char) : bool := N.eqb a b.

Fixpoint str_eqb (a b : pystr) : bool :=
  match a, b with
  | [], [] => true
  | x :: a', y :: b' => chr_eqb x y && str_eqb a' b'
  | _, _ => false
  end.

(** [s.replace(old, new)] for a one-character [old]. *)
Definition replace (old : char) (new : pystr) (s : pystr) : pystr :=
  flat_map (fun c => if chr_eqb c old then new else [c]) s.

(** [s[:n]]: a negative bound counts from the end and is clamped at 0. *)
Definition slice_to (n : Z) (s : pystr) : pystr :=
  if (0 <=? n)%Z then firstn (Z.to_nat n) s
  else firstn (Z.to_nat (Z.of_nat (length s) + n)) s.

(** [s[a:b]] and [s[a:]] for non-negative bounds. *)
Definition slice (a b : nat) (s : pystr) : pystr := firstn (b - a) (skipn a s).

(** [s.rfind(c)]: the highest index of [c], or -1. *)
Fixpoint rfind_from (c : char) (s : pystr) (i last : Z) : Z :=
  match s with
  | [] => last
  | x :: s' => rfind_from c s' (i + 1)%Z (if chr_eqb x c then i else last)
  end.

Definition rfind (c : char) (s : pystr) : Z := rfind_from c s 0%Z (-1)%Z.

Fixpoint dropwhile (f : char -> bool) (s : pystr) : pystr :=
  match s with
  | [] => []
  | c :: s' => if f c then dropwhile f s' else s
  end.

(** [s.strip(chars)]. *)
Definition lstrip (chars : pystr) (s : pystr) : pystr :=
  dropwhile (fun c => existsb (chr_eqb c) chars) s.

Definition rstrip (chars : pystr) (s : pystr) : pystr :=
  rev (dropwhile (fun c => existsb (chr_eqb c) chars) (rev s)).

Definition strip (chars : pystr) (s : pystr) : pystr :=
  rstrip chars (lstrip chars s).

(** [re.sub(p+, r, s)] for a one-character class [p]: every maximal run of
    characters of the class becomes the single character [r].  [in_run] tells
    that the character before [s] was of the class. *)
Fixpoint re_sub_runs (p : char -> bool) (r : char) (in_run : bool) (s : pystr)
  : pystr :=
  match s with
  | [] => []
  | c :: s' =>
      if p c then
        if in_run then re_sub_runs p r true s'
        else r :: re_sub_runs p r true s'
      else c :: re_sub_runs p r false s'
  end.

(** No two characters of the class [p] in a row, and each of them is [r]:
    the strings [re_sub_runs p r] leaves alone. *)
Fixpoint single_runs (p : char -> bool) (r : char) (in_run : bool) (s : pystr)
  : bool :=
  match s with
  | [] => true
  | c :: s' =>
      if p c then negb in_run && chr_eqb c r && single_runs p r true s'
      else single_runs p r false s'
  end.

(** [os.path.splitext] (posixpath: [sep] is the slash, [extsep] the dot).
    The extension starts at the last dot of the last path component, unless
    only dots precede it in that component. *)
Definition splitext (p : pystr) : pystr * pystr :=
  let sepIndex := rfind 47%N p in
  let dotIndex := rfind 46%N p in
  if (sepIndex <? dotIndex)%Z then
    let filenameIndex := (sepIndex + 1)%Z in
    if existsb (fun c => negb (chr_eqb c 46%N))
         (slice (Z.to_nat filenameIndex) (Z.to_nat dotIndex) p)
    then (firstn (Z.to_nat dotIndex) p, skipn (Z.to_nat dotIndex) p)
    else (p, [])
  else (p, []).

(** Number of bytes of the UTF-8 encoding. *)
Definition utf8_len (c : char) : nat :=
  if (c <? 128)%N then 1 else if (c <? 2048)%N then 2
  else if (c <? 65536)%N then 3 else 4.

Definition byte_length (s : pystr) : nat :=
  fold_right (fun c n => utf8_len c + n) 0 s.

(** [a < b] on strings: code point by code point. *)
Fixpoint str_ltb (a b : pystr) : bool :=
  match a, b with
  | _, [] => false
  | [], _ :: _ => true
  | x :: a', y :: b' =>
      if (x <? y)%N then true
      else if (y <? x)%N then false
      else str_ltb a' b'
  end.

Definition str_leb (a b : pystr) : bool := negb (str_ltb b a).

(** [sorted(l)] on strings. *)
Fixpoint insert_sorted (x : pystr) (l : list pystr) : list pystr :=
  match l with
  | [] => [x]
  | y :: l' => if str_leb x y then x :: l else y :: insert_sorted x l'
  end.

Definition sorted (l : list pystr) : list pystr :=
  fold_right insert_sorted [] l.

Definition startswith (prefix s : pystr) : bool :=
  str_eqb (firstn (length prefix) s) prefix.

Definition endswith (suffix s : pystr) : bool :=
  str_eqb (skipn (length s - length suffix) s) suffix.

(** [os.path.join(a, b)] (posixpath). *)
Definition path_join (a b : pystr) : pystr :=
  if startswith [47%N] b then b
  else match a with
       | [] => b
       | _ => if endswith [47%N] a then a ++ b else a ++ 47%N :: b
       end.

Fixpoint uint_digits (d : Decimal.uint) : pystr :=
  match d with
  | Decimal.Nil => []
  | Decimal.D0 d' => 48%N :: uint_digits d'
  | Decimal.D1 d' => 49%N :: uint_digits d'
  | Decimal.D2 d' => 50%N :: uint_digits d'
  | Decimal.D3 d' => 51%N :: uint_digits d'
  | Decimal.D4 d' => 52%N :: uint_digits d'
  | Decimal.D5 d' => 53%N :: uint_digits d'
  | Decimal.D6 d' => 54%N :: uint_digits d'
  | Decimal.D7 d' => 55%N :: uint_digits d'
  | Decimal.D8 d' => 56%N :: uint_digits d'
  | Decimal.D9 d' => 57%N :: uint_digits d'
  end.

(** [f"{n:03d}"]: decimal, padded with zeros to three digits at least. *)
Definition format_03d (n : nat) : pystr :=
  let digits := uint_digits (Nat.to_uint n) in
  repeat 48%N (3 - length digits) ++ digits.

End Py.

Import Py.

(** ** The Unicode character database

    [unicodedata] and [re] consult tables that are not part of the
    repository.  On ASCII their answers are fixed below; beyond ASCII the
    tables are a parameter. *)

Record unicode_tables := {
  (** full compatibility decomposition of a code point *)
  decomposition : char -> pystr;
  (** [unicodedata.combining]: the canonical combining class *)
  combining_class : char -> N;
  (** [str.isprintable] *)
  printable : char -> bool;
  (** the class [\s] of [re] on [str] patterns *)
  whitespace : char -> bool
}.

Module Sanitizer.
Section WithTables.

Variable U : unicode_tables.

Definition is_ascii (c : char) : bool := (c <? 128)%N.

Definition decompose (c : char) : pystr :=
  if is_ascii c then [c] else decomposition U c.

Definition combining (c : char) : N :=
  if is_ascii c then 0%N else combining_class U c.

Definition isprintable (c : char) : bool :=
  if is_ascii c then (32 <=? c)%N && (c <? 127)%N else printable U c.

Definition isspace (c : char) : bool :=
  if is_ascii c
  then ((9 <=? c)%N && (c <=? 13)%N) || ((28 <=? c)%N && (c <=? 32)%N)
  else whitespace U c.

(** Canonical ordering: a character of non-zero class moves back over the
    characters of greater class before it.  [acc] is the output so far,
    last character first. *)
Fixpoint reorder_insert (c : char) (acc : pystr) : pystr :=
  match acc with
  | [] => [c]
  | a :: acc' =>
      if (combining c <? combining a)%N then a :: reorder_insert c acc'
      else c :: acc
  end.

Definition canonical_order (s : pystr) : pystr :=
  rev (fold_left
         (fun acc c =>
            if (combining c =? 0)%N then c :: acc else reorder_insert c acc)
         s []).

(** [unicodedata.normalize('NFKD', s)] *)
Definition normalize_NFKD (s : pystr) : pystr :=
  canonical_order (flat_map decompose s).

(** Step 1 *)
Definition strip_marks (s : pystr) : pystr :=
  filter (fun c => (combining c =? 0)%N) (normalize_NFKD s).

(** Step 2: the table, in the order the dict is written (and iterated). *)
Definition char_map : list (char * pystr) :=
  [ (60, str "(");  (62, str ")");  (58, str "-");  (34, str "'");
    (47, str "-");  (92, str "-");  (124, str "-"); (63, str "");
    (42, str "");   (38, str "and"); (35, str "No."); (37, str "pct");
    (123, str "("); (125, str ")"); (126, str "-"); (43, str "plus");
    (64, str "at"); (33, str "");   (96, str "'");  (61, str "-");
    (59, str ",");  (91, str "(");  (93, str ")") ]%N.

Definition substitute_with (m : list (char * pystr)) (s : pystr) : pystr :=
  fold_left (fun acc kr => replace (fst kr) (snd kr) acc) m s.

Definition substitute : pystr -> pystr := substitute_with char_map.

(** Step 3 *)
Definition drop_unprintable (s : pystr) : pystr := filter isprintable s.

(** Step 4 *)
Definition is_dash (c : char) : bool := chr_eqb c 45%N.

Definition collapse (s : pystr) : pystr :=
  re_sub_runs is_dash 45%N false (re_sub_runs isspace 32%N false s).

(** Step 5 *)
Definition trim (s : pystr) : pystr := strip (str " -") s.

(** Step 6 *)
Definition limit_length (filename : pystr) : pystr :=
  if 255 <? length filename then
    let '(name_part, ext_part) := splitext filename in
    slice_to (255 - Z.of_nat (length ext_part))%Z name_part ++ ext_part
  else filename.

(** Step 7 *)
Definition fallback (filename : pystr) : pystr :=
  match filename with
  | [] => str "unnamed_document"
  | _ => filename
  end.

(** The string after steps 1 to 5. *)
Definition cleaned (filename : pystr) : pystr :=
  trim (collapse (drop_unprintable (substitute (strip_marks filename)))).

Definition sanitize_filename (filename : pystr) : pystr :=
  fallback (limit_length (cleaned filename)).

(** The characters the table replaces. *)
Definition forbidden (c : char) : bool :=
  existsb (chr_eqb c) (List.map fst char_map).

(** A character normalization leaves in place. *)
Definition stable (c : char) : Prop :=
  decompose c = [c] /\ combining c = 0%N.

(** The decompositions of the table are full: their characters do not
    decompose further. *)
Definition decomposition_closed : Prop :=
  forall c d, In d (decompose c) -> decompose d = [d].

(** The length limit as the design document words it: 255 bytes (of
    UTF-8), counted on the name without its extension. *)
Fixpoint take_bytes (n : nat) (s : pystr) : pystr :=
  match s with
  | [] => []
  | c :: s' =>
      if utf8_len c <=? n then c :: take_bytes (n - utf8_len c) s' else []
  end.

Definition limit_name_bytes (filename : pystr) : pystr :=
  let '(name_part, ext_part) := splitext filename in
  take_bytes 255 name_part ++ ext_part.

End WithTables.

(** A small excerpt of the real tables (Latin-1 letters with an acute or a
    grave accent, the no-break space, the fullwidth less-than sign), used to
    run the sanitizer on non-ASCII input. *)
Definition sample_tables : unicode_tables := {|
  decomposition c :=
    if (c =? 233)%N then [101; 769]           (* e acute *)
    else if (c =? 232)%N then [101; 768]      (* e grave *)
    else if (c =? 160)%N then [32]            (* no-break space *)
    else if (c =? 65308)%N then [60]          (* fullwidth less-than *)
    else [c];
  combining_class c :=
    if (c =? 768)%N || (c =? 769)%N then 230 else 0;
  printable c := negb ((c <? 161)%N || (c =? 173)%N || (c =? 8232)%N);
  whitespace c := (c =? 133)%N || (c =? 160)%N || (c =? 8232)%N
|}%N.

(** Inputs that reach the length limit. *)
Definition long_title : pystr := repeat 97%N 254 ++ str " b".
Definition long_name_pdf : pystr := repeat 97%N 254 ++ str ".pdf".
Definition sharp_s_title : pystr := repeat 223%N 200.

End Sanitizer.

Import Sanitizer.

(** ** Decoded JSON and Python's view of it *)

Module Json.

#[local] Set Warnings "-register-all".

Inductive json :=
| JNull
| JBool (b : bool)
| JNum (z : Z)
| JStr (s : pystr)
| JArr (items : list json)
| JObj (members : list (pystr * json)).

(** Truth value of a decoded value ([not x] is its negation). *)
Definition truthy (v : json) : bool :=
  match v with
  | JNull => false
  | JBool b => b
  | JNum z => negb (z =? 0)%Z
  | JStr s => match s with [] => false | _ => true end
  | JArr l => match l with [] => false | _ => true end
  | JObj m => match m with [] => false | _ => true end
  end.

Fixpoint lookup (k : pystr) (m : list (pystr * json)) : option json :=
  match m with
  | [] => None
  | (k', v) :: m' => if str_eqb k k' then Some v else lookup k m'
  end.

(** [d.get(k, default)]; [None] when [d] has no method [get]
    (AttributeError). *)
Definition get (d : json) (k : pystr) (default : json) : option json :=
  match d with
  | JObj m => Some (match lookup k m with Some v => v | None => default end)
  | _ => None
  end.

(** [x + 1] and [range] want an integer; [bool] is a subclass of [int]. *)
Definition as_int (v : json) : option Z :=
  match v with
  | JNum z => Some z
  | JBool b => Some (if b then 1 else 0)%Z
  | _ => None
  end.

(** [a == b] on decoded values, as [is_publication_processed] compares
    publication ids ([True == 1] holds in Python).  Lists are compared item
    by item; dicts (members with distinct keys) key by key, in any order. *)
Fixpoint eqb (a b : json) {struct a} : bool :=
  match a, b with
  | JNull, JNull => true
  | JBool x, JBool y => Bool.eqb x y
  | JBool x, JNum z | JNum z, JBool x => (z =? (if x then 1 else 0))%Z
  | JNum x, JNum y => (x =? y)%Z
  | JStr x, JStr y => str_eqb x y
  | JArr l, JArr l' =>
      (fix all2 (l : list json) (l' : list json) : bool :=
         match l, l' with
         | [], [] => true
         | x :: r, y :: r' => eqb x y && all2 r r'
         | _, _ => false
         end) l l'
  | JObj m, JObj m' =>
      (length m =? length m')
      && (fix all (m : list (pystr * json)) : bool :=
            match m with
            | [] => true
            | (k, x) :: r =>
                match lookup k m' with
                | Some y => eqb x y
                | None => false
                end && all r
            end) m
  | _, _ => false
  end.

End Json.

Import Json.

(** ** The ledger file and the worker's records *)

Module Ledger.

(** [book_info] of [main] *)
Record book_info := {
  bk_title : json;
  bk_handle : pystr;
  bk_publish_date : pystr;
  bk_page_count : json;
  bk_publication_id : json;
  bk_drive_link : json
}.

(** One entry of ["processed_publications"]. *)
Record processed_record := {
  rec_publication_id : json;
  rec_metadata : book_info;
  rec_processed_at : pystr
}.

(** [data/processed_publications.json], as far as the worker looks at it.
    The members of a list under ["processed_publications"] are taken to be
    objects with a ["publication_id"], as [save_processed_publication]
    writes them. *)
Inductive ledger_file :=
| Missing        (* [open] raises FileNotFoundError *)
| Unreadable     (* [open] or the read raises another exception
                    (PermissionError, UnicodeDecodeError) *)
| Unparseable    (* [json.load] raises JSONDecodeError *)
| Malformed      (* JSON on which the look under ["processed_publications"]
                    raises: no such key, not an object, or under the key a
                    value that is no list and not empty *)
| Hollow         (* under the key an empty object or an empty string:
                    nothing to iterate over, and no [append] *)
| Ledger (processed_publications : list processed_record).

(** [open(PROCESSED_PUBS_FILE, 'w')] and [json.dump], which are not one
    step: [open] truncates the file before anything is written. *)
Inductive write_result :=
| Written        (* the file holds the new content *)
| Refused        (* [open] raises: the file is as before *)
| Cut.           (* the file was truncated and the dump raised: what is left
                    of it does not parse *)

End Ledger.

Import Ledger.

(** ** [datetime]

    The dates the worker compares and prints.  [utcoffset] is in seconds,
    and [None] for a naive datetime. *)

Module Datetime.

Record datetime := {
  year : Z;
  month : Z;
  day : Z;
  hour : Z;
  minute : Z;
  second : Z;
  microsecond : Z;
  utcoffset : option Z
}.

Definition is_leap (y : Z) : bool :=
  ((y mod 4 =? 0) && (negb (y mod 100 =? 0) || (y mod 400 =? 0)))%Z.

Definition days_before_year (y : Z) : Z :=
  ((y - 1) * 365 + (y - 1) / 4 - (y - 1) / 100 + (y - 1) / 400)%Z.

Definition days_before_month (y m : Z) : Z :=
  (nth (Z.to_nat (m - 1))
     [0; 31; 59; 90; 120; 151; 181; 212; 243; 273; 304; 334] 0
   + (if (2 <? m) && is_leap y then 1 else 0))%Z.

(** [toordinal]: the day 0001-01-01 is day 1. *)
Definition toordinal (d : datetime) : Z :=
  (days_before_year (year d) + days_before_month (year d) (month d)
   + day d)%Z.

(** Microseconds from the start of day 0 to the wall-clock time. *)
Definition wall_microseconds (d : datetime) : Z :=
  ((((toordinal d * 24 + hour d) * 60 + minute d) * 60 + second d) * 1000000
   + microsecond d)%Z.

(** [a <= b].  Two aware datetimes are compared as instants, two naive ones
    as wall-clock times; a naive and an aware one cannot be compared
    (TypeError), which is [None]. *)
Definition datetime_le (a b : datetime) : option bool :=
  match utcoffset a, utcoffset b with
  | Some oa, Some ob =>
      Some (wall_microseconds a - oa * 1000000
            <=? wall_microseconds b - ob * 1000000)%Z
  | None, None => Some (wall_microseconds a <=? wall_microseconds b)%Z
  | _, _ => None
  end.

Definition decimal (n : Z) : pystr := uint_digits (Nat.to_uint (Z.to_nat n)).

Definition format_02d (n : Z) : pystr :=
  repeat 48%N (2 - length (decimal n)) ++ decimal n.

(** [d.strftime('%Y-%m-%d')], for a year of four digits. *)
Definition strftime_ymd (d : datetime) : pystr :=
  decimal (year d) ++ str "-" ++ format_02d (month d) ++ str "-"
    ++ format_02d (day d).

End Datetime.

Import Datetime.

(** ** The outside world

    Everything the two scripts reach through a library: the HTTP session,
    the thread pool, the file system, img2pdf, Google Drive, SMTP, the clock.
    Each answer may depend on all that happened before. *)

Module World.

(** What [session.get], [BeautifulSoup] and [json.loads] make of the page of
    a publication. *)
Inductive document_page :=
| RequestFailed                 (* [get] or [raise_for_status] raised *)
| NoInitialData                 (* no [script#initial-data], or no [data-json] *)
| BadJson                       (* [json.loads] raised *)
| InitialData (data : json).

Inductive pass := FirstPass | RetryPass.

(** What the worker makes of a publication date: an exception, or whether
    the date is after the cut-off, with the date as the mail shows it. *)
Inductive date_result :=
| DateError
| Date (after_cutoff : bool) (ymd : pystr).

(** [config.json] *)
Record config := {
  issuu_handles : list pystr;
  google_drive_folder_id : pystr
}.

Inductive event :=
| EvListing (handle : pystr)
| EvDocument (url : pystr)
| EvMakedirs (dir : pystr)
| EvImage (p : pass) (page_num : nat) (output_path : pystr) (ok : bool)
| EvListdir (dir : pystr)
| EvConvert (image_files : list pystr) (output_pdf : pystr) (ok : bool)
| EvUpload (file_path : pystr) (ok : bool)
| EvNow
| EvEmail (books : list book_info) (ok : bool).

Definition history := list event.

Record world := {
  (** the process is stopped here *)
  interrupted : history -> bool;
  (** tables of [unicodedata] and [re] *)
  unicode : unicode_tables;
  (** an f-string's rendering of a decoded value *)
  fstring : json -> pystr;
  load_config : option config;
  drive_service_ok : bool;
  (** [get_publications]: the result of the listing walker *)
  listing : history -> pystr -> list pystr;
  document : history -> pystr -> document_page;
  makedirs_ok : history -> bool;
  (** one call of [download_page_image] (document, revision, page) *)
  image_ok : history -> json -> json -> nat -> bool;
  (** the choices that order the finished futures *)
  schedule : history -> list nat;
  (** names already in the images directory *)
  stale_files : history -> list pystr;
  (** [img2pdf.convert] and the write of the PDF *)
  convert_ok : history -> list pystr -> bool;
  (** [files().create(...).execute()]: the web link, or an exception *)
  drive_upload : history -> pystr -> option json;
  (** [dateutil.parser.parse]: [None] when it raises *)
  parse : pystr -> option datetime;
  (** how a write of the ledger file ends *)
  ledger_write : history -> write_result;
  now : history -> pystr;
  smtp_ok : history -> bool
}.

Record state := {
  trace : history;
  ledger : ledger_file
}.

End World.

Import World.

(** ** A state and exception monad

    [except Exception] catches [Exception]; an interruption passes through
    every handler. *)

Module Run.

Inductive exc := Exception | Interrupt.

Inductive result (A : Type) :=
| Ret (a : A) (s : state)
| Exc (e : exc) (s : state).

Arguments Ret {A} a s.
Arguments Exc {A} e s.

Definition M (A : Type) := state -> result A.

Definition ret {A} (a : A) : M A := fun s => Ret a s.

Definition bind {A B} (m : M A) (k : A -> M B) : M B :=
  fun s => match m s with
           | Ret a s' => k a s'
           | Exc e s' => Exc e s'
           end.

Definition raise {A} : M A := fun s => Exc Exception s.

(** [try: m  except Exception: h] *)
Definition try_except {A} (m : M A) (h : M A) : M A :=
  fun s => match m s with
           | Exc Exception s' => h s'
           | r => r
           end.

(** A call into the world: the process may be stopped before it; its answer
    is logged. *)
Definition io {A} (w : world) (answer : history -> A) (ev : A -> event)
  : M A :=
  fun s =>
    if interrupted w (trace s) then Exc Interrupt s
    else let a := answer (trace s) in
         Ret a {| trace := trace s ++ [ev a]; ledger := ledger s |}.

Definition ask {A} (answer : history -> A) : M A :=
  fun s => Ret (answer (trace s)) s.

Definition final_state {A} (r : result A) : state :=
  match r with Ret _ s => s | Exc _ s => s end.

Definition returned {A} (r : result A) : option A :=
  match r with Ret a _ => Some a | Exc _ _ => None end.

(** [for x in xs: acc = body(x, acc)] *)
Fixpoint for_each {X A} (xs : list X) (body : X -> A -> M A) (acc : A) : M A :=
  match xs with
  | [] => ret acc
  | x :: xs' => bind (body x acc) (for_each xs' body)
  end.

End Run.

Import Run.

Notation "x <- m ;; k" := (bind m (fun x => k))
  (at level 61, m at next level, right associativity).

(** ** [issuu_scraper.py]: class [IssuuScraper] *)

Module IssuuScraper.

Record doc_data := {
  publication_id : json;
  page_count : json;
  title : json;
  revision_id : json;
  originalPublishDateInISOString : json
}.

Definition field (m : list (pystr * json)) (k : string) (default : json)
  : json :=
  match lookup (str k) m with Some v => v | None => default end.

(** What [get_document_data] makes of the page: every exception ends in
    [return None]. *)
Definition extract_document (pg : document_page) : option doc_data :=
  match pg with
  | InitialData data =>
      match get data (str "initialDocumentData") (JObj []) with
      | Some initial =>
          match get initial (str "document") (JObj []) with
          | Some doc =>
              if truthy doc then
                match doc with
                | JObj m =>
                    Some {| publication_id := field m "publicationId" JNull;
                            page_count := field m "pageCount" (JNum 0);
                            title := field m "title" JNull;
                            revision_id := field m "revisionId" JNull;
                            originalPublishDateInISOString :=
                              field m "originalPublishDateInISOString" JNull |}
                | _ => None
                end
              else None
          | None => None
          end
      | None => None
      end
  | _ => None
  end.

(** The futures in the order [as_completed] yields them: any order at all.
    Each choice picks one of the futures still pending. *)
Fixpoint completion_order {A} (n : nat) (choices : list nat) (pending : list A)
  : list A :=
  match n with
  | 0 => []
  | S n' =>
      let k := hd 0 choices mod length pending in
      match nth_error pending k with
      | Some f =>
          f :: completion_order n' (tl choices)
                 (firstn k pending ++ skipn (S k) pending)
      | None => []
      end
  end.

Definition as_completed {A} (choices : list nat) (futures : list A) : list A :=
  completion_order (length futures) choices futures.

Definition page_file (page_num : nat) : pystr :=
  str "page_" ++ format_03d page_num ++ str ".jpg".

(** The counters of [scrape_publication], and the names written to the
    images directory. *)
Record tally := {
  successful_downloads : nat;
  failed_pages : list nat;
  saved : list pystr
}.

Definition add_file (name : pystr) (dir : list pystr) : list pystr :=
  if existsb (str_eqb name) dir then dir else dir ++ [name].

Definition count_success (name : pystr) (t : tally) : tally :=
  {| successful_downloads := S (successful_downloads t);
     failed_pages := failed_pages t;
     saved := add_file name (saved t) |}.

Definition count_failure (i : nat) (t : tally) : tally :=
  {| successful_downloads := successful_downloads t;
     failed_pages := failed_pages t ++ [i];
     saved := saved t |}.

Section WithWorld.

Variable w : world.

Definition get_document_data (url : pystr) : M (option doc_data) :=
  pg <- io w (fun h => document w h url) (fun _ => EvDocument url) ;;
  ret (extract_document pg).

Definition download_page_image (p : pass) (doc_id revision_id : json)
    (page_num : nat) (output_path : pystr) : M bool :=
  io w (fun h => image_ok w h doc_id revision_id page_num)
       (fun ok => EvImage p page_num output_path ok).

(** The loop over [enumerate(as_completed(futures), 1)]: [completed] holds
    the page numbers of the futures in the order they are yielded, [i] is the
    loop index. *)
Fixpoint first_pass (doc_id revision_id : json) (images_dir : pystr)
    (completed : list nat) (i : nat) (t : tally) : M tally :=
  match completed with
  | [] => ret t
  | page_num :: rest =>
      success <- download_page_image FirstPass doc_id revision_id page_num
                   (images_dir ++ str "/" ++ page_file page_num) ;;
      first_pass doc_id revision_id images_dir rest (S i)
        (if success then count_success (page_file page_num) t
         else count_failure i t)
  end.

(** The loop over [failed_pages]. *)
Fixpoint retry_pass (doc_id revision_id : json) (images_dir : pystr)
    (pages : list nat) (t : tally) : M tally :=
  match pages with
  | [] => ret t
  | page_num :: rest =>
      success <- download_page_image RetryPass doc_id revision_id page_num
                   (images_dir ++ str "/" ++ page_file page_num) ;;
      retry_pass doc_id revision_id images_dir rest
        (if success then count_success (page_file page_num) t else t)
  end.

(** The list [create_pdf] hands to [img2pdf.convert]. *)
Definition image_files_of (image_folder : pystr) (names : list pystr)
  : list pystr :=
  sorted (List.map (path_join image_folder)
            (filter (endswith (str ".jpg")) names)).

Definition create_pdf (image_folder output_pdf : pystr) (written : list pystr)
  : M bool :=
  try_except
    (stale <- io w (stale_files w) (fun _ => EvListdir image_folder) ;;
     let image_files :=
       image_files_of image_folder (fold_right add_file stale (rev written)) in
     match image_files with
     | [] => ret false
     | _ =>
         ok <- io w (fun h => convert_ok w h image_files)
                 (fun ok => EvConvert image_files output_pdf ok) ;;
         if ok then ret true else raise
     end)
    (ret false).

Definition scrape_publication (handle pub_url : pystr) : M bool :=
  try_except
    (doc <- get_document_data pub_url ;;
     match doc with
     | None => ret false
     | Some d =>
         if negb (truthy (publication_id d)) then ret false
         else
           match title d with
           | JStr original_title =>
               let sanitized_title :=
                 sanitize_filename (unicode w) original_title in
               let base_dir :=
                 str "downloads/" ++ handle ++ str "/"
                   ++ fstring w (publication_id d) in
               let images_dir := base_dir ++ str "/images" in
               made <- io w (makedirs_ok w) (fun _ => EvMakedirs images_dir) ;;
               if negb made then raise
               else
                 match as_int (page_count d) with
                 | None => raise
                 | Some n =>
                     let futures := seq 1 (Z.to_nat n) in
                     choices <- ask (schedule w) ;;
                     t <- first_pass (publication_id d) (revision_id d)
                            images_dir (as_completed choices futures) 1
                            {| successful_downloads := 0;
                               failed_pages := [];
                               saved := [] |} ;;
                     if successful_downloads t =? 0 then ret false
                     else
                       t' <- retry_pass (publication_id d) (revision_id d)
                               images_dir (failed_pages t) t ;;
                       if 0 <? successful_downloads t' then
                         create_pdf images_dir
                           (base_dir ++ str "/" ++ sanitized_title
                              ++ str ".pdf")
                           (saved t')
                       else ret false
                 end
           | _ => raise
           end
     end)
    (ret false).

End WithWorld.

End IssuuScraper.

Import IssuuScraper.

(** ** [scraper_worker.py] *)

Module Worker.

(** [CUTOFF_DATE = datetime(2025, 1, 31, tzinfo=timezone.utc)] *)
Definition CUTOFF_DATE : datetime := {|
  year := 2025; month := 1; day := 31;
  hour := 0; minute := 0; second := 0; microsecond := 0;
  utcoffset := Some 0%Z
|}.

Section WithWorld.

Variable w : world.

(** [with open(PROCESSED_PUBS_FILE, 'w') as f: json.dump(data, f)] *)
Definition write_ledger (data : ledger_file) : M unit :=
  fun s =>
    match ledger_write w (trace s) with
    | Written => Ret tt {| trace := trace s; ledger := data |}
    | Refused => Exc Exception s
    | Cut => Exc Exception {| trace := trace s; ledger := Unparseable |}
    end.

(** [load_processed_publications]: what [json.load] gives.  A file that is
    missing or does not parse is replaced by an empty ledger; any other
    exception of [open] or of the read leaves the function. *)
Definition load_processed_publications : M ledger_file :=
  fun s =>
    match ledger s with
    | Missing | Unparseable =>
        (_ <- write_ledger (Ledger []) ;; ret (Ledger [])) s
    | Unreadable => raise s
    | data => ret data s
    end.

(** [data["processed_publications"].append(...)] is looked up before
    [datetime.now()] is called. *)
Definition save_processed_publication (pub_id : json) (metadata : book_info)
  : M unit :=
  data <- load_processed_publications ;;
  match data with
  | Ledger records =>
      processed_at <- io w (now w) (fun _ => EvNow) ;;
      write_ledger
        (Ledger (records ++ [ {| rec_publication_id := pub_id;
                                 rec_metadata := metadata;
                                 rec_processed_at := processed_at |} ]))
  | _ => raise
  end.

(** [any(pub["publication_id"] == pub_id for pub in ...)] *)
Definition is_publication_processed (pub_id : json) : M bool :=
  data <- load_processed_publications ;;
  match data with
  | Ledger records =>
      ret (existsb (fun pub => Json.eqb (rec_publication_id pub) pub_id)
             records)
  | Hollow => ret false
  | _ => raise
  end.

Definition upload_to_drive (file_path : pystr) : M json :=
  link <- io w (fun h => drive_upload w h file_path)
            (fun r => EvUpload file_path
                        (match r with Some _ => true | None => false end)) ;;
  match link with
  | Some web_link => ret web_link
  | None => raise
  end.

Definition send_email (new_books : list book_info) : M unit :=
  sent <- io w (smtp_ok w) (fun ok => EvEmail new_books ok) ;;
  if sent then ret tt else raise.

(** The body of the loop over [publications]; [new_books] is the list built
    so far, and the value returned is the list after this reference. *)
Definition process_reference (handle pub_url : pystr)
    (new_books : list book_info) : M (list book_info) :=
  doc <- get_document_data w pub_url ;;
  match doc with
  | None => ret new_books
  | Some d =>
      let pub_id := publication_id d in
      processed <- is_publication_processed pub_id ;;
      if processed then ret new_books
      else
        let pub_date_str := originalPublishDateInISOString d in
        if negb (truthy pub_date_str) then ret new_books
        else
          match pub_date_str with
          | JStr date_text =>
              match parse w date_text with
              | None => raise
              | Some pub_date =>
                  match datetime_le pub_date CUTOFF_DATE with
                  | None => raise
                  | Some true => ret new_books
                  | Some false =>
                      success <- scrape_publication w handle pub_url ;;
                      if success then
                        let pdf_path :=
                          str "downloads/" ++ handle ++ str "/"
                            ++ fstring w pub_id ++ str "/"
                            ++ fstring w (title d) ++ str ".pdf" in
                        web_link <- upload_to_drive pdf_path ;;
                        let book :=
                          {| bk_title := title d;
                             bk_handle := handle;
                             bk_publish_date := strftime_ymd pub_date;
                             bk_page_count := page_count d;
                             bk_publication_id := pub_id;
                             bk_drive_link := web_link |} in
                        _ <- save_processed_publication pub_id book ;;
                        ret (new_books ++ [book])
                      else ret new_books
                  end
              end
          | _ => raise
          end
  end.

Definition process_handle (handle : pystr) (new_books : list book_info)
  : M (list book_info) :=
  publications <- io w (fun h => firstn 10 (listing w h handle))
                    (fun _ => EvListing handle) ;;
  for_each publications (process_reference handle) new_books.

Definition main : M unit :=
  try_except
    (match load_config w with
     | None => raise
     | Some config =>
         if negb (drive_service_ok w) then raise
         else
           new_books <- for_each (issuu_handles config) process_handle [] ;;
           match new_books with
           | [] => ret tt
           | _ => send_email new_books
           end
     end)
    raise.

End WithWorld.

End Worker.

Import Worker.


(** ** Numeric order, to compare with *)

Module Numeric.

Fixpoint insert_nat (x : nat) (l : list nat) : list nat :=
  match l with
  | [] => [x]
  | y :: l' => if x <=? y then x :: l else y :: insert_nat x l'
  end.

(** The page numbers in ascending order. *)
Definition sort_nat (l : list nat) : list nat := fold_right insert_nat [] l.

End Numeric.

Import Numeric.

(** ** Reading a trace *)

Module Trace.

Definition pass_eqb (p q : pass) : bool :=
  match p, q with
  | FirstPass, FirstPass | RetryPass, RetryPass => true
  | _, _ => false
  end.

(** The event of one call of [download_page_image]. *)
Definition image_event (p : pass) (images_dir : pystr) (r : nat * bool)
  : event :=
  EvImage p (fst r) (images_dir ++ str "/" ++ page_file (fst r)) (snd r).

(** The page numbers a pass asked for, with the outcome, in order. *)
Definition image_results (p : pass) (evs : history) : list (nat * bool) :=
  flat_map (fun e => match e with
                     | EvImage q n _ ok => if pass_eqb p q then [(n, ok)] else []
                     | _ => []
                     end) evs.

Definition pages_of (p : pass) (evs : history) : list nat :=
  List.map fst (image_results p evs).

Definition successes_of (p : pass) (evs : history) : nat :=
  length (filter (fun r => snd r) (image_results p evs)).

Definition failures_of (p : pass) (evs : history) : nat :=
  length (filter (fun r => negb (snd r)) (image_results p evs)).

(** No first-pass download after a retry. *)
Fixpoint passes_in_order (retrying : bool) (evs : history) : bool :=
  match evs with
  | [] => true
  | EvImage FirstPass _ _ _ :: evs' =>
      negb retrying && passes_in_order retrying evs'
  | EvImage RetryPass _ _ _ :: evs' => passes_in_order true evs'
  | _ :: evs' => passes_in_order retrying evs'
  end.

(** The loop indices (from [i]) at which the outcome is a failure: what the
    first pass appends to [failed_pages]. *)
Fixpoint failure_indices (i : nat) (oks : list bool) : list nat :=
  match oks with
  | [] => []
  | ok :: oks' =>
      if ok then failure_indices (S i) oks' else i :: failure_indices (S i) oks'
  end.

Definition is_image (e : event) : bool :=
  match e with EvImage _ _ _ _ => true | _ => false end.

Definition is_convert (e : event) : bool :=
  match e with EvConvert _ _ _ => true | _ => false end.

Definition is_convert_ok (e : event) : bool :=
  match e with EvConvert _ _ ok => ok | _ => false end.

Definition is_upload (e : event) : bool :=
  match e with EvUpload _ _ => true | _ => false end.

Definition is_upload_ok (e : event) : bool :=
  match e with EvUpload _ ok => ok | _ => false end.

Definition is_upload_failed (e : event) : bool :=
  match e with EvUpload _ ok => negb ok | _ => false end.

(** Events before the downloads, and events of [create_pdf]. *)
Definition is_setup (e : event) : bool :=
  match e with EvDocument _ | EvMakedirs _ => true | _ => false end.

Definition is_assembly (e : event) : bool :=
  match e with EvListdir _ | EvConvert _ _ _ => true | _ => false end.

Definition is_document (e : event) : bool :=
  match e with EvDocument _ => true | _ => false end.

Definition is_email (e : event) : bool :=
  match e with EvEmail _ _ => true | _ => false end.

(** The events a computation added to the trace of [s]. *)
Definition new_events {A} (s : state) (r : result A) : history :=
  skipn (length (trace s)) (trace (final_state r)).

Definition records_of (l : ledger_file) : list processed_record :=
  match l with
  | Ledger records => records
  | _ => []
  end.

(** The page count [scrape_publication] works with when it resolves
    [pub_url] in state [s]. *)
Definition resolved_pages (w : world) (s : state) (pub_url : pystr) : nat :=
  match extract_document (document w (trace s) pub_url) with
  | Some d => match as_int (page_count d) with
              | Some n => Z.to_nat n
              | None => 0
              end
  | None => 0
  end.

(** How a run [r] of [scrape_publication] from state [s] extends the trace:
    setup, the downloads of the first pass in the order the futures
    complete, the retries of the loop indices of the failures, then
    [create_pdf]. *)
Definition scrape_shape (w : world) (s : state) (pub_url : pystr)
    (r : result bool) : Prop :=
  exists pre res1 res2 post dir,
    let N := resolved_pages w s pub_url in
    trace (final_state r)
    = trace s ++ pre ++ List.map (image_event FirstPass dir) res1
        ++ List.map (image_event RetryPass dir) res2 ++ post
    /\ ledger (final_state r) = ledger s
    /\ Forall (fun e => is_setup e = true) pre
    /\ Forall (fun e => is_assembly e = true) post
    /\ (exists k, List.map fst res1
                  = firstn k (as_completed (schedule w (trace s ++ pre))
                                (seq 1 N)))
    /\ (exists k, List.map fst res2
                  = firstn k (failure_indices 1 (List.map snd res1)))
    /\ (res2 <> [] \/ post <> [] ->
        length res1 = N /\ filter (fun r => snd r) res1 <> [])
    /\ match r with
       | Ret b _ =>
           List.map fst res2
           = (if length (filter (fun r => snd r) res1) =? 0 then []
              else failure_indices 1 (List.map snd res1))
           /\ (b = true ->
               existsb is_convert_ok post = true
               /\ existsb is_document pre = true)
       | Exc e _ => e = Interrupt
       end.

(** The events [scrape_publication] can add. *)
Definition is_scrape_event (e : event) : bool :=
  is_setup e || is_image e || is_assembly e.

(** Resolved, at least one page fetched, and the PDF assembled. *)
Definition scrape_done (evs : history) : Prop :=
  existsb is_document evs = true
  /\ 0 < successes_of FirstPass evs
  /\ existsb is_convert_ok evs = true.

(** The publication id [main] works with when it resolves [pub_url] in
    state [s]. *)
Definition resolved_id (w : world) (s : state) (pub_url : pystr) : json :=
  match extract_document (document w (trace s) pub_url) with
  | Some d => publication_id d
  | None => JNull
  end.

(** Whenever it is resolved, [pub_url] is a publication of [n] pages. *)
Definition resolves_with_pages (w : world) (pub_url : pystr) (n : Z) : Prop :=
  forall h, exists d,
    extract_document (document w h pub_url) = Some d
    /\ as_int (page_count d) = Some n.

Definition is_ret {A} (r : result A) : bool :=
  match r with Ret _ _ => true | Exc _ _ => false end.

(** The ledger file after a look into it that did not raise: a file that
    was missing or did not parse has been replaced. *)
Definition looked_up (l : ledger_file) : ledger_file :=
  match l with
  | Missing | Unparseable => Ledger []
  | _ => l
  end.

(** The state in which the loop body of [main] is after the request of the
    page and the look into the ledger, when neither raised. *)
Definition looked_up_at (s : state) (pub_url : pystr) : state :=
  {| trace := trace s ++ [EvDocument pub_url];
     ledger := looked_up (ledger s) |}.

(** [pub_date = parse(pub_date_str)] and [pub_date <= CUTOFF_DATE] in one:
    an exception of the parser or of the comparison, or whether the date is
    after the cut-off, with the date as the mail shows it. *)
Definition parse_date (w : world) (date_text : pystr) : date_result :=
  match parse w date_text with
  | None => DateError
  | Some pub_date =>
      match datetime_le pub_date CUTOFF_DATE with
      | None => DateError
      | Some on_or_before =>
          Date (negb on_or_before) (strftime_ymd pub_date)
      end
  end.

(** [pdf_path] of the worker's [main]. *)
Definition upload_path (w : world) (handle : pystr) (d : doc_data) : pystr :=
  str "downloads/" ++ handle ++ str "/" ++ fstring w (publication_id d)
    ++ str "/" ++ fstring w (title d) ++ str ".pdf".

(** [book_info] of the worker's [main]. *)
Definition book_of (handle : pystr) (d : doc_data) (pub_date : datetime)
    (web_link : json) : book_info :=
  {| bk_title := title d;
     bk_handle := handle;
     bk_publish_date := strftime_ymd pub_date;
     bk_page_count := page_count d;
     bk_publication_id := publication_id d;
     bk_drive_link := web_link |}.

(** The pipeline completed for the reference [pub_url], taken up in state
    [s]: the reference resolved, to [d], which the ledger does not list and
    which is dated [pub_date], after the cut-off; [scrape_publication]
    fetched and assembled it and returned [True], in state [s2]; and the
    upload of its PDF gave [web_link]. *)
Definition pipeline_completed (w : world) (s : state)
    (handle pub_url : pystr) (d : doc_data) (pub_date : datetime)
    (s2 : state) (web_link : json) : Prop :=
  interrupted w (trace s) = false
  /\ extract_document (document w (trace s) pub_url) = Some d
  /\ is_publication_processed w (publication_id d)
       {| trace := trace s ++ [EvDocument pub_url]; ledger := ledger s |}
     = Ret false (looked_up_at s pub_url)
  /\ (exists date_text,
        originalPublishDateInISOString d = JStr date_text
        /\ date_text <> []
        /\ parse w date_text = Some pub_date)
  /\ datetime_le pub_date CUTOFF_DATE = Some false
  /\ scrape_publication w handle pub_url (looked_up_at s pub_url)
     = Ret true s2
  /\ interrupted w (trace s2) = false
  /\ drive_upload w (trace s2) (upload_path w handle d) = Some web_link.

(** After the upload of [file_path] in state [s2], the ledger write goes
    through: there is a list to append to, the process is not stopped, and
    the file is written. *)
Definition ledger_write_done (w : world) (s2 : state) (file_path : pystr)
  : Prop :=
  ledger s2 <> Hollow
  /\ interrupted w (trace s2 ++ [EvUpload file_path true]) = false
  /\ ledger_write w (trace s2 ++ [EvUpload file_path true; EvNow]) = Written.

(** The loop body recorded the publication: it returned with the book added
    to the list, the ledger is the one of before with one record more, for
    this publication, and the run was the request of the page, the run of
    [scrape_publication], the upload, and the write. *)
Definition recorded (w : world) (s : state) (handle pub_url : pystr)
    (new_books : list book_info) (r : result (list book_info))
    (d : doc_data) (pub_date : datetime) (s2 : state) (web_link : json)
  : Prop :=
  exists record s',
    r = Ret (new_books ++ [rec_metadata record]) s'
    /\ ledger s' = Ledger (records_of (ledger s) ++ [record])
    /\ rec_publication_id record = publication_id d
    /\ rec_metadata record = book_of handle d pub_date web_link
    /\ new_events s r
       = EvDocument pub_url
           :: new_events (looked_up_at s pub_url) (Ret true s2)
           ++ [EvUpload (upload_path w handle d) true; EvNow].

(** The runs of the loop body of [main] on one reference, from state [s]
    with [new_books] built so far.  [rs] is the run of [scrape_publication]
    inside it. *)
Definition reference_shape (w : world) (s : state) (handle pub_url : pystr)
    (new_books : list book_info) (r : result (list book_info)) : Prop :=
  let s1 := looked_up_at s pub_url in
  let rs := scrape_publication w handle pub_url s1 in
  let evs_s := new_events s1 rs in
  let unchanged :=
    records_of (ledger (final_state r)) = records_of (ledger s) in
  exists evs,
    trace (final_state r) = trace s ++ evs
    /\ (
      (* stopped, skipped or failed before [scrape_publication] *)
      ((evs = [] \/ evs = [EvDocument pub_url]) /\ unchanged
       /\ match r with
          | Ret books _ => books = new_books
          | Exc _ _ => True
          end)
      (* not scraped, or stopped before the upload *)
      \/ (evs = EvDocument pub_url :: evs_s /\ unchanged
          /\ match rs with
             | Ret false _ => exists s', r = Ret new_books s'
             | Ret true _ => exists s', r = Exc Interrupt s'
             | Exc e _ => exists s', r = Exc e s'
             end)
      (* the upload failed *)
      \/ (exists file_path s',
            evs = EvDocument pub_url :: evs_s ++ [EvUpload file_path false]
            /\ unchanged /\ returned rs = Some true
            /\ r = Exc Exception s')
      (* stopped between the upload and the ledger write, or no list to
         append to *)
      \/ (exists file_path s' e,
            evs = EvDocument pub_url :: evs_s ++ [EvUpload file_path true]
            /\ unchanged /\ returned rs = Some true
            /\ r = Exc e s')
      (* the ledger write failed *)
      \/ (exists file_path s',
            evs = EvDocument pub_url :: evs_s
                    ++ [EvUpload file_path true; EvNow]
            /\ (unchanged \/ ledger (final_state r) = Unparseable)
            /\ returned rs = Some true
            /\ r = Exc Exception s')
      (* processed *)
      \/ (exists file_path s' record,
            evs = EvDocument pub_url :: evs_s
                    ++ [EvUpload file_path true; EvNow]
            /\ ledger (final_state r)
               = Ledger (records_of (ledger s) ++ [record])
            /\ rec_publication_id record = resolved_id w s pub_url
            /\ returned rs = Some true
            /\ r = Ret (new_books ++ [rec_metadata record]) s')).

Definition uploads_ok (evs : history) : nat :=
  length (filter is_upload_ok evs).

(** What holds of the loops of [main], run from [s]: no mail is sent; in a
    run that goes on, every upload succeeded and has its record; a failed
    upload is the last event, and ends the run with an exception, every
    upload that succeeded before having its record. *)
Definition upload_discipline {A} (s : state) (r : result A) : Prop :=
  exists evs,
    trace (final_state r) = trace s ++ evs
    /\ existsb is_email evs = false
    /\ match r with
       | Ret _ _ =>
           existsb is_upload_failed evs = false
           /\ exists added,
                records_of (ledger (final_state r))
                = records_of (ledger s) ++ added
                /\ length added = uploads_ok evs
       | Exc e _ =>
           existsb is_upload_failed evs = true ->
           e = Exception
           /\ (exists added,
                 records_of (ledger (final_state r))
                 = records_of (ledger s) ++ added
                 /\ length added = uploads_ok evs)
           /\ exists before file_path,
                evs = before ++ [EvUpload file_path false]
                /\ existsb is_upload_failed before = false
       end.

End Trace.

Import Trace.

(** ** Sample worlds *)

Module Scenario.

(** Rendering of the values that occur in the samples. *)
Definition render (v : json) : pystr :=
  match v with
  | JStr s => s
  | JNull => str "None"
  | JBool true => str "True"
  | JBool false => str "False"
  | JNum z => uint_digits (Nat.to_uint (Z.to_nat z))
  | JArr _ => str "[...]"
  | JObj _ => str "{...}"
  end.

Definition document_of (members : list (pystr * json)) : document_page :=
  InitialData
    (JObj [(str "initialDocumentData", JObj [(str "document", JObj members)])]).

Definition publication_dated (pub_id : string) (pages : Z) (title : string)
    (date_text : string) : document_page :=
  document_of
    [ (str "publicationId", JStr (str pub_id));
      (str "revisionId", JStr (str "250301120000"));
      (str "pageCount", JNum pages);
      (str "title", JStr (str title));
      (str "originalPublishDateInISOString", JStr (str date_text)) ].

Definition publication (pub_id : string) (pages : Z) (title : string)
  : document_page :=
  publication_dated pub_id pages title "2025-03-01T12:00:00.000Z".

(** The date texts of the samples, as [dateutil.parser.parse] reads them:
    [YYYY-MM-DDTHH:MM:SS.mmmZ] is an aware datetime, in UTC, and
    [YYYY-MM-DDTHH:MM:SS] a naive one.  No other text is taken for a date
    here. *)
Definition digits_value (cs : pystr) : option Z :=
  fold_left
    (fun acc c =>
       match acc with
       | Some n =>
           if ((48 <=? c) && (c <=? 57))%N
           then Some (10 * n + (Z.of_N c - 48))%Z
           else None
       | None => None
       end)
    cs (Some 0%Z).

Definition number_at (text : pystr) (from len : nat) : option Z :=
  digits_value (firstn len (skipn from text)).

Definition char_at (text : pystr) (i : nat) (c : char) : bool :=
  match nth_error text i with
  | Some x => N.eqb x c
  | None => false
  end.

Definition parse_iso (text : pystr) : option datetime :=
  let aware :=
    (length text =? 24) && char_at text 19 46%N && char_at text 23 90%N in
  let naive := length text =? 19 in
  if (aware || naive) && char_at text 4 45%N && char_at text 7 45%N
     && char_at text 10 84%N && char_at text 13 58%N && char_at text 16 58%N
  then
    match number_at text 0 4, number_at text 5 2, number_at text 8 2,
          number_at text 11 2, number_at text 14 2, number_at text 17 2,
          (if aware then number_at text 20 3 else Some 0%Z)
    with
    | Some y, Some m, Some d, Some h, Some mi, Some s, Some ms =>
        Some {| year := y; month := m; day := d;
                hour := h; minute := mi; second := s;
                microsecond := ms * 1000;
                utcoffset := if aware then Some 0%Z else None |}
    | _, _, _, _, _, _, _ => None
    end
  else None.

Definition acme : pystr := str "acme".
Definition pub1_images : pystr := str "downloads/acme/pub1/images".
Definition guide_url : pystr := str "https://issuu.com/acme/docs/guide".
Definition atlas_url : pystr := str "https://issuu.com/acme/docs/atlas".

(** A world that is never interrupted, with one handle, [acme]; the rest is
    given by the arguments. *)
Definition sample_world (refs : list pystr)
    (docs : pystr -> document_page) (images : history -> nat -> bool)
    (choices : list nat) (upload : pystr -> option json) : world := {|
  interrupted := fun _ => false;
  unicode := sample_tables;
  fstring := render;
  load_config := Some {| issuu_handles := [acme];
                         google_drive_folder_id := str "folder" |};
  drive_service_ok := true;
  listing := fun _ _ => refs;
  document := fun _ url => docs url;
  makedirs_ok := fun _ => true;
  image_ok := fun h _ _ page_num => images h page_num;
  schedule := fun _ => choices;
  stale_files := fun _ => [];
  convert_ok := fun _ _ => true;
  drive_upload := fun _ file_path => upload file_path;
  parse := parse_iso;
  ledger_write := fun _ => Written;
  now := fun _ => str "2025-03-02T08:00:00";
  smtp_ok := fun _ => true
|}.

Definition drive_link : json := JStr (str "https://drive.google.com/file/1").

Definition initial : state := {| trace := []; ledger := Ledger [] |}.

(** Two pages; page 1 cannot be downloaded; the future of page 2 completes
    first. *)
Definition swapped_world : world :=
  sample_world [guide_url] (fun _ => publication "pub1" 2 "Guide")
    (fun _ page_num => negb (page_num =? 1)) [1] (fun _ => Some drive_link).

(** One page, which cannot be downloaded. *)
Definition all_failed_world : world :=
  sample_world [guide_url] (fun _ => publication "pub1" 1 "Guide")
    (fun _ _ => false) [] (fun _ => Some drive_link).

(** A publication without pages. *)
Definition no_pages_world : world :=
  sample_world [guide_url] (fun _ => publication "pub1" 0 "Guide")
    (fun _ _ => true) [] (fun _ => Some drive_link).

(** Two publications; the upload of the first fails. *)
Definition upload_fails_world : world :=
  sample_world [guide_url; atlas_url]
    (fun url => if str_eqb url guide_url then publication "pub1" 1 "Guide"
                else publication "pub2" 1 "Atlas")
    (fun _ _ => true) []
    (fun file_path =>
       if str_eqb file_path (str "downloads/acme/pub1/Guide.pdf") then None
       else Some drive_link).

(** Two publications, and all goes well. *)
Definition fair_world : world :=
  sample_world [guide_url; atlas_url]
    (fun url => if str_eqb url guide_url then publication "pub1" 1 "Guide"
                else publication "pub2" 1 "Atlas")
    (fun _ _ => true) [] (fun _ => Some drive_link).

(** A page whose document object has a title and a page count only. *)
Definition anonymous_page : document_page :=
  document_of [ (str "title", JStr (str "Guide"));
                (str "pageCount", JNum 1) ].

(** A document with a publication id and no revision id. *)
Definition unrevised_page : document_page :=
  document_of [ (str "publicationId", JStr (str "pub1"));
                (str "title", JStr (str "Guide"));
                (str "pageCount", JNum 1) ].

Definition anonymous_world : world :=
  sample_world [guide_url] (fun _ => anonymous_page)
    (fun _ _ => true) [] (fun _ => Some drive_link).

(** What [fair_world] gives for the reference [guide_url]. *)
Definition guide_descriptor : doc_data := {|
  publication_id := JStr (str "pub1");
  page_count := JNum 1;
  title := JStr (str "Guide");
  revision_id := JStr (str "250301120000");
  originalPublishDateInISOString := JStr (str "2025-03-01T12:00:00.000Z")
|}.

Definition guide_date : datetime := {|
  year := 2025; month := 3; day := 1;
  hour := 12; minute := 0; second := 0; microsecond := 0;
  utcoffset := Some 0%Z
|}.

End Scenario.

Import Scenario.

(** ** Definitions for the further properties *)

Module More.

(** The characters of which nothing remains: those [sanitize_filename]
    replaces by a space or a dash, and those two themselves. *)
Definition vanishing : list char :=
  [32; 45; 58; 47; 92; 124; 126; 61; 63; 42; 33]%N.

(** A computation that ends by itself: with a value or with an exception of
    the program, not by the process being stopped. *)
Definition settles {A} (m : M A) : Prop :=
  forall s, match m s with Exc Interrupt _ => False | _ => True end.

Definition returns {A} (m : M A) : Prop :=
  forall s, exists a s', m s = Ret a s'.

(** The page numbers a pass asked for in vain, in order. *)
Definition failed_in (p : pass) (evs : history) : list nat :=
  List.map fst (filter (fun r => negb (snd r)) (image_results p evs)).

(** The paths of [scrape_publication] and of the worker's upload. *)
Definition base_dir_of (w : world) (handle : pystr) (pub_id : json) : pystr :=
  str "downloads/" ++ handle ++ str "/" ++ fstring w pub_id.

(** [pdf_path] of [scrape_publication]. *)
Definition written_path (w : world) (handle : pystr) (d : doc_data)
    (original_title : pystr) : pystr :=
  base_dir_of w handle (publication_id d) ++ str "/"
    ++ sanitize_filename (unicode w) original_title ++ str ".pdf".

(** The state after the request of the page of [pub_url] and the look into
    the ledger, whether the look raised or not. *)
Definition after_lookup (w : world) (s : state) (pub_url : pystr) : state :=
  final_state
    (load_processed_publications w
       {| trace := trace s ++ [EvDocument pub_url]; ledger := ledger s |}).

Definition is_processed (records : list processed_record) (pub_id : json)
  : bool :=
  existsb (fun pub => Json.eqb (rec_publication_id pub) pub_id) records.

(** No two records of the ledger are of the same publication. *)
Definition distinct_ids (records : list processed_record) : Prop :=
  ForallOrdPairs
    (fun a b => Json.eqb (rec_publication_id a) (rec_publication_id b) = false)
    records.

(** What the loops of [main] keep, run from [s] with the list [acc]: no
    publication is twice in the ledger if none was.  Either the records
    added are at the end of the ledger, and the books of the list returned
    are those of the records added; or a write of the ledger file was cut
    short, the file no longer parses, and the run ended with the
    exception. *)
Definition book_keeping (w : world) (acc : list book_info) (s : state)
    (r : result (list book_info)) : Prop :=
  (distinct_ids (records_of (ledger s)) ->
   distinct_ids (records_of (ledger (final_state r))))
  /\ ((exists added,
         records_of (ledger (final_state r)) = records_of (ledger s) ++ added
         /\ forall books s', r = Ret books s' ->
            books = acc ++ List.map rec_metadata added)
      \/ (ledger (final_state r) = Unparseable
          /\ (exists s', r = Exc Exception s')
          /\ exists h, ledger_write w h = Cut)).

(** The listing of a handle and the request of a publication's page. *)
Definition is_lookup (e : event) : bool :=
  match e with EvListing _ | EvDocument _ => true | _ => false end.

(** From [s] to [s'] the ledger stays a file on which the look into it
    raises, and nothing is done but looking up. *)
Definition only_looked_up (s s' : state) : Prop :=
  ledger s = Malformed \/ ledger s = Unreadable ->
  ledger s' = ledger s
  /\ exists evs, trace s' = trace s ++ evs
                 /\ Forall (fun e => is_lookup e = true) evs.

(** The run [r] from [s], whose ledger has no list to append to, with the
    value [acc] built so far: the ledger stays as it is and no mail is sent;
    a run that returns returns [acc] and uploaded nothing; in a run that
    raises, an upload is the last event, and the only upload. *)
Definition nothing_kept {A} (acc : A) (s : state) (r : result A) : Prop :=
  ledger s = Hollow ->
  ledger (final_state r) = Hollow
  /\ exists evs,
       trace (final_state r) = trace s ++ evs
       /\ existsb is_email evs = false
       /\ match r with
          | Ret a _ => a = acc /\ existsb is_upload evs = false
          | Exc _ _ =>
              existsb is_upload evs = false
              \/ exists before p ok,
                   evs = before ++ [EvUpload p ok]
                   /\ existsb is_upload before = false
          end.

(** Three pages; page 2 cannot be downloaded at first; the futures complete
    in the order they were submitted. *)
Definition in_order_world : world :=
  sample_world [guide_url] (fun _ => publication "pub1" 3 "Guide")
    (fun h page_num =>
       negb (page_num =? 2) || (3 <=? length (filter is_image h))) []
    (fun _ => Some drive_link).

(** [fair_world] with another date of the publications. *)
Definition dated_world (date_text : string) : world :=
  sample_world [guide_url; atlas_url]
    (fun url =>
       if str_eqb url guide_url
       then publication_dated "pub1" 1 "Guide" date_text
       else publication_dated "pub2" 1 "Atlas" date_text)
    (fun _ _ => true) [] (fun _ => Some drive_link).

(** What [dated_world] gives for the reference [guide_url]. *)
Definition dated_descriptor (date_text : string) : doc_data := {|
  publication_id := JStr (str "pub1");
  page_count := JNum 1;
  title := JStr (str "Guide");
  revision_id := JStr (str "250301120000");
  originalPublishDateInISOString := JStr (str date_text)
|}.

(** [fair_world] with another fate of the ledger writes. *)
Definition written_world (write : write_result) : world := {|
  interrupted := interrupted fair_world;
  unicode := unicode fair_world;
  fstring := fstring fair_world;
  load_config := load_config fair_world;
  drive_service_ok := drive_service_ok fair_world;
  listing := listing fair_world;
  document := document fair_world;
  makedirs_ok := makedirs_ok fair_world;
  image_ok := image_ok fair_world;
  schedule := schedule fair_world;
  stale_files := stale_files fair_world;
  convert_ok := convert_ok fair_world;
  drive_upload := drive_upload fair_world;
  parse := parse fair_world;
  ledger_write := fun _ => write;
  now := now fair_world;
  smtp_ok := smtp_ok fair_world
|}.

(** The record of an earlier run, of another publication. *)
Definition earlier_record : processed_record := {|
  rec_publication_id := JStr (str "pub0");
  rec_metadata :=
    {| bk_title := JStr (str "Almanac");
       bk_handle := acme;
       bk_publish_date := str "2025-02-01";
       bk_page_count := JNum 1;
       bk_publication_id := JStr (str "pub0");
       bk_drive_link := drive_link |};
  rec_processed_at := str "2025-02-02T08:00:00"
|}.

End More.

Import More.

(** ** [IssuuScraper.get_publications]: the walk over the pages of a handle *)

Module Listing.

(** [needle in hay] on strings. *)
Fixpoint contains (needle hay : pystr) : bool :=
  startswith needle hay
  || match hay with
     | [] => false
     | _ :: hay' => contains needle hay'
     end.

(** [l[:n]] on lists. *)
Definition list_slice_to {A} (n : Z) (l : list A) : list A :=
  if (0 <=? n)%Z then firstn (Z.to_nat n) l
  else firstn (Z.to_nat (Z.of_nat (length l) + n)) l.

(** A publication card: the [href]s of its anchors that have one, in
    document order. *)
Definition card := list pystr.

Definition docs_of (handle : pystr) : pystr :=
  str "/" ++ handle ++ str "/docs/".

(** [lambda x: x and f'/{handle}/docs/' in x] *)
Definition is_publication_link (handle href : pystr) : bool :=
  match href with
  | [] => false
  | _ => contains (docs_of handle) href
  end.

(** [card.find('a', href=...)]: the first anchor that matches. *)
Definition find_link (handle : pystr) (c : card) : option pystr :=
  find (is_publication_link handle) c.

(** [not link['href'].endswith('/docs/') and 'http' not in link['href']] *)
Definition accepted (href : pystr) : bool :=
  negb (endswith (str "/docs/") href) && negb (contains (str "http") href).

(** The loop over the cards of one page; it is left when [num_publications]
    references are there. *)
Fixpoint scan_cards (handle : pystr) (num_publications : Z)
    (pub_cards : list card) (pub_urls : list pystr) : list pystr :=
  match pub_cards with
  | [] => pub_urls
  | c :: rest =>
      match find_link handle c with
      | Some href =>
          if accepted href then
            let full_url := str "https://issuu.com" ++ href in
            if existsb (str_eqb full_url) pub_urls
            then scan_cards handle num_publications rest pub_urls
            else
              let pub_urls' := pub_urls ++ [full_url] in
              if (num_publications <=? Z.of_nat (length pub_urls'))%Z
              then pub_urls'
              else scan_cards handle num_publications rest pub_urls'
          else scan_cards handle num_publications rest pub_urls
      | None => scan_cards handle num_publications rest pub_urls
      end
  end.

Definition page_url (handle : pystr) (page : nat) : pystr :=
  let base_url := str "https://issuu.com/" ++ handle in
  if page =? 1 then base_url
  else base_url ++ str "?page=" ++ uint_digits (Nat.to_uint page).

(** The site: what a request gives, after the requests made so far.  [None]
    is a request that raises, [Some] the cards found on the page. *)
Definition site := list pystr -> pystr -> option (list card).

(** The [while] loop, from [page] on.  [fuel] bounds the number of pages
    requested; [None] when it runs out.  The result is [pub_urls] at the
    end of the loop, with the requests made. *)
Fixpoint walk (fuel : nat) (fetch : site) (handle : pystr)
    (num_publications : Z) (pub_urls : list pystr) (page : nat)
    (requested : list pystr) : option (list pystr * list pystr) :=
  if (Z.of_nat (length pub_urls) <? num_publications)%Z then
    match fuel with
    | 0 => None
    | S fuel' =>
        let url := page_url handle page in
        match fetch requested url with
        | None => Some (pub_urls, requested ++ [url])
        | Some [] => Some (pub_urls, requested ++ [url])
        | Some pub_cards =>
            walk fuel' fetch handle num_publications
              (scan_cards handle num_publications pub_cards pub_urls)
              (S page) (requested ++ [url])
        end
    end
  else Some (pub_urls, requested).

Definition get_publications (fuel : nat) (fetch : site) (handle : pystr)
    (num_publications : Z) : option (list pystr * list pystr) :=
  match walk fuel fetch handle num_publications [] 1 [] with
  | Some (pub_urls, requested) =>
      Some (list_slice_to num_publications pub_urls, requested)
  | None => None
  end.

(** A reference as [get_publications] builds it. *)
Definition listed (handle url : pystr) : Prop :=
  exists href,
    url = str "https://issuu.com" ++ href
    /\ contains (docs_of handle) href = true
    /\ endswith (str "/docs/") href = false
    /\ contains (str "http") href = false.

(** A site of two pages of cards, then none. *)
Definition two_pages : site :=
  fun _ url =>
    if str_eqb url (str "https://issuu.com/acme") then
      Some [ [str "/acme"; str "/acme/docs/guide"];
             [str "/acme/docs/"];
             [str "/acme/docs/guide"];
             [str "https://issuu.com/acme/docs/atlas"] ]
    else if str_eqb url (str "https://issuu.com/acme?page=2") then
      Some [ [str "/acme/docs/atlas"]; [str "/acme/docs/annual"] ]
    else Some [].

(** A site that answers every request with the same page, of one
    publication. *)
Definition same_page : site :=
  fun _ _ => Some [ [str "/acme/followers"]; [str "/acme/docs/guide"] ].

End Listing.

Import Listing.

(** ** [issuu_scraper.py]: [main], the command line *)

Module Cli.

(** The references [main] builds from the [href]s of the anchors of the
    handle's page. *)
Definition references (handle : pystr) (hrefs : list pystr) : list pystr :=
  List.map (fun href => str "https://issuu.com" ++ href)
    (filter accepted (filter (is_publication_link handle) hrefs)).

Section WithWorld.

Variable w : world.

(** [list(set(l))]: the members of [l], in an order of the interpreter's
    choosing. *)
Variable set_order : list pystr -> list pystr.

(** [page] is what the request of the handle's page gives: the [href]s of
    its anchors, or [None] when the request raises. *)
Definition main (handle : pystr) (n : Z)
    (page : history -> option (list pystr)) : M unit :=
  try_except
    (hrefs <- io w page (fun _ => EvListing handle) ;;
     match hrefs with
     | None => raise
     | Some hrefs =>
         match set_order (references handle hrefs) with
         | [] => ret tt
         | pub_urls =>
             for_each (list_slice_to n pub_urls)
               (fun pub_url (_ : unit) =>
                  _ <- scrape_publication w handle pub_url ;; ret tt)
               tt
         end
     end)
    (ret tt).

End WithWorld.

(** One order a set may have: that of the list, each member at its last
    occurrence. *)
Fixpoint dedupe (l : list pystr) : list pystr :=
  match l with
  | [] => []
  | x :: l' => if existsb (str_eqb x) l' then dedupe l' else x :: dedupe l'
  end.

(** The anchors of a sample page of the handle [acme]. *)
Definition sample_hrefs : list pystr :=
  [ str "/acme/docs/guide"; str "/acme/followers"; str "/acme/docs/atlas";
    str "/acme/docs/guide"; str "/acme/docs/" ].

End Cli.

(** The publications whose page was requested, in order. *)
Definition documents_of (evs : history) : list pystr :=
  flat_map (fun e => match e with EvDocument url => [url] | _ => [] end) evs.
(** * Properties *)

(** ** Strings *)

Section StringFacts.

Lemma chr_eqb_eq (a b : char) : chr_eqb a b = true <-> a = b.
Proof. unfold chr_eqb. apply N.eqb_eq. Qed.

Lemma chr_eqb_refl (a : char) : chr_eqb a a = true.
Proof. apply chr_eqb_eq. reflexivity. Qed.

Lemma str_eqb_eq (a b : pystr) : str_eqb a b = true <-> a = b.
Proof.
  revert b. induction a as [|x a IH]; intros [|y b]; simpl;
    try (split; [discriminate | discriminate]); try tauto.
  rewrite andb_true_iff, chr_eqb_eq, IH. split.
  - intros [-> ->]. reflexivity.
  - intros H. inversion H. auto.
Qed.

Lemma In_firstn {A} (n : nat) (l : list A) (x : A) :
  In x (firstn n l) -> In x l.
Proof.
  intros H. rewrite <- (firstn_skipn n l). apply in_or_app. now left.
Qed.

Lemma In_skipn {A} (n : nat) (l : list A) (x : A) :
  In x (skipn n l) -> In x l.
Proof.
  intros H. rewrite <- (firstn_skipn n l). apply in_or_app. now right.
Qed.

Lemma dropwhile_suffix (f : char -> bool) (s : pystr) :
  exists t, s = t ++ dropwhile f s.
Proof.
  induction s as [|c s [t IH]]; simpl.
  - exists []. reflexivity.
  - destruct (f c).
    + exists (c :: t). simpl. now f_equal.
    + exists []. reflexivity.
Qed.

Lemma dropwhile_idem (f : char -> bool) (s : pystr) :
  dropwhile f (dropwhile f s) = dropwhile f s.
Proof.
  induction s as [|c s IH]; simpl; auto.
  destruct (f c) eqn:E; auto. simpl. now rewrite E.
Qed.

Lemma lstrip_suffix (cs s : pystr) : exists t, s = t ++ lstrip cs s.
Proof. apply dropwhile_suffix. Qed.

Lemma rstrip_prefix (cs s : pystr) : exists t, s = rstrip cs s ++ t.
Proof.
  unfold rstrip.
  destruct (dropwhile_suffix (fun c => existsb (chr_eqb c) cs) (rev s))
    as [t Ht].
  exists (rev t). rewrite <- rev_app_distr, <- Ht. now rewrite rev_involutive.
Qed.

Lemma strip_middle (cs s : pystr) :
  exists a b, s = a ++ strip cs s ++ b.
Proof.
  unfold strip.
  destruct (lstrip_suffix cs s) as [a Ha].
  destruct (rstrip_prefix cs (lstrip cs s)) as [b Hb].
  exists a, b. now rewrite <- Hb.
Qed.

Lemma In_strip (cs s : pystr) (c : char) : In c (strip cs s) -> In c s.
Proof.
  intros H. destruct (strip_middle cs s) as (a & b & E). rewrite E.
  apply in_or_app. right. apply in_or_app. now left.
Qed.

Lemma In_replace (old : char) (new s : pystr) (c : char) :
  In c (replace old new s) -> (In c s /\ c <> old) \/ In c new.
Proof.
  unfold replace. rewrite in_flat_map. intros (x & Hx & Hc).
  destruct (chr_eqb x old) eqn:E.
  - now right.
  - destruct Hc as [<-|[]]. left. split; auto.
    intros ->. now rewrite chr_eqb_refl in E.
Qed.

Lemma In_re_sub_runs (p : char -> bool) (r : char) (b : bool) (s : pystr)
    (c : char) :
  In c (re_sub_runs p r b s) -> In c s \/ c = r.
Proof.
  revert b. induction s as [|x s IH]; simpl; intros b H; [contradiction|].
  destruct (p x).
  - destruct b.
    + destruct (IH _ H); auto.
    + destruct H as [<-|H]; auto. destruct (IH _ H); auto.
  - destruct H as [<-|H]; auto. destruct (IH _ H); auto.
Qed.

Lemma rfind_from_bounds (c : char) (s : pystr) (i last : Z) :
  (-1 <= last < i)%Z ->
  (-1 <= rfind_from c s i last < i + Z.of_nat (length s))%Z.
Proof.
  revert i last. induction s as [|x s IH]; intros i last H; simpl length.
  - simpl. lia.
  - simpl rfind_from.
    assert (-1 <= (if chr_eqb x c then i else last) < i + 1)%Z
      by (destruct (chr_eqb x c); lia).
    specialize (IH (i + 1)%Z _ H0). lia.
Qed.

Lemma splitext_app (p name ext : pystr) :
  splitext p = (name, ext) -> p = name ++ ext.
Proof.
  unfold splitext.
  destruct (Z.ltb _ _);
    [destruct (existsb _ _)|]; intros H; inversion H; subst;
    now rewrite ?firstn_skipn, ?app_nil_r.
Qed.

Lemma dropwhile_head (f : char -> bool) (s : pystr) (c : char) (u : pystr) :
  dropwhile f s = c :: u -> f c = false.
Proof.
  induction s as [|x s IH]; simpl; [discriminate|].
  destruct (f x) eqn:E; auto. intros H. inversion H. now subst.
Qed.

Lemma strip_idem (cs s : pystr) : strip cs (strip cs s) = strip cs s.
Proof.
  unfold strip. set (t := lstrip cs s).
  assert (Hl : lstrip cs (rstrip cs t) = rstrip cs t).
  { destruct (rstrip_prefix cs t) as [b Hb].
    destruct (rstrip cs t) as [|c u] eqn:E; [reflexivity|].
    unfold lstrip. simpl.
    assert (Hc : existsb (chr_eqb c) cs = false).
    { apply (@dropwhile_head (fun c => existsb (chr_eqb c) cs) s c (u ++ b)).
      fold (lstrip cs s). fold t. now rewrite Hb. }
    now rewrite Hc. }
  rewrite Hl. unfold rstrip. rewrite rev_involutive, dropwhile_idem.
  reflexivity.
Qed.

Lemma re_sub_runs_single (p : char -> bool) (r : char) (b : bool) (s : pystr) :
  p r = true -> single_runs p r b (re_sub_runs p r b s) = true.
Proof.
  intros Hr. revert b. induction s as [|c s IH]; intros b; simpl; auto.
  destruct (p c) eqn:E.
  - destruct b; auto. simpl. now rewrite Hr, chr_eqb_refl, IH.
  - simpl. now rewrite E.
Qed.

Lemma single_runs_fixed (p : char -> bool) (r : char) (b : bool) (s : pystr) :
  single_runs p r b s = true -> re_sub_runs p r b s = s.
Proof.
  revert b. induction s as [|c s IH]; intros b; simpl; auto.
  destruct (p c).
  - rewrite !andb_true_iff. intros [[Hb Hc] Hs]. apply chr_eqb_eq in Hc.
    destruct b; [discriminate|]. subst. now rewrite IH.
  - intros H. now rewrite IH.
Qed.

(** Collapsing the runs of one class keeps the runs of a disjoint class
    single. *)
Lemma single_runs_other (p q : char -> bool) (r r' : char) (s : pystr) :
  (forall c, q c = true -> p c = false) -> p r' = false ->
  forall b b', (b' = true -> b = false) ->
  single_runs p r b s = true ->
  single_runs p r b (re_sub_runs q r' b' s) = true.
Proof.
  intros Hpq Hr'. induction s as [|c s IH]; intros b b' Hb; simpl; auto.
  destruct (q c) eqn:Eq.
  - rewrite (Hpq c Eq). intros H. destruct b'.
    + rewrite (Hb eq_refl). apply IH; auto.
    + simpl. rewrite Hr'. apply IH; auto.
  - simpl. destruct (p c).
    + rewrite !andb_true_iff. intros [H1 H2].
      split; [exact H1 | apply IH; [discriminate | exact H2]].
    + apply IH. auto.
Qed.

Lemma single_runs_weaken (p : char -> bool) (r : char) (b : bool) (s : pystr) :
  single_runs p r b s = true -> single_runs p r false s = true.
Proof.
  destruct s as [|c s]; simpl; auto. destruct (p c); auto.
  rewrite !andb_true_iff. tauto.
Qed.

Lemma single_runs_suffix (p : char -> bool) (r : char) (a s : pystr) (b : bool) :
  single_runs p r b (a ++ s) = true -> single_runs p r false s = true.
Proof.
  revert b. induction a as [|c a IH]; intros b; simpl.
  - apply single_runs_weaken.
  - destruct (p c).
    + rewrite !andb_true_iff. intros [_ H]. now apply IH in H.
    + apply IH.
Qed.

Lemma single_runs_prefix (p : char -> bool) (r : char) (s t : pystr) (b : bool) :
  single_runs p r b (s ++ t) = true -> single_runs p r b s = true.
Proof.
  revert b. induction s as [|c s IH]; intros b; simpl; auto.
  destruct (p c).
  - rewrite !andb_true_iff. intros [H1 H2].
    split; [exact H1 | now apply IH in H2].
  - apply IH.
Qed.

Lemma single_runs_strip (p : char -> bool) (r : char) (cs s : pystr) :
  single_runs p r false s = true -> single_runs p r false (strip cs s) = true.
Proof.
  destruct (strip_middle cs s) as (a & b & E). intros H. rewrite E in H.
  apply single_runs_suffix in H. now apply single_runs_prefix in H.
Qed.

Lemma filter_fixed {A} (f : A -> bool) (l : list A) :
  Forall (fun x => f x = true) l -> filter f l = l.
Proof.
  induction 1 as [|x l Hx _ IH]; simpl; auto. now rewrite Hx, IH.
Qed.

Lemma replace_fixed (old : char) (new s : pystr) :
  ~ In old s -> replace old new s = s.
Proof.
  unfold replace. induction s as [|c s IH]; simpl; auto. intros H.
  destruct (chr_eqb c old) eqn:E.
  - apply chr_eqb_eq in E. subst. tauto.
  - simpl. rewrite IH; auto.
Qed.

End StringFacts.

(** ** The sanitizer *)

Section SanitizerFacts.

Variable U : unicode_tables.

Lemma forbidden_In (c : char) :
  forbidden c = true <-> In c (List.map fst char_map).
Proof.
  unfold forbidden. rewrite existsb_exists. split.
  - intros (k & Hk & E). apply chr_eqb_eq in E. now subst.
  - intros H. exists c. split; auto. apply chr_eqb_refl.
Qed.

(** Sequential replacement leaves no key of the table behind, provided no
    replacement text contains a character of [keys]. *)
Lemma substitute_with_clears (keys : list char) (m : list (char * pystr))
    (s : pystr) :
  (forall kr c, In kr m -> In c (snd kr) -> ~ In c keys) ->
  incl (List.map fst m) keys ->
  forall c, In c (substitute_with m s) -> ~ In c (List.map fst m).
Proof.
  unfold substitute_with.
  induction m as [|[k r] m IH] using rev_ind; intros Hr Hk c Hc Hin.
  - contradiction.
  - rewrite fold_left_app in Hc. simpl in Hc.
    rewrite map_app in Hin, Hk. simpl in Hin, Hk.
    apply In_replace in Hc. destruct Hc as [[Hc Hne]|Hc].
    + apply in_app_or in Hin. destruct Hin as [Hin|[Hin|[]]].
      * revert Hin. apply IH; auto.
        -- intros kr c' H1 H2. apply (Hr kr c'); auto. apply in_or_app; auto.
        -- intros x Hx. apply Hk. apply in_or_app. auto.
      * simpl in Hin. congruence.
    + apply (Hr (k, r) c); auto.
      apply in_or_app. right. now left.
Qed.

Lemma char_map_replacements_clean :
  forall kr c, In kr char_map -> In c (snd kr) ->
               ~ In c (List.map fst char_map).
Proof.
  assert (H : forallb (fun kr => forallb (fun c => negb (forbidden c)) (snd kr))
                char_map = true) by (vm_compute; reflexivity).
  rewrite forallb_forall in H. intros kr c Hkr Hc Hin.
  specialize (H kr Hkr). rewrite forallb_forall in H. specialize (H c Hc).
  apply forbidden_In in Hin. rewrite Hin in H. discriminate.
Qed.

Lemma substitute_not_forbidden (s : pystr) :
  Forall (fun c => forbidden c = false) (substitute s).
Proof.
  apply Forall_forall. intros c Hc.
  destruct (forbidden c) eqn:E; [exfalso | reflexivity].
  apply forbidden_In in E.
  exact (@substitute_with_clears (List.map fst char_map) char_map s
           char_map_replacements_clean (@incl_refl _ _) c Hc E).
Qed.

(** Steps 3 to 7 only delete characters, or write a space, a hyphen or the
    fallback name. *)
Lemma Forall_replace (P : char -> Prop) (old : char) (new s : pystr) :
  Forall P new -> Forall P s -> Forall P (replace old new s).
Proof.
  rewrite !Forall_forall. intros Hn Hs c Hc.
  apply In_replace in Hc. destruct Hc as [[Hc _]|Hc]; auto.
Qed.

Lemma Forall_substitute_with (P : char -> Prop) (m : list (char * pystr))
    (s : pystr) :
  Forall (fun kr => Forall P (snd kr)) m -> Forall P s ->
  Forall P (substitute_with m s).
Proof.
  unfold substitute_with. revert s.
  induction m as [|[k r] m IH]; simpl; intros s Hm Hs; auto.
  inversion Hm; subst. apply IH; auto. apply Forall_replace; auto.
Qed.

Lemma Forall_collapse (P : char -> Prop) (s : pystr) :
  P 32%N -> P 45%N -> Forall P s -> Forall P (collapse U s).
Proof.
  intros Hsp Hd. rewrite !Forall_forall. intros Hs c Hc. unfold collapse in Hc.
  apply In_re_sub_runs in Hc. destruct Hc as [Hc| ->]; auto.
  apply In_re_sub_runs in Hc. destruct Hc as [Hc| ->]; auto.
Qed.

Lemma Forall_trim (P : char -> Prop) (s : pystr) :
  Forall P s -> Forall P (trim s).
Proof.
  rewrite !Forall_forall. intros Hs c Hc. apply Hs. revert Hc. apply In_strip.
Qed.

Lemma In_limit_length (s : pystr) (c : char) :
  In c (limit_length s) -> In c s.
Proof.
  unfold limit_length. destruct (255 <? length s); auto.
  destruct (splitext s) as [name ext] eqn:E. apply splitext_app in E.
  subst s. intros H. apply in_app_or in H. apply in_or_app.
  destruct H as [H|H]; auto. left. revert H. unfold slice_to.
  destruct (0 <=? _)%Z; apply In_firstn.
Qed.

Lemma Forall_limit_length (P : char -> Prop) (s : pystr) :
  Forall P s -> Forall P (limit_length s).
Proof.
  rewrite !Forall_forall. intros Hs c Hc. apply Hs. revert Hc.
  apply In_limit_length.
Qed.

Lemma Forall_fallback (P : char -> Prop) (s : pystr) :
  Forall P (str "unnamed_document") -> Forall P s -> Forall P (fallback s).
Proof. destruct s; simpl; auto. Qed.

Lemma Forall_sanitize (P : char -> Prop) (x : pystr) :
  P 32%N -> P 45%N -> Forall P (str "unnamed_document") ->
  Forall P (drop_unprintable U (substitute (strip_marks U x))) ->
  Forall P (sanitize_filename U x).
Proof.
  intros Hsp Hd Hf H. unfold sanitize_filename, cleaned.
  apply Forall_fallback; auto. apply Forall_limit_length, Forall_trim.
  apply Forall_collapse; auto.
Qed.

Lemma Forall_computed (f : char -> bool) (s : pystr) :
  forallb f s = true -> Forall (fun c => f c = true) s.
Proof. intros H. apply Forall_forall. now apply forallb_forall. Qed.

Lemma fallback_nonempty (s : pystr) : fallback s <> [].
Proof. destruct s; simpl; discriminate. Qed.

(** C6. For every input string and whatever the Unicode tables say beyond
    ASCII, [sanitize_filename] (a total function) returns a non-empty string
    that holds no character of the substitution table's keys and no
    non-printable character. *)
Theorem sanitize_filename_safe (x : pystr) :
  sanitize_filename U x <> []
  /\ Forall (fun c => forbidden c = false) (sanitize_filename U x)
  /\ Forall (fun c => isprintable U c = true) (sanitize_filename U x).
Proof.
  split; [apply fallback_nonempty|split].
  - apply Forall_sanitize; [reflexivity | reflexivity | |].
    + apply Forall_forall. intros c Hc.
      assert (H : forallb (fun c => negb (forbidden c))
                    (str "unnamed_document") = true)
        by (vm_compute; reflexivity).
      rewrite forallb_forall in H. specialize (H c Hc).
      now destruct (forbidden c).
    + unfold drop_unprintable. apply Forall_forall. intros c Hc.
      apply filter_In in Hc. destruct Hc as [Hc _].
      pose proof (substitute_not_forbidden (strip_marks U x)) as H.
      rewrite Forall_forall in H. exact (H c Hc).
  - apply Forall_sanitize; [reflexivity | reflexivity | |].
    + apply Forall_computed. vm_compute. reflexivity.
    + unfold drop_unprintable. apply Forall_forall. intros c Hc.
      apply filter_In in Hc. tauto.
Qed.

(** *** Normalization *)

Lemma ascii_stable (c : char) : is_ascii c = true -> stable U c.
Proof. unfold stable, decompose, combining. now intros ->. Qed.

Lemma In_reorder_insert (c d : char) (acc : pystr) :
  In d (reorder_insert U c acc) -> d = c \/ In d acc.
Proof.
  induction acc as [|a acc IH]; simpl.
  - intros [H|[]]; auto.
  - destruct (_ <? _)%N; simpl; intros [H|H]; auto.
    destruct (IH H); auto.
Qed.

Lemma In_canonical_order (d : char) (s : pystr) :
  In d (canonical_order U s) -> In d s.
Proof.
  unfold canonical_order. rewrite <- in_rev.
  assert (G : forall acc, In d (fold_left
              (fun acc c => if (combining U c =? 0)%N then c :: acc
                            else reorder_insert U c acc) s acc) ->
            In d s \/ In d acc).
  { induction s as [|c s IH]; simpl; intros acc H; auto.
    apply IH in H. destruct H as [H|H]; auto.
    destruct (_ =? _)%N.
    - destruct H as [H|H]; auto.
    - apply In_reorder_insert in H. destruct H as [H|H]; auto. }
  intros H. apply G in H. destruct H as [H|[]]. exact H.
Qed.

Lemma canonical_order_fixed (s : pystr) :
  Forall (fun c => combining U c = 0%N) s -> canonical_order U s = s.
Proof.
  unfold canonical_order. intros H.
  assert (G : forall acc, fold_left
              (fun acc c => if (combining U c =? 0)%N then c :: acc
                            else reorder_insert U c acc) s acc
            = rev s ++ acc).
  { induction H as [|c s Hc _ IH]; intros acc; simpl; auto.
    rewrite Hc. simpl. rewrite IH, <- app_assoc. reflexivity. }
  rewrite G, app_nil_r. apply rev_involutive.
Qed.

Lemma strip_marks_stable (x : pystr) :
  decomposition_closed U -> Forall (stable U) (strip_marks U x).
Proof.
  intros HU. apply Forall_forall. intros d Hd. unfold strip_marks in Hd.
  apply filter_In in Hd. destruct Hd as [Hd Hc]. apply N.eqb_eq in Hc.
  split; auto. apply In_canonical_order in Hd. apply in_flat_map in Hd.
  destruct Hd as (c & _ & Hd). exact (HU c d Hd).
Qed.

Lemma strip_marks_fixed (y : pystr) :
  Forall (stable U) y -> strip_marks U y = y.
Proof.
  intros H. unfold strip_marks, normalize_NFKD.
  assert (E : flat_map (decompose U) y = y).
  { induction H as [|c y [Hc _] _ IH]; simpl; auto. now rewrite Hc, IH. }
  assert (C : Forall (fun c => combining U c = 0%N) y).
  { revert H. apply Forall_impl. now intros c [_ Hc]. }
  rewrite E, canonical_order_fixed; auto. apply filter_fixed.
  revert C. apply Forall_impl. intros c Hc. now apply N.eqb_eq.
Qed.

Lemma substitute_with_fixed (m : list (char * pystr)) (y : pystr) :
  (forall c, In c y -> ~ In c (List.map fst m)) -> substitute_with m y = y.
Proof.
  unfold substitute_with. induction m as [|[k r] m IH]; simpl; intros H; auto.
  rewrite replace_fixed.
  - apply IH. intros c Hc Hin. apply (H c Hc). now right.
  - intros Hk. apply (H k Hk). now left.
Qed.

Lemma substitute_fixed (y : pystr) :
  Forall (fun c => forbidden c = false) y -> substitute y = y.
Proof.
  intros H. apply substitute_with_fixed. intros c Hc Hin.
  rewrite Forall_forall in H. apply forbidden_In in Hin.
  rewrite (H c Hc) in Hin. discriminate.
Qed.

Lemma char_map_replacements_ascii :
  Forall (fun kr => Forall (fun c => is_ascii c = true) (snd kr)) char_map.
Proof.
  assert (H : forallb (fun kr => forallb is_ascii (snd kr)) char_map = true)
    by (vm_compute; reflexivity).
  apply Forall_forall. intros kr Hkr. apply Forall_computed.
  rewrite forallb_forall in H. exact (H kr Hkr).
Qed.

Lemma is_dash_not_space (c : char) : is_dash c = true -> isspace U c = false.
Proof. intros H. apply chr_eqb_eq in H. subst. reflexivity. Qed.

(** What steps 1 to 5 establish. *)
Lemma cleaned_normal (x : pystr) :
  let y := cleaned U x in
  Forall (fun c => forbidden c = false) y
  /\ Forall (fun c => isprintable U c = true) y
  /\ single_runs (isspace U) 32%N false y = true
  /\ single_runs is_dash 45%N false y = true
  /\ trim y = y.
Proof.
  unfold cleaned. repeat split.
  - apply Forall_trim, Forall_collapse; try reflexivity.
    apply Forall_forall. intros c Hc. apply filter_In in Hc.
    destruct Hc as [Hc _].
    pose proof (substitute_not_forbidden (strip_marks U x)) as H.
    rewrite Forall_forall in H. exact (H c Hc).
  - apply Forall_trim, Forall_collapse; try reflexivity.
    apply Forall_forall. intros c Hc. apply filter_In in Hc. tauto.
  - apply single_runs_strip. unfold collapse.
    apply single_runs_other.
    + apply is_dash_not_space.
    + reflexivity.
    + discriminate.
    + now apply re_sub_runs_single.
  - apply single_runs_strip. unfold collapse. now apply re_sub_runs_single.
  - apply strip_idem.
Qed.

Lemma cleaned_stable (x : pystr) :
  decomposition_closed U -> Forall (stable U) (cleaned U x).
Proof.
  intros HU. unfold cleaned.
  apply Forall_trim, Forall_collapse; try (now apply ascii_stable).
  unfold drop_unprintable. apply Forall_forall. intros c Hc.
  apply filter_In in Hc. destruct Hc as [Hc _]. revert c Hc.
  apply Forall_forall. apply Forall_substitute_with.
  - generalize char_map_replacements_ascii. apply Forall_impl.
    intros kr. apply Forall_impl. apply ascii_stable.
  - now apply strip_marks_stable.
Qed.

Lemma cleaned_fixed (x : pystr) :
  decomposition_closed U -> cleaned U (cleaned U x) = cleaned U x.
Proof.
  intros HU. pose proof (cleaned_stable x HU) as Hs.
  destruct (cleaned_normal x) as (Hf & Hp & Hw & Hd & Ht).
  set (y := cleaned U x) in *. unfold cleaned at 1.
  rewrite (strip_marks_fixed Hs), (substitute_fixed Hf).
  unfold drop_unprintable. rewrite (filter_fixed _ Hp).
  unfold collapse. rewrite (single_runs_fixed _ _ _ _ Hw).
  rewrite (single_runs_fixed _ _ _ _ Hd). exact Ht.
Qed.

Lemma limit_length_short (s : pystr) :
  length s <= 255 -> limit_length s = s.
Proof.
  intros H. unfold limit_length.
  destruct (255 <? length s) eqn:E; auto. apply Nat.ltb_lt in E. lia.
Qed.

Lemma sanitize_fallback_fixed :
  sanitize_filename U (str "unnamed_document") = str "unnamed_document".
Proof. vm_compute. reflexivity. Qed.

(** C7, as the code has it.  When the decompositions of the Unicode table
    are full and steps 1 to 5 leave at most 255 characters (the length limit
    cuts nothing), sanitizing the result again gives the same name. *)
Theorem sanitize_filename_idempotent_when_uncut (x : pystr)
    (HU : decomposition_closed U) (Hlen : length (cleaned U x) <= 255) :
  sanitize_filename U (sanitize_filename U x) = sanitize_filename U x.
Proof.
  unfold sanitize_filename at 2 3. rewrite (limit_length_short _ Hlen).
  destruct (cleaned U x) as [|c y] eqn:E.
  - simpl fallback. apply sanitize_fallback_fixed.
  - simpl fallback. unfold sanitize_filename. rewrite <- E.
    rewrite (cleaned_fixed x HU), E, (limit_length_short _ Hlen).
    reflexivity.
Qed.

(** *** The length limit *)

Lemma slice_to_length (n : Z) (s : pystr) :
  (0 <= n)%Z -> length (slice_to n s) <= Z.to_nat n.
Proof.
  intros H. unfold slice_to. destruct (0 <=? n)%Z eqn:E.
  - apply firstn_le_length.
  - apply Z.leb_gt in E. lia.
Qed.

Lemma slice_to_firstn (n : Z) (s : pystr) :
  exists k, slice_to n s = firstn k s.
Proof. unfold slice_to. destruct (0 <=? n)%Z; eauto. Qed.

(** C8, as the code has it.  The limit is applied to the string steps 1 to 5
    produce, so after the substitution; it counts characters of the whole
    name, extension included; it keeps the extension [splitext] finds and
    cuts the part before it; and when that extension has at most 255
    characters the sanitized name has at most 255 characters. *)
Theorem limit_length_whole_name (x : pystr)
    (Hext : length (snd (splitext (cleaned U x))) <= 255) :
  sanitize_filename U x = fallback (limit_length (cleaned U x))
  /\ (exists k, limit_length (cleaned U x)
                = firstn k (fst (splitext (cleaned U x)))
                    ++ snd (splitext (cleaned U x)))
  /\ (length (cleaned U x) <= 255 -> limit_length (cleaned U x) = cleaned U x)
  /\ length (limit_length (cleaned U x)) <= 255
  /\ length (sanitize_filename U x) <= 255.
Proof.
  unfold sanitize_filename. generalize dependent (cleaned U x). intros y Hext.
  assert (Hcut : exists k, limit_length y
                           = firstn k (fst (splitext y)) ++ snd (splitext y)).
  { unfold limit_length. destruct (splitext y) as [name ext] eqn:E.
    cbn [fst snd]. destruct (255 <? length y).
    - destruct (slice_to_firstn (255 - Z.of_nat (length ext)) name) as [k Hk].
      exists k. now rewrite Hk.
    - exists (length name). rewrite firstn_all. now apply splitext_app. }
  assert (Hlim : length (limit_length y) <= 255).
  { unfold limit_length. destruct (255 <? length y) eqn:E.
    - destruct (splitext y) as [name ext]. cbn [snd] in Hext.
      rewrite length_app.
      pose proof (@slice_to_length (255 - Z.of_nat (length ext)) name).
      lia.
    - apply Nat.ltb_ge in E. exact E. }
  split; [reflexivity | split; [exact Hcut | split; [| split; [exact Hlim |]]]].
  - apply limit_length_short.
  - destruct (limit_length y); simpl in *; lia.
Qed.

End SanitizerFacts.

(** *** The sanitizer on concrete titles *)

Example sanitize_design_example :
  sanitize_filename sample_tables (str "Issuu: Guide #1 <Draft>")
  = str "Issuu- Guide No.1 (Draft)".
Proof. vm_compute. reflexivity. Qed.

Example sanitize_accents_example :
  sanitize_filename sample_tables [233; 160; 160; 65308; 45; 45; 32; 45]%N
  = str "e (".
Proof. vm_compute. reflexivity. Qed.

Lemma sample_tables_closed : decomposition_closed sample_tables.
Proof.
  intros c d H. unfold decompose in *. destruct (is_ascii c) eqn:A.
  - destruct H as [<-|[]]. now rewrite A.
  - cbn [decomposition sample_tables] in H.
    destruct (c =? 233)%N eqn:E1;
      [destruct H as [<-|[<-|[]]]; reflexivity|].
    destruct (c =? 232)%N eqn:E2;
      [destruct H as [<-|[<-|[]]]; reflexivity|].
    destruct (c =? 160)%N eqn:E3; [destruct H as [<-|[]]; reflexivity|].
    destruct (c =? 65308)%N eqn:E4; [destruct H as [<-|[]]; reflexivity|].
    destruct H as [<-|[]]. rewrite A. cbn [decomposition sample_tables].
    now rewrite E1, E2, E3, E4.
Qed.

Lemma sanitize_filename_idempotent_when_uncut_witness :
  decomposition_closed sample_tables
  /\ length (cleaned sample_tables (str "Issuu: Guide #1 <Draft>")) <= 255
  /\ sanitize_filename sample_tables
       (sanitize_filename sample_tables (str "Issuu: Guide #1 <Draft>"))
     = sanitize_filename sample_tables (str "Issuu: Guide #1 <Draft>").
Proof.
  assert (H : length (cleaned sample_tables (str "Issuu: Guide #1 <Draft>"))
              <= 255) by (vm_compute; lia).
  split; [exact sample_tables_closed | split; [exact H |]].
  exact (sanitize_filename_idempotent_when_uncut
           (str "Issuu: Guide #1 <Draft>") sample_tables_closed H).
Defined.

(** C7 fails on the code.  A title of 254 letters, a space and one more
    letter is cut to 255 characters, which leaves the space at the end; the
    second application strips it.  No choice of Unicode tables avoids it. *)
Lemma sanitize_filename_not_idempotent :
  ~ (exists U, sanitize_filename U (sanitize_filename U long_title)
               = sanitize_filename U long_title).
Proof.
  intros [U H]. apply (f_equal (@length char)) in H.
  vm_compute in H. discriminate H.
Qed.

Lemma limit_length_whole_name_witness :
  length (snd (splitext (cleaned sample_tables long_name_pdf))) <= 255
  /\ length (sanitize_filename sample_tables long_name_pdf) <= 255.
Proof.
  assert (H : length (snd (splitext (cleaned sample_tables long_name_pdf)))
              <= 255) by (vm_compute; lia).
  split; [exact H |].
  exact (proj2 (proj2 (proj2 (proj2
           (limit_length_whole_name sample_tables long_name_pdf H))))).
Defined.

(** C8 fails on the code.  A name of 254 letters before [.pdf] is within 255
    bytes and yet is cut, to 251 letters: the limit counts the extension
    too.  Two hundred sharp s are 400 bytes and are not cut: the limit counts
    characters. *)
Lemma limit_length_not_name_bytes :
  (byte_length (fst (splitext long_name_pdf)) = 254
   /\ limit_length long_name_pdf = repeat 97%N 251 ++ str ".pdf"
   /\ limit_name_bytes long_name_pdf = long_name_pdf
   /\ forall U, sanitize_filename U long_name_pdf
                = repeat 97%N 251 ++ str ".pdf")
  /\ (byte_length (fst (splitext sharp_s_title)) = 400
      /\ limit_length sharp_s_title = sharp_s_title
      /\ limit_name_bytes sharp_s_title = repeat 223%N 127).
Proof.
  repeat split; vm_compute; reflexivity.
Qed.

(** Where the extension alone is longer than 255 characters the slice bound
    is negative and the result is longer than the limit. *)
Example limit_length_long_extension :
  let name := repeat 97%N 300 ++ 46%N :: repeat 98%N 256 in
  length (limit_length name) = 555
  /\ length (fst (splitext (limit_length name))) = 298.
Proof. vm_compute. split; reflexivity. Qed.

(** ** The assembler: order of the page images *)

Section AssemblerFacts.

Lemma str_ltb_irrefl (a : pystr) : str_ltb a a = false.
Proof.
  induction a as [|x a IH]; simpl; auto. now rewrite N.ltb_irrefl.
Qed.

Lemma str_ltb_trans (a b c : pystr) :
  str_ltb a b = true -> str_ltb b c = true -> str_ltb a c = true.
Proof.
  revert b c. induction a as [|x a IH]; intros [|y b] [|z c]; simpl;
    try discriminate; auto.
  destruct (x <? y)%N eqn:Exy, (y <? x)%N eqn:Eyx,
           (y <? z)%N eqn:Eyz, (z <? y)%N eqn:Ezy,
           (x <? z)%N eqn:Exz, (z <? x)%N eqn:Ezx;
    try discriminate; auto;
    rewrite ?N.ltb_lt, ?N.ltb_ge in *; try lia.
  apply IH.
Qed.

Lemma str_ltb_asym (a b : pystr) :
  str_ltb a b = true -> str_ltb b a = false.
Proof.
  intros H. destruct (str_ltb b a) eqn:E; auto.
  pose proof (str_ltb_trans _ _ _ H E) as T.
  now rewrite str_ltb_irrefl in T.
Qed.

Lemma str_ltb_prefix (p a b : pystr) :
  str_ltb (p ++ a) (p ++ b) = str_ltb a b.
Proof.
  induction p as [|x p IH]; simpl; auto. now rewrite N.ltb_irrefl.
Qed.

(** The names of the pages 0 to 999, each below the next. *)
Lemma page_file_step (n : nat) :
  S n < 1000 -> str_ltb (page_file n) (page_file (S n)) = true.
Proof.
  assert (H : forallb (fun n => str_ltb (page_file n) (page_file (S n)))
                (seq 0 999) = true) by (vm_compute; reflexivity).
  rewrite forallb_forall in H. intros Hn. apply H. apply in_seq. lia.
Qed.

Lemma page_file_lt (n m : nat) :
  n < m -> m < 1000 -> str_ltb (page_file n) (page_file m) = true.
Proof.
  induction 1 as [|m Hle IH]; intros Hm.
  - now apply page_file_step.
  - apply str_ltb_trans with (page_file m).
    + apply IH. lia.
    + now apply page_file_step.
Qed.

Lemma page_file_leb (n m : nat) :
  n < 1000 -> m < 1000 ->
  str_leb (page_file n) (page_file m) = (n <=? m).
Proof.
  intros Hn Hm. unfold str_leb.
  destruct (Nat.lt_trichotomy n m) as [H|[H|H]].
  - rewrite (str_ltb_asym _ _ (page_file_lt H Hm)).
    symmetry. apply Nat.leb_le. lia.
  - subst. rewrite str_ltb_irrefl. symmetry. apply Nat.leb_le. lia.
  - rewrite (page_file_lt H Hn). symmetry. apply Nat.leb_gt. lia.
Qed.

Lemma page_file_jpg (n : nat) : endswith (str ".jpg") (page_file n) = true.
Proof.
  unfold endswith, page_file. rewrite !length_app.
  replace (length (str "page_") + (length (format_03d n) + length (str ".jpg"))
           - length (str ".jpg"))
    with (length (str "page_" ++ format_03d n)) by (rewrite length_app; lia).
  rewrite app_assoc, skipn_app, skipn_all, Nat.sub_diag. reflexivity.
Qed.

Lemma path_join_page_file (dir : pystr) :
  exists prefix, forall n, path_join dir (page_file n) = prefix ++ page_file n.
Proof.
  unfold path_join.
  assert (H : forall n, startswith [47%N] (page_file n) = false)
    by reflexivity.
  destruct dir as [|c dir].
  - exists []. intros n. now rewrite H.
  - destruct (endswith [47%N] (c :: dir)).
    + exists (c :: dir). intros n. now rewrite H.
    + exists ((c :: dir) ++ [47%N]). intros n.
      rewrite H, <- app_assoc. reflexivity.
Qed.

(** Sorting the names of pages below 1000 is sorting the page numbers. *)
Lemma insert_sorted_pages (prefix : pystr) (x : nat) (l : list nat) :
  x < 1000 -> Forall (fun n => n < 1000) l ->
  insert_sorted (prefix ++ page_file x)
    (List.map (fun n => prefix ++ page_file n) l)
  = List.map (fun n => prefix ++ page_file n) (insert_nat x l).
Proof.
  intros Hx. induction 1 as [|y l Hy _ IH]; simpl; auto.
  unfold str_leb at 1. rewrite str_ltb_prefix.
  fold (str_leb (page_file x) (page_file y)).
  rewrite page_file_leb by assumption.
  destruct (x <=? y); simpl; auto. now rewrite IH.
Qed.

Lemma Forall_insert_nat (P : nat -> Prop) (x : nat) (l : list nat) :
  P x -> Forall P l -> Forall P (insert_nat x l).
Proof.
  intros Hx. induction 1 as [|y l Hy Hl IH]; simpl; auto.
  destruct (x <=? y); auto.
Qed.

Lemma image_files_below_1000 (dir : pystr) (pages : list nat) :
  Forall (fun n => n < 1000) pages ->
  image_files_of dir (List.map page_file pages)
  = List.map (fun n => path_join dir (page_file n)) (sort_nat pages).
Proof.
  intros H. unfold image_files_of.
  rewrite filter_fixed
    by (apply Forall_forall; intros f Hf; apply in_map_iff in Hf;
        destruct Hf as (n & <- & _); apply page_file_jpg).
  rewrite map_map. destruct (path_join_page_file dir) as [prefix Hp].
  rewrite (map_ext _ _ Hp).
  rewrite (map_ext (fun n => path_join dir (page_file n)) _ Hp).
  unfold sorted, sort_nat.
  assert (G : Forall (fun n => n < 1000) (fold_right insert_nat [] pages)
              /\ fold_right insert_sorted []
                   (List.map (fun n => prefix ++ page_file n) pages)
                 = List.map (fun n => prefix ++ page_file n)
                     (fold_right insert_nat [] pages)).
  { induction H as [|x l Hx Hl [IH1 IH2]]; simpl; auto. split.
    - now apply Forall_insert_nat.
    - rewrite IH2. now apply insert_sorted_pages. }
  apply G.
Qed.

(** C9 on the code.  With the images of pages 999 and 1000 in the directory,
    [create_pdf] hands [page_1000.jpg] to img2pdf before [page_999.jpg]:
    three digits of zero padding order the names numerically only up to page
    999. *)
Theorem create_pdf_page_1000_before_999 :
  image_files_of (str "downloads/acme/pub1/images")
    [page_file 999; page_file 1000]
  = [str "downloads/acme/pub1/images/page_1000.jpg";
     str "downloads/acme/pub1/images/page_999.jpg"]
  /\ sort_nat [999; 1000] = [999; 1000].
Proof. vm_compute. split; reflexivity. Qed.

(** The order in which the images were written does not matter. *)
Example create_pdf_three_pages :
  image_files_of (str "d") [page_file 3; page_file 1; page_file 2]
  = [str "d/page_001.jpg"; str "d/page_002.jpg"; str "d/page_003.jpg"].
Proof. vm_compute. reflexivity. Qed.

End AssemblerFacts.

(** ** The page fetcher *)

Section FetcherFacts.

Variable w : world.

Lemma io_cases {A} (answer : history -> A) (ev : A -> event) (s : state) :
  (interrupted w (trace s) = true /\ io w answer ev s = Exc Interrupt s)
  \/ (interrupted w (trace s) = false
      /\ io w answer ev s
         = Ret (answer (trace s))
             {| trace := trace s ++ [ev (answer (trace s))];
                ledger := ledger s |}).
Proof. unfold io. destruct (interrupted w (trace s)); auto. Qed.

(** [as_completed] yields every future once. *)
Lemma completion_order_perm {A} (n : nat) (choices : list nat)
    (pending : list A) :
  length pending = n ->
  Permutation (completion_order n choices pending) pending.
Proof.
  revert choices pending. induction n as [|n IH]; intros choices pending Hn.
  - destruct pending; [constructor | discriminate].
  - cbn [completion_order]. set (k := hd 0 choices mod length pending).
    assert (Hk : k < length pending)
      by (apply Nat.mod_upper_bound; rewrite Hn; discriminate).
    destruct (nth_error pending k) as [f|] eqn:E.
    + apply nth_error_split in E. destruct E as (l1 & l2 & Hp & Hl).
      assert (Hrest : firstn k pending ++ skipn (S k) pending = l1 ++ l2).
      { rewrite Hp, <- Hl. rewrite firstn_app, Nat.sub_diag, firstn_all.
        cbn [firstn]. rewrite app_nil_r. f_equal.
        clear. induction l1 as [|a l1 IHl]; simpl; auto. }
      rewrite Hrest, Hp. apply Permutation_cons_app. apply IH.
      rewrite Hp, length_app in Hn. simpl in Hn. rewrite length_app. lia.
    + apply nth_error_None in E. lia.
Qed.

Lemma as_completed_perm {A} (choices : list nat) (futures : list A) :
  Permutation (as_completed choices futures) futures.
Proof. now apply completion_order_perm. Qed.

Lemma failure_indices_range (i : nat) (oks : list bool) (x : nat) :
  In x (failure_indices i oks) -> i <= x < i + length oks.
Proof.
  revert i. induction oks as [|ok oks IH]; simpl; intros i H; [contradiction|].
  destruct ok.
  - apply IH in H. lia.
  - destruct H as [<-|H]; [lia|]. apply IH in H. lia.
Qed.

Lemma failure_indices_NoDup (i : nat) (oks : list bool) :
  NoDup (failure_indices i oks).
Proof.
  revert i. induction oks as [|ok oks IH]; simpl; intros i; [constructor|].
  destruct ok; auto. constructor; auto.
  intros H. apply failure_indices_range in H. lia.
Qed.

Lemma failure_indices_length (i : nat) (oks : list bool) :
  length (failure_indices i oks) = length (filter negb oks).
Proof.
  revert i. induction oks as [|ok oks IH]; simpl; intros i; auto.
  destruct ok; simpl; auto.
Qed.

Lemma failure_indices_app (i : nat) (a b : list bool) :
  failure_indices i (a ++ b)
  = failure_indices i a ++ failure_indices (i + length a) b.
Proof.
  revert i. induction a as [|ok a IH]; simpl; intros i.
  - now rewrite Nat.add_0_r.
  - rewrite IH. replace (S i + length a) with (i + S (length a)) by lia.
    now destruct ok.
Qed.

(** The first pass: one download per future, in the order of completion;
    a success is counted, a failure appends the loop index. *)
Lemma first_pass_spec (doc_id revision_id : json) (dir : pystr)
    (completed : list nat) :
  forall (i : nat) (t : tally) (s : state),
  exists results,
    let r := first_pass w doc_id revision_id dir completed i t s in
    trace (final_state r)
    = trace s ++ List.map (image_event FirstPass dir) results
    /\ ledger (final_state r) = ledger s
    /\ match r with
       | Ret t' _ =>
           List.map fst results = completed
           /\ successful_downloads t'
              = successful_downloads t
                + length (filter (fun r => snd r) results)
           /\ failed_pages t'
              = failed_pages t
                ++ failure_indices i (List.map snd results)
       | Exc e _ =>
           e = Interrupt
           /\ exists k, List.map fst results = firstn k completed
       end.
Proof.
  induction completed as [|page_num rest IH]; intros i t s.
  - exists []. simpl. rewrite !app_nil_r. repeat split; auto.
  - cbn [first_pass]. unfold bind, download_page_image.
    match goal with
    | |- context [io w ?a ?e s] =>
        destruct (io_cases a e s) as [[_ E]|[_ E]]; rewrite E; clear E
    end.
    + exists []. simpl. rewrite app_nil_r. repeat split; auto.
      exists 0. reflexivity.
    + set (ok := image_ok w (trace s) doc_id revision_id page_num).
      match goal with
      | |- context [first_pass _ _ _ _ _ _ ?t1 ?s1] =>
          destruct (IH (S i) t1 s1) as (results & Ht & Hl & Hr);
          exists ((page_num, ok) :: results);
          cbv zeta in *;
          destruct (first_pass w doc_id revision_id dir rest (S i) t1 s1)
            as [t' s'|e s']
      end.
      * simpl in *. rewrite Ht, <- app_assoc. simpl.
        split; [reflexivity | split; [exact Hl |]].
        destruct Hr as (H1 & H2 & H3). rewrite H1, H2, H3.
        destruct ok; simpl; rewrite <- ?app_assoc; simpl;
          repeat split; auto; lia.
      * simpl in *. rewrite Ht, <- app_assoc. simpl.
        split; [reflexivity | split; [exact Hl |]].
        destruct Hr as (H1 & k & H2). split; auto.
        exists (S k). simpl. now rewrite H2.
Qed.

Lemma retry_pass_spec (doc_id revision_id : json) (dir : pystr)
    (pages : list nat) :
  forall (t : tally) (s : state),
  exists results,
    let r := retry_pass w doc_id revision_id dir pages t s in
    trace (final_state r)
    = trace s ++ List.map (image_event RetryPass dir) results
    /\ ledger (final_state r) = ledger s
    /\ match r with
       | Ret t' _ =>
           List.map fst results = pages
           /\ successful_downloads t'
              = successful_downloads t
                + length (filter (fun r => snd r) results)
       | Exc e _ =>
           e = Interrupt
           /\ exists k, List.map fst results = firstn k pages
       end.
Proof.
  induction pages as [|page_num rest IH]; intros t s.
  - exists []. simpl. rewrite !app_nil_r. repeat split; auto.
  - cbn [retry_pass]. unfold bind, download_page_image.
    match goal with
    | |- context [io w ?a ?e s] =>
        destruct (io_cases a e s) as [[_ E]|[_ E]]; rewrite E; clear E
    end.
    + exists []. simpl. rewrite app_nil_r. repeat split; auto.
      exists 0. reflexivity.
    + set (ok := image_ok w (trace s) doc_id revision_id page_num).
      match goal with
      | |- context [retry_pass _ _ _ _ _ ?t1 ?s1] =>
          destruct (IH t1 s1) as (results & Ht & Hl & Hr);
          exists ((page_num, ok) :: results);
          cbv zeta in *;
          destruct (retry_pass w doc_id revision_id dir rest t1 s1)
            as [t' s'|e s']
      end.
      * simpl in *. rewrite Ht, <- app_assoc. simpl.
        split; [reflexivity | split; [exact Hl |]].
        destruct Hr as (H1 & H2). rewrite H1, H2.
        destruct ok; simpl; split; auto; lia.
      * simpl in *. rewrite Ht, <- app_assoc. simpl.
        split; [reflexivity | split; [exact Hl |]].
        destruct Hr as (H1 & k & H2). split; auto.
        exists (S k). simpl. now rewrite H2.
Qed.

Lemma create_pdf_spec (image_folder output_pdf : pystr)
    (written : list pystr) (s : state) :
  exists post,
    let r := create_pdf w image_folder output_pdf written s in
    trace (final_state r) = trace s ++ post
    /\ ledger (final_state r) = ledger s
    /\ Forall (fun e => is_assembly e = true) post
    /\ match r with
       | Ret b _ => b = true -> existsb is_convert_ok post = true
       | Exc e _ => e = Interrupt
       end.
Proof.
  unfold create_pdf, try_except, bind.
  match goal with
  | |- context [io w ?a ?e s] =>
      destruct (io_cases a e s) as [[_ E]|[_ E]]; rewrite E; clear E
  end.
  - exists []. simpl. rewrite app_nil_r. repeat split; auto.
  - match goal with
    | |- context [image_files_of ?d ?l] => destruct (image_files_of d l) eqn:F
    end.
    + eexists [_]. simpl. repeat split; auto; try discriminate.
    + match goal with
      | |- context [io w ?a ?e ?s1] =>
          destruct (io_cases a e s1) as [[_ E]|[_ E]]; rewrite E; clear E
      end.
      * eexists [_]. simpl. repeat split; auto.
      * cbn [trace ledger].
        match goal with
        | |- context [convert_ok w ?h ?l] => destruct (convert_ok w h l)
        end.
        -- eexists [_; _]. simpl. rewrite <- app_assoc. simpl.
           repeat split; auto.
        -- eexists [_; _]. simpl. rewrite <- app_assoc. simpl.
           repeat split; auto; try discriminate.
Qed.

Lemma bind_io_cases {A B} (answer : history -> A) (ev : A -> event)
    (k : A -> M B) (s : state) :
  (interrupted w (trace s) = true
   /\ bind (io w answer ev) k s = Exc Interrupt s)
  \/ (interrupted w (trace s) = false
      /\ bind (io w answer ev) k s
         = k (answer (trace s))
             {| trace := trace s ++ [ev (answer (trace s))];
                ledger := ledger s |}).
Proof.
  unfold bind. destruct (io_cases answer ev s) as [[H E]|[H E]];
    rewrite E; auto.
Qed.

Lemma bind_bind {A B C} (m : M A) (f : A -> M B) (g : B -> M C) (s : state) :
  bind (bind m f) g s = bind m (fun x => bind (f x) g) s.
Proof. unfold bind. now destruct (m s). Qed.

Lemma bind_ret {A B} (a : A) (k : A -> M B) (s : state) :
  bind (ret a) k s = k a s.
Proof. reflexivity. Qed.

Lemma bind_ask {A B} (answer : history -> A) (k : A -> M B) (s : state) :
  bind (ask answer) k s = k (answer (trace s)) s.
Proof. reflexivity. Qed.

Lemma bind_raise {A B} (k : A -> M B) (s : state) :
  bind raise k s = Exc Exception s.
Proof. reflexivity. Qed.

Ltac step_io :=
  match goal with
  | |- context [bind (io w ?a ?e) ?k ?s] =>
      let E := fresh "E" in
      destruct (bind_io_cases a e k s) as [[_ E]|[_ E]]; rewrite E; clear E;
      cbv beta
  end.

(** A run that stops before the first download. *)
Lemma scrape_shape_setup (s : state) (pub_url : pystr) (r : result bool)
    (pre : history) :
  trace (final_state r) = trace s ++ pre ->
  ledger (final_state r) = ledger s ->
  Forall (fun e => is_setup e = true) pre ->
  match r with Ret b _ => b = false | Exc e _ => e = Interrupt end ->
  scrape_shape w s pub_url r.
Proof.
  intros Ht Hl Hp Hr. exists pre, [], [], [], []. cbv zeta. simpl.
  rewrite app_nil_r.
  split; [exact Ht|]. split; [exact Hl|]. split; [exact Hp|].
  split; [constructor|]. split; [exists 0; reflexivity|].
  split; [exists 0; reflexivity|]. split; [intros [H|H]; congruence|].
  destruct r; [subst; split; [reflexivity | discriminate] | exact Hr].
Qed.

(** [scrape_publication] runs as [scrape_shape] says. *)
Ltac early p :=
  apply scrape_shape_setup with (pre := p);
  [ cbn; rewrite ?app_nil_r, <- ?app_assoc; reflexivity
  | reflexivity
  | repeat constructor
  | reflexivity ].

Lemma as_completed_length {A} (choices : list nat) (futures : list A) :
  length (as_completed choices futures) = length futures.
Proof. apply Permutation_length, as_completed_perm. Qed.

Lemma scrape_publication_shape (handle pub_url : pystr) (s : state) :
  scrape_shape w s pub_url (scrape_publication w handle pub_url s).
Proof.
  unfold scrape_publication, try_except, get_document_data.
  rewrite bind_bind. step_io.
  - early (@nil event).
  - rewrite bind_ret.
    destruct (extract_document (document w (trace s) pub_url)) as [d|] eqn:Ed;
      [|early [EvDocument pub_url]].
    destruct (truthy (publication_id d)) eqn:Eid; cbn [negb];
      [|early [EvDocument pub_url]].
    destruct (title d) as [| | |original_title| |] eqn:Et;
      [early [EvDocument pub_url] | early [EvDocument pub_url]
      | early [EvDocument pub_url] | | early [EvDocument pub_url]
      | early [EvDocument pub_url]].
    generalize (sanitize_filename (unicode w) original_title).
    intros sanitized_title.
    set (dir := (str "downloads/" ++ handle ++ str "/"
                   ++ fstring w (publication_id d)) ++ str "/images").
    step_io; [early [EvDocument pub_url]|].
    cbn [trace ledger].
    destruct (makedirs_ok w (trace s ++ [EvDocument pub_url])); cbn [negb];
      [|early [EvDocument pub_url; EvMakedirs dir]].
    destruct (as_int (page_count d)) as [n|] eqn:En;
      [|early [EvDocument pub_url; EvMakedirs dir]].
    rewrite bind_ask. cbn [trace].
    set (pre := [EvDocument pub_url; EvMakedirs dir]).
    assert (Hpre : (trace s ++ [EvDocument pub_url]) ++ [EvMakedirs dir]
                   = trace s ++ pre)
      by (unfold pre; now rewrite <- app_assoc).
    rewrite Hpre.
    assert (HN : resolved_pages w s pub_url = Z.to_nat n)
      by (unfold resolved_pages; now rewrite Ed, En).
    assert (Hsetup : Forall (fun e => is_setup e = true) pre)
      by (repeat constructor).
    set (completed := as_completed (schedule w (trace s ++ pre))
                        (seq 1 (Z.to_nat n))).
    assert (Hlen : length completed = Z.to_nat n)
      by (unfold completed; now rewrite as_completed_length, length_seq).
    unfold bind at 1.
    match goal with
    | |- context [first_pass w ?a ?b ?c ?l ?i ?t ?s] =>
        destruct (first_pass_spec a b c l i t s) as (res1 & Ht1 & Hl1 & Hr1);
        cbv zeta in Ht1, Hl1, Hr1;
        destruct (first_pass w a b c l i t s) as [t1 s3|e s3]
    end; cbn [final_state trace ledger successful_downloads failed_pages]
           in Ht1, Hl1, Hr1.
    2:{ destruct Hr1 as [-> Hk].
        exists pre, res1, [], [], dir. cbv zeta. rewrite HN.
        cbn [final_state List.map]. rewrite !app_nil_r.
        split; [rewrite Ht1, <- app_assoc; reflexivity|].
        split; [exact Hl1|]. split; [exact Hsetup|]. split; [constructor|].
        split; [exact Hk|]. split; [exists 0; reflexivity|].
        split; [intros [H|H]; congruence | reflexivity]. }
    destruct Hr1 as (Hc & Hsucc & Hfail). cbn [app] in Hfail. simpl in Hsucc.
    assert (Hres1 : length res1 = Z.to_nat n)
      by (rewrite <- Hlen, <- Hc; now rewrite length_map).
    assert (Hk1 : exists k, List.map fst res1 = firstn k completed)
      by (exists (length completed); now rewrite firstn_all).
    destruct (successful_downloads t1 =? 0) eqn:Ez.
    { exists pre, res1, [], [], dir. cbv zeta. rewrite HN.
      cbn [final_state List.map ret]. rewrite !app_nil_r.
      split; [rewrite Ht1, <- app_assoc; reflexivity|].
      split; [exact Hl1|]. split; [exact Hsetup|]. split; [constructor|].
      split; [exact Hk1|]. split; [exists 0; reflexivity|].
      split; [intros [H|H]; congruence|].
      rewrite <- Hsucc, Ez. split; [reflexivity | discriminate]. }
    assert (Hsome : filter (fun r : nat * bool => snd r) res1 <> []).
    { apply Nat.eqb_neq in Ez. rewrite Hsucc in Ez.
      intros H. rewrite H in Ez. now apply Ez. }
    unfold bind at 1.
    match goal with
    | |- context [retry_pass w ?a ?b ?c ?l ?t ?s] =>
        destruct (retry_pass_spec a b c l t s) as (res2 & Ht2 & Hl2 & Hr2);
        cbv zeta in Ht2, Hl2, Hr2;
        destruct (retry_pass w a b c l t s) as [t2 s4|e s4]
    end; cbn [final_state trace ledger] in Ht2, Hl2, Hr2.
    2:{ destruct Hr2 as [-> Hk]. rewrite Hfail in Hk.
        exists pre, res1, res2, [], dir. cbv zeta. rewrite HN.
        cbn [final_state]. rewrite !app_nil_r.
        split; [rewrite Ht2, Ht1, <- !app_assoc; reflexivity|].
        split; [congruence|]. split; [exact Hsetup|]. split; [constructor|].
        split; [exact Hk1|]. split; [exact Hk|].
        split; [intros _; split; assumption | reflexivity]. }
    destruct Hr2 as (Hc2 & Hsucc2). rewrite Hfail in Hc2.
    assert (Hfinal : List.map fst res2
                     = (if length (filter (fun r : nat * bool => snd r) res1)
                           =? 0
                        then [] else failure_indices 1 (List.map snd res1))).
    { rewrite <- Hsucc, Ez. exact Hc2. }
    assert (Hk2 : exists k, List.map fst res2
                            = firstn k (failure_indices 1 (List.map snd res1)))
      by (exists (length (failure_indices 1 (List.map snd res1)));
          now rewrite firstn_all).
    destruct (0 <? successful_downloads t2).
    2:{ exists pre, res1, res2, [], dir. cbv zeta. rewrite HN.
        cbn [final_state ret]. rewrite !app_nil_r.
        split; [rewrite Ht2, Ht1, <- !app_assoc; reflexivity|].
        split; [congruence|]. split; [exact Hsetup|]. split; [constructor|].
        split; [exact Hk1|]. split; [exact Hk2|].
        split; [intros _; split; assumption|].
        split; [exact Hfinal | discriminate]. }
    match goal with
    | |- context [create_pdf w ?x1 ?x2 ?x3 ?s] =>
        destruct (create_pdf_spec x1 x2 x3 s)
          as (post & Ht3 & Hl3 & Hp3 & Hr3);
        cbv zeta in Ht3, Hl3, Hr3;
        destruct (create_pdf w x1 x2 x3 s) as [b s5|e s5]
    end; cbn [final_state trace ledger] in Ht3, Hl3, Hr3.
    + exists pre, res1, res2, post, dir. cbv zeta. rewrite HN.
      cbn [final_state].
      split; [rewrite Ht3, Ht2, Ht1, <- !app_assoc; reflexivity|].
      split; [congruence|]. split; [exact Hsetup|]. split; [exact Hp3|].
      split; [exact Hk1|]. split; [exact Hk2|].
      split; [intros _; split; assumption|].
      split; [exact Hfinal|]. intros Hb. split; [now apply Hr3 | reflexivity].
    + subst e. exists pre, res1, res2, post, dir. cbv zeta. rewrite HN.
      cbn [final_state].
      split; [rewrite Ht3, Ht2, Ht1, <- !app_assoc; reflexivity|].
      split; [congruence|]. split; [exact Hsetup|]. split; [exact Hp3|].
      split; [exact Hk1|]. split; [exact Hk2|].
      split; [intros _; split; assumption | reflexivity].
Qed.

(** *** Reading the trace of a run *)

Lemma new_events_app {A} (s : state) (r : result A) (evs : history) :
  trace (final_state r) = trace s ++ evs -> new_events s r = evs.
Proof.
  intros H. unfold new_events. rewrite H, skipn_app, skipn_all, Nat.sub_diag.
  reflexivity.
Qed.

Lemma image_results_app (p : pass) (a b : history) :
  image_results p (a ++ b) = image_results p a ++ image_results p b.
Proof. apply flat_map_app. Qed.

Lemma image_results_same (p : pass) (dir : pystr) (res : list (nat * bool)) :
  image_results p (List.map (image_event p dir) res) = res.
Proof.
  induction res as [|[n ok] res IH]; simpl; auto.
  destruct p; simpl; now rewrite IH.
Qed.

Lemma image_results_other (p q : pass) (dir : pystr)
    (res : list (nat * bool)) :
  pass_eqb p q = false ->
  image_results p (List.map (image_event q dir) res) = [].
Proof.
  intros H. induction res as [|[n ok] res IH]; simpl; auto. now rewrite H.
Qed.

Lemma image_results_none (p : pass) (evs : history) :
  Forall (fun e => is_image e = false) evs -> image_results p evs = [].
Proof.
  induction 1 as [|e evs He _ IH]; simpl; auto.
  destruct e; try discriminate; auto.
Qed.

Lemma setup_not_image (evs : history) :
  Forall (fun e => is_setup e = true) evs ->
  Forall (fun e => is_image e = false) evs.
Proof. apply Forall_impl. now intros []. Qed.

Lemma assembly_not_image (evs : history) :
  Forall (fun e => is_assembly e = true) evs ->
  Forall (fun e => is_image e = false) evs.
Proof. apply Forall_impl. now intros []. Qed.

Lemma passes_in_order_no_image (b : bool) (evs rest : history) :
  Forall (fun e => is_image e = false) evs ->
  passes_in_order b (evs ++ rest) = passes_in_order b rest.
Proof.
  induction 1 as [|e evs He _ IH]; simpl; auto.
  destruct e; try discriminate; auto.
Qed.

Lemma passes_in_order_first (dir : pystr) (res : list (nat * bool))
    (rest : history) :
  passes_in_order false (List.map (image_event FirstPass dir) res ++ rest)
  = passes_in_order false rest.
Proof. induction res as [|r res IH]; simpl; auto. Qed.

Lemma passes_in_order_retry (b : bool) (dir : pystr)
    (res : list (nat * bool)) (rest : history) :
  Forall (fun e => is_image e = false) rest ->
  passes_in_order b (List.map (image_event RetryPass dir) res ++ rest) = true.
Proof.
  intros H. revert b. induction res as [|r res IH]; intros b; simpl; auto.
  rewrite <- (app_nil_r rest), passes_in_order_no_image; auto.
Qed.

(** The two passes, read off a trace of the shape
    setup, first pass, retries, assembly. *)
Lemma shape_projections (pre post : history) (dir : pystr)
    (res1 res2 : list (nat * bool)) :
  Forall (fun e => is_setup e = true) pre ->
  Forall (fun e => is_assembly e = true) post ->
  let evs := pre ++ List.map (image_event FirstPass dir) res1
               ++ List.map (image_event RetryPass dir) res2 ++ post in
  image_results FirstPass evs = res1
  /\ image_results RetryPass evs = res2
  /\ passes_in_order false evs = true.
Proof.
  intros Hpre Hpost evs. unfold evs.
  apply setup_not_image in Hpre. apply assembly_not_image in Hpost.
  rewrite !image_results_app, !image_results_same.
  rewrite !(image_results_none _ Hpre), !(image_results_none _ Hpost).
  rewrite !image_results_other by reflexivity.
  rewrite app_nil_r. cbn [app].
  split; [reflexivity | split; [apply app_nil_r |]].
  rewrite passes_in_order_no_image, passes_in_order_first by assumption.
  now apply passes_in_order_retry.
Qed.

Lemma NoDup_firstn {A} (k : nat) (l : list A) : NoDup l -> NoDup (firstn k l).
Proof.
  intros H. rewrite <- (firstn_skipn k l) in H.
  now apply NoDup_app_remove_r in H.
Qed.

Lemma filter_negb_snd (res : list (nat * bool)) :
  length (filter negb (List.map snd res))
  = length (filter (fun r => negb (snd r)) res).
Proof.
  induction res as [|[n ok] res IH]; simpl; auto. destruct ok; simpl; auto.
Qed.

(** After the first pass every future is counted once: as a success, or
    by an entry of [failed_pages]. *)
Lemma first_pass_counts_add_up (doc_id revision_id : json) (dir : pystr)
    (completed : list nat) (s s' : state) (t : tally) :
  first_pass w doc_id revision_id dir completed 1
    {| successful_downloads := 0; failed_pages := []; saved := [] |} s
  = Ret t s' ->
  successful_downloads t + length (failed_pages t) = length completed.
Proof.
  intros E.
  destruct (first_pass_spec doc_id revision_id dir completed 1
              {| successful_downloads := 0; failed_pages := []; saved := [] |}
              s) as (results & _ & _ & Hr).
  cbv zeta in Hr. rewrite E in Hr. destruct Hr as (Hc & Hs & Hf).
  cbn in Hs, Hf. rewrite Hs, Hf, failure_indices_length, filter_negb_snd.
  rewrite <- Hc, length_map. clear.
  induction results as [|[n ok] results IH]; simpl; auto.
  destruct ok; simpl; lia.
Qed.

Lemma firstn_full {A} (k : nat) (l : list A) :
  length (firstn k l) = length l -> firstn k l = l.
Proof.
  intros H. rewrite length_firstn in H. apply firstn_all2. lia.
Qed.

(** C5, as the code has it.  In every run of [scrape_publication]: no
    first-pass download follows a retry; the retry pass starts only when all
    the futures of the first pass have completed and one of them succeeded;
    it makes at most one attempt per first-pass failure, and in a run that
    returns exactly one per failure (none when no first-pass download
    succeeded); no page number is asked for twice in the same pass, hence
    never more than twice in a run. *)
Theorem retry_pass_once_per_failure (handle pub_url : pystr) (s : state) :
  let r := scrape_publication w handle pub_url s in
  let evs := new_events s r in
  passes_in_order false evs = true
  /\ (pages_of RetryPass evs <> [] ->
      Permutation (pages_of FirstPass evs)
        (seq 1 (resolved_pages w s pub_url))
      /\ 0 < successes_of FirstPass evs)
  /\ length (pages_of RetryPass evs) <= failures_of FirstPass evs
  /\ (forall b s', r = Ret b s' ->
      length (pages_of RetryPass evs)
      = if successes_of FirstPass evs =? 0 then 0
        else failures_of FirstPass evs)
  /\ NoDup (pages_of FirstPass evs)
  /\ NoDup (pages_of RetryPass evs)
  /\ (forall n, count_occ Nat.eq_dec
                  (pages_of FirstPass evs ++ pages_of RetryPass evs) n <= 2).
Proof.
  intros r evs.
  destruct (scrape_publication_shape handle pub_url s)
    as (pre & res1 & res2 & post & dir & Ht & _ & Hpre & Hpost
        & [k1 Hk1] & [k2 Hk2] & Hdone & Hr).
  fold r in Ht, Hr. cbv zeta in Hk1, Hdone.
  apply new_events_app in Ht. fold evs in Ht.
  destruct (shape_projections dir res1 res2 Hpre Hpost) as (P1 & P2 & P3).
  rewrite <- Ht in P1, P2, P3.
  unfold pages_of, successes_of, failures_of. rewrite P1, P2.
  set (N := resolved_pages w s pub_url) in *.
  set (completed := as_completed (schedule w (trace s ++ pre)) (seq 1 N))
    in *.
  assert (Hperm : Permutation completed (seq 1 N))
    by apply as_completed_perm.
  assert (Hnd1 : NoDup (List.map fst res1)).
  { rewrite Hk1. apply NoDup_firstn.
    apply (Permutation_NoDup (Permutation_sym Hperm)), seq_NoDup. }
  assert (Hnd2 : NoDup (List.map fst res2)).
  { rewrite Hk2. apply NoDup_firstn, failure_indices_NoDup. }
  assert (Hfail : length (failure_indices 1 (List.map snd res1))
                  = length (filter (fun r => negb (snd r)) res1))
    by (rewrite failure_indices_length; apply filter_negb_snd).
  split; [exact P3|]. split; [|split; [|split; [|split; [|split]]]];
    auto.
  - intros Hne.
    assert (H2 : res2 <> []) by (intros ->; now apply Hne).
    destruct (Hdone (or_introl H2)) as [Hlen Hsome]. split.
    + rewrite Hk1, firstn_full; auto.
      rewrite <- Hk1, length_map, Hlen. symmetry.
      rewrite (Permutation_length Hperm). apply length_seq.
    + destruct (filter _ res1); [congruence | simpl; lia].
  - rewrite <- Hfail, Hk2, length_firstn. lia.
  - intros b s' Er. rewrite Er in Hr. destruct Hr as [Hr _].
    rewrite <- Hfail, Hr. now destruct (_ =? 0).
  - intros n. rewrite count_occ_app.
    pose proof (proj1 (NoDup_count_occ Nat.eq_dec _) Hnd1 n).
    pose proof (proj1 (NoDup_count_occ Nat.eq_dec _) Hnd2 n). lia.
Qed.

End FetcherFacts.

(** ** The worker *)

Section WorkerFacts.

Variable w : world.

Ltac step_io :=
  match goal with
  | |- context [bind (io w ?a ?e) ?k ?s] =>
      let E := fresh "E" in
      destruct (bind_io_cases w a e k s) as [[_ E]|[_ E]]; rewrite E; clear E;
      cbv beta
  end.

(** What [main] can rely on after a call of [scrape_publication]. *)
Lemma scrape_publication_extends (handle pub_url : pystr) (s : state) :
  let r := scrape_publication w handle pub_url s in
  let evs := new_events s r in
  trace (final_state r) = trace s ++ evs
  /\ ledger (final_state r) = ledger s
  /\ Forall (fun e => is_scrape_event e = true) evs
  /\ match r with
     | Ret true _ => scrape_done evs
     | Ret false _ => True
     | Exc e _ => e = Interrupt
     end.
Proof.
  intros r evs.
  destruct (scrape_publication_shape w handle pub_url s)
    as (pre & res1 & res2 & post & dir & Ht & Hl & Hpre & Hpost
        & _ & _ & Hdone & Hr).
  fold r in Ht, Hl, Hr. pose proof Ht as He. apply new_events_app in He.
  fold evs in He. rewrite <- He in Ht.
  destruct (shape_projections dir res1 res2 Hpre Hpost) as (P1 & _ & _).
  rewrite <- He in P1.
  split; [exact Ht | split; [exact Hl | split]].
  - rewrite He. repeat (apply Forall_app; split).
    + revert Hpre. apply Forall_impl. intros e H.
      unfold is_scrape_event. now rewrite H.
    + apply Forall_forall. intros e H. apply in_map_iff in H.
      now destruct H as (x & <- & _).
    + apply Forall_forall. intros e H. apply in_map_iff in H.
      now destruct H as (x & <- & _).
    + revert Hpost. apply Forall_impl. intros e H.
      unfold is_scrape_event. rewrite H. now rewrite !orb_true_r.
  - destruct r as [[|] s'|e s']; auto.
    destruct Hr as [_ Hb]. destruct (Hb eq_refl) as [Hc Hd].
    assert (Hp : post <> []) by (intros ->; discriminate).
    destruct (Hdone (or_intror Hp)) as [_ Hs].
    unfold scrape_done, successes_of. rewrite P1, He.
    rewrite !existsb_app, Hc, Hd, !orb_true_r. repeat split; auto.
    destruct (filter _ res1); [congruence | simpl; lia].
Qed.

(** [process_reference] runs as [reference_shape] says. *)
Lemma reference_shape_early (s : state) (handle pub_url : pystr)
    (new_books : list book_info) (r : result (list book_info))
    (evs : history) :
  trace (final_state r) = trace s ++ evs ->
  evs = [] \/ evs = [EvDocument pub_url] ->
  records_of (ledger (final_state r)) = records_of (ledger s) ->
  match r with Ret books _ => books = new_books | Exc _ _ => True end ->
  reference_shape w s handle pub_url new_books r.
Proof. intros Ht He Hl Hr. exists evs. split; auto. Qed.

Ltac stopped_early evs El :=
  apply reference_shape_early with evs;
  [ cbn; rewrite ?app_nil_r; reflexivity
  | auto
  | cbn; rewrite ?El; reflexivity
  | cbn; auto ].

Lemma load_ledger {A} (k : ledger_file -> M A)
    (t : history) (records : list processed_record) :
  bind (load_processed_publications w) k
    {| trace := t; ledger := Ledger records |}
  = k (Ledger records) {| trace := t; ledger := Ledger records |}.
Proof. reflexivity. Qed.

(** A look into the ledger: it answers, and a file that was missing or did
    not parse has been replaced; or it raises, and no record is lost. *)
Lemma lookup_runs (pub_id : json) (s0 : state) :
  match is_publication_processed w pub_id s0 with
  | Ret b s1 =>
      s1 = {| trace := trace s0; ledger := looked_up (ledger s0) |}
      /\ b = is_processed (records_of (ledger s0)) pub_id
      /\ (looked_up (ledger s0) = Ledger (records_of (ledger s0))
          \/ looked_up (ledger s0) = Hollow)
  | Exc e s1 =>
      e = Exception /\ trace s1 = trace s0
      /\ records_of (ledger s1) = records_of (ledger s0)
  end.
Proof.
  destruct s0 as [t l].
  unfold is_publication_processed, load_processed_publications.
  destruct l; cbv [bind write_ledger ret raise]; cbn [ledger trace];
    try destruct (ledger_write w t);
    cbn [ledger trace looked_up records_of is_processed existsb];
    repeat split; auto.
Qed.

(** The ledger write at the end of the loop body, with a list to append
    to. *)
Lemma save_runs (pub_id : json) (metadata : book_info) (t : history)
    (records : list processed_record) :
  let s3 := {| trace := t; ledger := Ledger records |} in
  let r := save_processed_publication w pub_id metadata s3 in
  (interrupted w t = true /\ r = Exc Interrupt s3)
  \/ (interrupted w t = false
      /\ match ledger_write w (t ++ [EvNow]) with
         | Written =>
             r = Ret tt
                   {| trace := t ++ [EvNow];
                      ledger :=
                        Ledger (records
                                  ++ [ {| rec_publication_id := pub_id;
                                          rec_metadata := metadata;
                                          rec_processed_at := now w t |} ])
                   |}
         | Refused =>
             r = Exc Exception
                   {| trace := t ++ [EvNow]; ledger := Ledger records |}
         | Cut =>
             r = Exc Exception
                   {| trace := t ++ [EvNow]; ledger := Unparseable |}
         end).
Proof.
  cbv zeta. unfold save_processed_publication.
  rewrite load_ledger.
  match goal with
  | |- context [bind (io w ?a ?e) ?k ?s] =>
      destruct (bind_io_cases w a e k s) as [[Hi E]|[Hi E]]; rewrite E;
      clear E; cbn [trace] in Hi
  end; [left; split; [exact Hi | reflexivity]|].
  right. split; [exact Hi|]. unfold write_ledger. cbn [trace ledger].
  destruct (ledger_write w (t ++ [EvNow])); reflexivity.
Qed.

Lemma save_hollow (pub_id : json) (metadata : book_info) (t : history) :
  save_processed_publication w pub_id metadata
    {| trace := t; ledger := Hollow |}
  = Exc Exception {| trace := t; ledger := Hollow |}.
Proof. reflexivity. Qed.

Lemma process_reference_shape (handle pub_url : pystr)
    (new_books : list book_info) (s : state) :
  reference_shape w s handle pub_url new_books
    (process_reference w handle pub_url new_books s).
Proof.
  unfold process_reference, get_document_data.
  rewrite bind_bind. step_io; [stopped_early (@nil event) I|].
  rewrite bind_ret.
  destruct (extract_document (document w (trace s) pub_url)) as [d|] eqn:Ed;
    [|stopped_early [EvDocument pub_url] I].
  unfold bind at 1.
  pose proof (lookup_runs (publication_id d)
                {| trace := trace s ++ [EvDocument pub_url];
                   ledger := ledger s |}) as Hlook.
  destruct (is_publication_processed w (publication_id d)
              {| trace := trace s ++ [EvDocument pub_url];
                 ledger := ledger s |}) as [processed s1|e s1].
  2:{ destruct Hlook as (_ & Ht & Hl).
      apply reference_shape_early with [EvDocument pub_url];
        [exact Ht | auto | exact Hl | exact I]. }
  destruct Hlook as (Hs1 & _ & Hlist). cbn [trace ledger] in Hs1, Hlist.
  fold (looked_up_at s pub_url) in Hs1. subst s1.
  assert (Hrec : records_of (ledger (looked_up_at s pub_url))
                 = records_of (ledger s)).
  { unfold looked_up_at. cbn [ledger]. destruct (ledger s); reflexivity. }
  set (s1 := looked_up_at s pub_url) in *.
  assert (Hquiet : forall r : result (list book_info),
             final_state r = s1 ->
             match r with
             | Ret books _ => books = new_books
             | Exc _ _ => True
             end ->
             reference_shape w s handle pub_url new_books r).
  { intros r Hr Hb. apply reference_shape_early with [EvDocument pub_url];
      [rewrite Hr; reflexivity | auto | rewrite Hr; exact Hrec | exact Hb]. }
  destruct processed; [apply Hquiet; reflexivity|].
  destruct (truthy (originalPublishDateInISOString d)); cbn [negb];
    [|apply Hquiet; reflexivity].
  destruct (originalPublishDateInISOString d) as [| | |date_text| |];
    try (apply Hquiet; [reflexivity | exact I]).
  destruct (parse w date_text) as [pub_date|];
    [|apply Hquiet; [reflexivity | exact I]].
  destruct (datetime_le pub_date CUTOFF_DATE) as [[|]|];
    [apply Hquiet; reflexivity | | apply Hquiet; [reflexivity | exact I]].
  destruct (scrape_publication_extends handle pub_url s1)
    as (Ht & Hl & _ & _).
  cbv zeta in Ht, Hl. unfold bind at 1.
  assert (Hs1 : forall evs, trace s1 ++ evs
                            = trace s ++ EvDocument pub_url :: evs)
    by (intros evs; unfold s1, looked_up_at; cbn [trace];
        now rewrite <- app_assoc).
  destruct (scrape_publication w handle pub_url s1) as [[|] s2|e s2] eqn:Ers;
    cbn [final_state] in Ht, Hl.
  - (* the PDF is there *)
    unfold upload_to_drive. rewrite bind_bind. step_io.
    { unfold reference_shape. cbv zeta. fold s1. rewrite Ers.
      eexists. split; [cbn [final_state]; rewrite Ht, Hs1; reflexivity|].
      right. left. split; [reflexivity|].
      split; [cbn [final_state]; now rewrite Hl|].
      eauto. }
    match goal with
    | |- context [drive_upload w ?h ?p] =>
        set (file_path := p); destruct (drive_upload w h file_path)
          as [web_link|]
    end.
    2:{ rewrite bind_raise. unfold reference_shape. cbv zeta. fold s1.
        rewrite Ers. eexists.
        split; [cbn [final_state trace]; rewrite Ht, <- app_assoc, Hs1;
                reflexivity|].
        right. right. left. exists file_path. eexists.
        split; [reflexivity|].
        split; [cbn [final_state ledger]; now rewrite Hl|].
        split; reflexivity. }
    rewrite bind_ret. unfold bind at 1.
    assert (Hl2 : ledger s2 = Ledger (records_of (ledger s))
                  \/ ledger s2 = Hollow).
    { rewrite Hl. unfold s1, looked_up_at. cbn [ledger]. exact Hlist. }
    destruct Hl2 as [El|El]; rewrite El.
    + match goal with
      | |- context [save_processed_publication w ?i ?m
                      {| trace := ?t; ledger := Ledger ?l |}] =>
          destruct (save_runs i m t l) as [[_ E]|[_ E]]; cbv zeta in E
      end.
      * rewrite E. unfold reference_shape. cbv zeta. fold s1. rewrite Ers.
        eexists.
        split; [cbn [final_state trace]; rewrite Ht, <- app_assoc, Hs1;
                reflexivity|].
        right. right. right. left. exists file_path. eexists. eexists.
        split; [reflexivity|]. split; [reflexivity|].
        split; reflexivity.
      * match type of E with
        | match ledger_write w ?h with _ => _ end =>
            destruct (ledger_write w h)
        end; rewrite E; unfold reference_shape; cbv zeta; fold s1;
          rewrite Ers; eexists;
          (split; [cbn [bind ret final_state trace];
                   rewrite Ht, <- !app_assoc, Hs1; reflexivity|]).
        -- right. right. right. right. right.
           exists file_path. eexists. eexists.
           split; [reflexivity|]. split; [reflexivity|].
           split; [unfold resolved_id; rewrite Ed; reflexivity|].
           split; reflexivity.
        -- right. right. right. right. left.
           exists file_path. eexists.
           split; [reflexivity|]. split; [left; reflexivity|].
           split; reflexivity.
        -- right. right. right. right. left.
           exists file_path. eexists.
           split; [reflexivity|]. split; [right; reflexivity|].
           split; reflexivity.
    + rewrite save_hollow. unfold reference_shape. cbv zeta. fold s1.
      rewrite Ers. eexists.
      split; [cbn [final_state trace]; rewrite Ht, <- app_assoc, Hs1;
              reflexivity|].
      right. right. right. left. exists file_path. eexists. eexists.
      split; [reflexivity|].
      split; [cbn [final_state ledger]; rewrite <- Hrec, <- Hl, El;
              reflexivity|].
      split; reflexivity.
  - (* no PDF *)
    unfold reference_shape. cbv zeta. fold s1. rewrite Ers. eexists.
    split; [cbn [ret final_state]; rewrite Ht, Hs1; reflexivity|].
    right. left. split; [reflexivity|].
    split; [cbn [ret final_state]; now rewrite Hl|].
    eauto.
  - unfold reference_shape. cbv zeta. fold s1. rewrite Ers. eexists.
    split; [cbn [final_state]; rewrite Ht, Hs1; reflexivity|].
    right. left. split; [reflexivity|].
    split; [cbn [final_state]; now rewrite Hl|].
    eauto.
Qed.

Lemma scrape_events_no_upload (evs : history) :
  Forall (fun e => is_scrape_event e = true) evs ->
  existsb is_upload evs = false.
Proof.
  induction 1 as [|e evs He _ IH]; simpl; auto. rewrite IH.
  destruct e; try discriminate; reflexivity.
Qed.

Lemma no_upload_no_upload_ok (evs : history) :
  existsb is_upload evs = false -> existsb is_upload_ok evs = false.
Proof.
  induction evs as [|e evs IH]; simpl; auto.
  destruct e; simpl; auto. discriminate.
Qed.

Lemma returned_true {A} (r : result A) (a : A) :
  returned r = Some a -> exists s', r = Ret a s'.
Proof. destruct r; simpl; intros H; inversion H. eauto. Qed.

Lemma successes_of_cons_other (p : pass) (e : event) (evs : history) :
  is_image e = false -> successes_of p (e :: evs) = successes_of p evs.
Proof. unfold successes_of. destruct e; simpl; auto; discriminate. Qed.

Lemma successes_of_app_other (p : pass) (evs tail : history) :
  Forall (fun e => is_image e = false) tail ->
  successes_of p (evs ++ tail) = successes_of p evs.
Proof.
  intros H. unfold successes_of.
  now rewrite image_results_app, (image_results_none _ H), app_nil_r.
Qed.

Ltac step_io_with Hi :=
  match goal with
  | |- context [bind (io w ?a ?e) ?k ?s] =>
      let E := fresh "E" in
      destruct (bind_io_cases w a e k s) as [[Hi E]|[Hi E]]; rewrite E;
      clear E; cbv beta
  end.

Lemma truthy_text (date_text : pystr) :
  truthy (JStr date_text) = true <-> date_text <> [].
Proof. destruct date_text; cbn; split; congruence. Qed.

(** The pipeline completed and the write goes through: the publication is
    recorded. *)
Lemma process_reference_completes (handle pub_url : pystr)
    (new_books : list book_info) (s : state) (d : doc_data)
    (pub_date : datetime) (s2 : state) (web_link : json) :
  pipeline_completed w s handle pub_url d pub_date s2 web_link ->
  ledger_write_done w s2 (upload_path w handle d) ->
  recorded w s handle pub_url new_books
    (process_reference w handle pub_url new_books s) d pub_date s2 web_link.
Proof.
  intros (Hi0 & Ed & Hlook & (date_text & Edate & Hne & Eparse) & Ele & Ers
          & Hi2 & Eup) (Hnh & Hi3 & Ew).
  pose proof (lookup_runs (publication_id d)
                {| trace := trace s ++ [EvDocument pub_url];
                   ledger := ledger s |}) as Hl0.
  rewrite Hlook in Hl0. destruct Hl0 as (_ & _ & Hlist).
  cbn [ledger] in Hlist.
  destruct (scrape_publication_extends handle pub_url
              (looked_up_at s pub_url)) as (Ht & Hl & _ & _).
  cbv zeta in Ht, Hl. rewrite Ers in Ht, Hl. cbn [final_state] in Ht, Hl.
  assert (El : ledger s2 = Ledger (records_of (ledger s))).
  { destruct Hlist as [E|E]; [now rewrite Hl|].
    elim Hnh. rewrite Hl. exact E. }
  apply truthy_text in Hne.
  set (record := {| rec_publication_id := publication_id d;
                    rec_metadata := book_of handle d pub_date web_link;
                    rec_processed_at :=
                      now w (trace s2
                               ++ [EvUpload (upload_path w handle d) true])
                 |}).
  assert (Hr : process_reference w handle pub_url new_books s
               = Ret (new_books ++ [rec_metadata record])
                   {| trace := trace s2
                                 ++ [EvUpload (upload_path w handle d) true;
                                     EvNow];
                      ledger := Ledger (records_of (ledger s) ++ [record])
                   |}).
  { unfold process_reference, get_document_data.
    rewrite bind_bind. step_io_with Hi; [congruence|].
    rewrite bind_ret, Ed. unfold bind at 1. rewrite Hlook, Edate, Hne.
    cbn [negb]. rewrite Eparse, Ele. unfold bind at 1. rewrite Ers.
    unfold upload_to_drive. rewrite bind_bind.
    fold (upload_path w handle d).
    step_io_with Hi'; [congruence|]. rewrite Eup, bind_ret.
    unfold bind at 1. rewrite El.
    match goal with
    | |- context [save_processed_publication w ?i ?m
                    {| trace := ?t; ledger := Ledger ?l |}] =>
        destruct (save_runs i m t l) as [[Hi3' E]|[_ E]]; cbv zeta in E
    end; [congruence|].
    rewrite <- app_assoc in E. cbn [app] in E. rewrite Ew in E. rewrite E.
    reflexivity. }
  unfold recorded. rewrite Hr. exists record. eexists.
  split; [reflexivity|]. split; [reflexivity|].
  split; [reflexivity|]. split; [reflexivity|].
  apply new_events_app. cbn [final_state trace].
  rewrite Ht. unfold looked_up_at. cbn [trace].
  rewrite <- !app_assoc. reflexivity.
Qed.

(** How a run of the loop body leaves the ledger. *)
Lemma process_reference_otherwise (handle pub_url : pystr)
    (new_books : list book_info) (s : state) :
  let r := process_reference w handle pub_url new_books s in
  (exists d pub_date s2 web_link,
     pipeline_completed w s handle pub_url d pub_date s2 web_link
     /\ ledger_write_done w s2 (upload_path w handle d))
  \/ (records_of (ledger (final_state r)) = records_of (ledger s)
      /\ forall books s', r = Ret books s' -> books = new_books)
  \/ (ledger (final_state r) = Unparseable
      /\ (exists s', r = Exc Exception s')
      /\ exists d pub_date s2 web_link,
           pipeline_completed w s handle pub_url d pub_date s2 web_link
           /\ ledger_write w
                (trace s2 ++ [EvUpload (upload_path w handle d) true; EvNow])
              = Cut).
Proof.
  intros r.
  assert (Hr : process_reference w handle pub_url new_books s = r)
    by reflexivity.
  clearbody r. revert Hr.
  assert (Hsame : forall r : result (list book_info),
             records_of (ledger (final_state r)) = records_of (ledger s) ->
             match r with
             | Ret books _ => books = new_books
             | Exc _ _ => True
             end ->
             records_of (ledger (final_state r)) = records_of (ledger s)
             /\ forall books s', r = Ret books s' -> books = new_books).
  { intros r' Hl Hb. split; [exact Hl|]. intros books s' E.
    rewrite E in Hb. exact Hb. }
  unfold process_reference, get_document_data.
  rewrite bind_bind. step_io_with Hi0;
    [intros <-; right; left; apply Hsame; [reflexivity | exact I]|].
  rewrite bind_ret.
  destruct (extract_document (document w (trace s) pub_url)) as [d|] eqn:Ed;
    [|intros <-; right; left; apply Hsame; reflexivity].
  unfold bind at 1.
  pose proof (lookup_runs (publication_id d)
                {| trace := trace s ++ [EvDocument pub_url];
                   ledger := ledger s |}) as Hlook.
  destruct (is_publication_processed w (publication_id d)
              {| trace := trace s ++ [EvDocument pub_url];
                 ledger := ledger s |}) as [processed s1|e s1] eqn:Elook.
  2:{ destruct Hlook as (_ & _ & Hl).
      intros <-; right; left; apply Hsame; [exact Hl | exact I]. }
  destruct Hlook as (Hs1 & _ & Hlist). cbn [trace ledger] in Hs1, Hlist.
  fold (looked_up_at s pub_url) in Hs1. subst s1.
  assert (Hrec : records_of (ledger (looked_up_at s pub_url))
                 = records_of (ledger s)).
  { unfold looked_up_at. cbn [ledger]. destruct (ledger s); reflexivity. }
  set (s1 := looked_up_at s pub_url) in *.
  destruct processed;
    [intros <-; right; left; apply Hsame; [exact Hrec | reflexivity]|].
  destruct (truthy (originalPublishDateInISOString d)) eqn:Etr; cbn [negb];
    [|intros <-; right; left; apply Hsame; [exact Hrec | reflexivity]].
  destruct (originalPublishDateInISOString d) as [| | |date_text| |] eqn:Edate;
    try (intros <-; right; left; apply Hsame; [exact Hrec | exact I]).
  destruct (parse w date_text) as [pub_date|] eqn:Eparse;
    [|intros <-; right; left; apply Hsame; [exact Hrec | exact I]].
  destruct (datetime_le pub_date CUTOFF_DATE) as [[|]|] eqn:Ele;
    [intros <-; right; left; apply Hsame; [exact Hrec | reflexivity]
    | | intros <-; right; left; apply Hsame; [exact Hrec | exact I]].
  destruct (scrape_publication_extends handle pub_url s1)
    as (Ht & Hl & _ & _).
  cbv zeta in Ht, Hl. unfold bind at 1.
  destruct (scrape_publication w handle pub_url s1) as [[|] s2|e s2] eqn:Ers;
    cbn [final_state] in Ht, Hl;
    [| intros <-; right; left;
       apply Hsame; [cbn [ret final_state]; congruence | reflexivity]
     | intros <-; right; left;
       apply Hsame; [cbn [final_state]; congruence | exact I]].
  unfold upload_to_drive. rewrite bind_bind.
  fold (upload_path w handle d).
  step_io_with Hi2;
    [intros <-; right; left;
     apply Hsame; [cbn [final_state]; congruence | exact I]|].
  destruct (drive_upload w (trace s2) (upload_path w handle d))
    as [web_link|] eqn:Eup.
  2:{ rewrite bind_raise. intros <-; right; left.
      apply Hsame; [cbn [final_state ledger]; congruence | exact I]. }
  assert (Hdone : pipeline_completed w s handle pub_url d pub_date s2
                    web_link).
  { split; [exact Hi0|]. split; [exact Ed|]. split; [exact Elook|].
    split; [exists date_text; split; [exact Edate|];
            split; [now apply truthy_text | exact Eparse]|].
    split; [exact Ele|]. split; [exact Ers|]. split; [exact Hi2 | exact Eup]. }
  rewrite bind_ret. unfold bind at 1.
  assert (Hl2 : ledger s2 = Ledger (records_of (ledger s))
                \/ ledger s2 = Hollow).
  { rewrite Hl. unfold s1, looked_up_at. cbn [ledger]. exact Hlist. }
  destruct Hl2 as [El|El]; rewrite El.
  - match goal with
    | |- context [save_processed_publication w ?i ?m
                    {| trace := ?t; ledger := Ledger ?l |}] =>
        destruct (save_runs i m t l) as [[_ E]|[Hi3 E]]; cbv zeta in E
    end.
    + rewrite E. intros <-; right; left.
      apply Hsame; [reflexivity | exact I].
    + rewrite <- app_assoc in E. cbn [app] in E.
      destruct (ledger_write w
                  (trace s2 ++ [EvUpload (upload_path w handle d) true;
                                EvNow])) eqn:Ew; rewrite E.
      * intros _. left. exists d, pub_date, s2, web_link.
        split; [exact Hdone|].
        split; [rewrite El; discriminate|]. split; assumption.
      * intros <-; right; left. apply Hsame; [reflexivity | exact I].
      * intros <-; right; right. split; [reflexivity|]. split; [eauto|].
        exists d, pub_date, s2, web_link. split; assumption.
  - rewrite save_hollow. intros <-; right; left.
    apply Hsame; [cbn [final_state ledger]; rewrite <- Hrec, <- Hl, El;
                  reflexivity | exact I].
Qed.


Lemma existsb_false_Forall {A} (f : A -> bool) (l : list A) :
  Forall (fun x => f x = false) l -> existsb f l = false.
Proof. induction 1 as [|x l Hx _ IH]; simpl; auto. now rewrite Hx, IH. Qed.

Lemma scrape_publication_zero_pages (handle pub_url : pystr) (s : state) :
  resolves_with_pages w pub_url 0 ->
  let r := scrape_publication w handle pub_url s in
  let evs := new_events s r in
  existsb is_image evs = false
  /\ existsb is_convert evs = false
  /\ match r with Ret b _ => b = false | Exc e _ => e = Interrupt end.
Proof.
  intros H0 r evs.
  destruct (scrape_publication_shape w handle pub_url s)
    as (pre & res1 & res2 & post & dir & Ht & _ & Hpre & Hpost
        & [k1 Hk1] & [k2 Hk2] & Hdone & Hr).
  fold r in Ht, Hr. cbv zeta in Hk1, Hdone.
  apply new_events_app in Ht. fold evs in Ht.
  assert (HN : resolved_pages w s pub_url = 0).
  { unfold resolved_pages. destruct (H0 (trace s)) as (d & -> & ->).
    reflexivity. }
  rewrite HN in *. cbn in Hk1. rewrite firstn_nil in Hk1.
  apply map_eq_nil in Hk1. subst res1. cbn in Hk2. rewrite firstn_nil in Hk2.
  apply map_eq_nil in Hk2. subst res2.
  assert (Hp : post = []).
  { destruct post; auto.
    destruct Hdone as [_ H]; [right; discriminate | now elim H]. }
  subst post. cbn in Ht. rewrite app_nil_r in Ht. rewrite Ht.
  split; [|split].
  - apply existsb_false_Forall. revert Hpre. apply Forall_impl.
    now intros [].
  - apply existsb_false_Forall. revert Hpre. apply Forall_impl.
    now intros [].
  - destruct r as [[|] s'|e s']; auto.
    destruct Hr as [_ Hb]. destruct (Hb eq_refl). discriminate.
Qed.

Lemma scrape_publication_zero_pages_returns (handle pub_url : pystr)
    (s : state) :
  (forall h, interrupted w h = false) ->
  resolves_with_pages w pub_url 0 ->
  exists s', scrape_publication w handle pub_url s = Ret false s'.
Proof.
  intros Hni H0.
  assert (Hio : forall {A B} (a : history -> A) (e : A -> event)
                  (k : A -> M B) (s0 : state),
             bind (io w a e) k s0
             = k (a (trace s0))
                 {| trace := trace s0 ++ [e (a (trace s0))];
                    ledger := ledger s0 |}).
  { intros A B a e k s0.
    destruct (bind_io_cases w a e k s0) as [[Hi _]|[_ E]]; [|exact E].
    rewrite Hni in Hi. discriminate. }
  unfold scrape_publication, try_except, get_document_data.
  rewrite bind_bind, Hio, bind_ret.
  destruct (H0 (trace s)) as (d & -> & Hn).
  destruct (truthy (publication_id d)); cbn [negb];
    [|cbv [raise ret]; eauto].
  destruct (title d); try (cbv [raise ret]; eauto).
  rewrite Hio. cbn [trace ledger].
  destruct (makedirs_ok w _); cbn [negb]; [|cbv [raise ret]; eauto].
  rewrite Hn. cbn. eauto.
Qed.

(** C10.  A publication that resolves with a page count of 0: no page is
    asked for in either pass, [create_pdf] is not reached, and
    [scrape_publication] returns [False] (it can only fail to return when
    the process is stopped, and returns [False] when it is not);
    the loop body of the worker then uploads nothing and leaves the records
    of the ledger as they were, so the publication is not listed as
    processed and takes the same path on the next run. *)
Theorem zero_pages_never_recorded (handle pub_url : pystr)
    (new_books : list book_info) (s : state)
    (H0 : resolves_with_pages w pub_url 0) :
  (let r := scrape_publication w handle pub_url s in
   let evs := new_events s r in
   existsb is_image evs = false
   /\ existsb is_convert evs = false
   /\ match r with Ret b _ => b = false | Exc e _ => e = Interrupt end
   /\ ((forall h, interrupted w h = false) -> exists s', r = Ret false s'))
  /\ (let r := process_reference w handle pub_url new_books s in
      let evs := new_events s r in
      existsb is_image evs = false
      /\ existsb is_convert evs = false
      /\ existsb is_upload evs = false
      /\ records_of (ledger (final_state r)) = records_of (ledger s)
      /\ match r with Ret books _ => books = new_books | Exc _ _ => True end).
Proof.
  split.
  { destruct (scrape_publication_zero_pages handle s H0) as (H1 & H2 & H3).
    repeat split; auto. intros Hni.
    now apply scrape_publication_zero_pages_returns. }
  intros r evs.
  destruct (process_reference_shape handle pub_url new_books s)
    as (evs' & Ht & Hcase).
  fold r in Ht, Hcase. cbv zeta in Hcase.
  pose proof Ht as He. apply new_events_app in He. fold evs in He.
  subst evs'. clear Ht.
  set (s1 := looked_up_at s pub_url) in *.
  destruct (scrape_publication_zero_pages handle s1 H0)
    as (Hi & Hc & Hb). cbv zeta in Hi, Hc, Hb.
  destruct (scrape_publication_extends handle pub_url s1)
    as (_ & _ & Hscr & _). cbv zeta in Hscr.
  apply scrape_events_no_upload in Hscr.
  set (rs := scrape_publication w handle pub_url s1) in *.
  set (evs_s := new_events s1 rs) in *.
  destruct Hcase as [(Hevs & Hl & Hr)
                    |[(Hevs & Hl & Hr)
                     |[(p & s' & _ & _ & Hrs & _)
                      |[(p & s' & e & _ & _ & Hrs & _)
                       |[(p & s' & _ & _ & Hrs & _)
                        |(p & s' & record & _ & _ & _ & Hrs & _)]]]]].
  - destruct Hevs as [-> | ->]; cbn; auto.
  - rewrite Hevs. cbn [existsb is_image is_convert is_upload orb].
    rewrite Hi, Hc, Hscr. repeat split; auto.
    destruct rs as [[|] ?|? ?]; try discriminate;
      destruct Hr as [s' ->]; auto.
  - destruct rs as [[|] ?|? ?]; discriminate.
  - destruct rs as [[|] ?|? ?]; discriminate.
  - destruct rs as [[|] ?|? ?]; discriminate.
  - destruct rs as [[|] ?|? ?]; discriminate.
Qed.

(** C4, as the code has it.  [scrape_publication] rejects a descriptor
    whose publication id is missing (or empty): it returns [False] after the
    request of the page, before any directory is made or page asked for. *)
Theorem missing_publication_id_not_fetched (handle pub_url : pystr)
    (s : state) (d : doc_data)
    (Hd : extract_document (document w (trace s) pub_url) = Some d)
    (Hid : truthy (publication_id d) = false) :
  let r := scrape_publication w handle pub_url s in
  r = Exc Interrupt s
  \/ r = Ret false {| trace := trace s ++ [EvDocument pub_url];
                      ledger := ledger s |}.
Proof.
  unfold scrape_publication, try_except, get_document_data.
  rewrite bind_bind. step_io; [now left|]. rewrite bind_ret, Hd, Hid.
  now right.
Qed.

(** *** The loops of [main] *)

Lemma upload_discipline_ret {A} (a : A) (s : state) :
  upload_discipline s (Ret a s).
Proof.
  exists []. cbn. rewrite !app_nil_r.
  split; [reflexivity|]. split; [reflexivity|]. split; [reflexivity|].
  exists []. rewrite app_nil_r. split; reflexivity.
Qed.

Lemma uploads_ok_app (a b : history) :
  uploads_ok (a ++ b) = uploads_ok a + uploads_ok b.
Proof. unfold uploads_ok. now rewrite filter_app, length_app. Qed.

Lemma upload_discipline_bind {A B} (m : M A) (k : A -> M B) (s : state) :
  upload_discipline s (m s) ->
  (forall a s1, m s = Ret a s1 -> upload_discipline s1 (k a s1)) ->
  upload_discipline s (bind m k s).
Proof.
  intros Hm Hk. unfold bind. destruct (m s) as [a s1|e s1] eqn:Em.
  - destruct Hm as (evs1 & Ht1 & He1 & Hf1 & add1 & Hl1 & Hn1).
    destruct (Hk a s1 eq_refl) as (evs2 & Ht2 & He2 & Hr2).
    cbn [final_state] in Ht1, Hl1.
    exists (evs1 ++ evs2).
    split; [rewrite Ht2, Ht1; now rewrite <- app_assoc|].
    split; [rewrite existsb_app, He1, He2; reflexivity|].
    destruct (k a s1) as [b s2|e s2].
    + destruct Hr2 as (Hf2 & add2 & Hl2 & Hn2).
      split; [rewrite existsb_app, Hf1, Hf2; reflexivity|].
      exists (add1 ++ add2).
      split; [rewrite Hl2, Hl1; now rewrite <- app_assoc|].
      rewrite length_app, uploads_ok_app. lia.
    + rewrite existsb_app, Hf1. cbn [orb]. intros Hf.
      destruct (Hr2 Hf) as (-> & (add2 & Hl2 & Hn2) & before & p & -> & Hb).
      split; [reflexivity|]. split.
      * exists (add1 ++ add2).
        split; [rewrite Hl2, Hl1; now rewrite <- app_assoc|].
        rewrite length_app, uploads_ok_app. lia.
      * exists (evs1 ++ before), p.
        split; [apply app_assoc|]. now rewrite existsb_app, Hf1, Hb.
  - exact Hm.
Qed.

Lemma upload_discipline_for_each {X A} (xs : list X) (body : X -> A -> M A) :
  (forall x acc s, upload_discipline s (body x acc s)) ->
  forall acc s, upload_discipline s (for_each xs body acc s).
Proof.
  intros Hbody. induction xs as [|x xs IH]; intros acc s.
  - apply upload_discipline_ret.
  - cbn [for_each]. apply upload_discipline_bind; auto.
Qed.

Lemma scrape_events_quiet (evs : history) :
  Forall (fun e => is_scrape_event e = true) evs ->
  existsb is_email evs = false
  /\ existsb is_upload_failed evs = false
  /\ uploads_ok evs = 0.
Proof.
  unfold uploads_ok.
  induction 1 as [|e evs He _ (IH1 & IH2 & IH3)]; cbn; auto.
  rewrite IH1, IH2. destruct e; try discriminate; cbn; auto.
Qed.

Lemma upload_discipline_no_failure {A} (s : state) (r : result A)
    (evs : history) (added : list processed_record) :
  trace (final_state r) = trace s ++ evs ->
  existsb is_email evs = false ->
  existsb is_upload_failed evs = false ->
  (is_ret r = true ->
   records_of (ledger (final_state r)) = records_of (ledger s) ++ added
   /\ length added = uploads_ok evs) ->
  upload_discipline s r.
Proof.
  intros Ht He Hf Hn. exists evs.
  split; [exact Ht | split; [exact He |]].
  destruct r; [|rewrite Hf; discriminate].
  split; [exact Hf|]. exists added. now apply Hn.
Qed.

Lemma upload_discipline_reference (handle pub_url : pystr)
    (new_books : list book_info) (s : state) :
  upload_discipline s (process_reference w handle pub_url new_books s).
Proof.
  destruct (process_reference_shape handle pub_url new_books s)
    as (evs & Ht & Hcase).
  cbv zeta in Hcase.
  set (r := process_reference w handle pub_url new_books s) in *.
  set (s1 := looked_up_at s pub_url) in *.
  destruct (scrape_publication_extends handle pub_url s1)
    as (_ & _ & Hscr & _). cbv zeta in Hscr.
  apply scrape_events_quiet in Hscr. destruct Hscr as (Q1 & Q2 & Q3).
  set (evs_s := new_events s1 (scrape_publication w handle pub_url s1)) in *.
  assert (Qd : forall f tail,
             f (EvDocument pub_url) = false ->
             existsb f evs_s = false ->
             existsb f (EvDocument pub_url :: evs_s ++ tail)
             = existsb f tail).
  { intros f tail H1 H2. cbn [existsb]. now rewrite H1, existsb_app, H2. }
  assert (Qn : forall tail,
             uploads_ok (EvDocument pub_url :: evs_s ++ tail)
             = uploads_ok tail).
  { intros tail.
    change (EvDocument pub_url :: evs_s ++ tail)
      with ([EvDocument pub_url] ++ evs_s ++ tail).
    now rewrite !uploads_ok_app, Q3. }
  destruct Hcase as [(Hevs & Hl & Hr)
                    |[(Hevs & Hl & Hr)
                     |[(p & s' & Hevs & Hl & Hrs & Hr)
                      |[(p & s' & e & Hevs & Hl & Hrs & Hr)
                       |[(p & s' & Hevs & Hl & Hrs & Hr)
                        |(p & s' & record & Hevs & Hl & Hid & Hrs & Hr)]]]]].
  - apply upload_discipline_no_failure with evs []; auto.
    + destruct Hevs as [-> | ->]; reflexivity.
    + destruct Hevs as [-> | ->]; reflexivity.
    + intros _. rewrite app_nil_r. split; [exact Hl|].
      destruct Hevs as [-> | ->]; reflexivity.
  - rewrite <- (app_nil_r evs_s) in Hevs.
    apply upload_discipline_no_failure with evs []; auto.
    + rewrite Hevs. now apply Qd.
    + rewrite Hevs. now apply Qd.
    + intros _. rewrite app_nil_r. split; [exact Hl|].
      rewrite Hevs, Qn. reflexivity.
  - exists evs. split; [exact Ht|]. rewrite Hevs, Hr.
    split; [now apply Qd|]. intros _. split; [reflexivity|]. split.
    + exists []. rewrite app_nil_r. split; [rewrite <- Hr; exact Hl|].
      now rewrite Qn.
    + exists (EvDocument pub_url :: evs_s), p. split; [reflexivity|].
      cbn [existsb is_upload_failed orb]. exact Q2.
  - apply upload_discipline_no_failure with evs []; auto.
    + rewrite Hevs. now apply Qd.
    + rewrite Hevs. now apply Qd.
    + rewrite Hr. discriminate.
  - apply upload_discipline_no_failure with evs []; auto.
    + rewrite Hevs. now apply Qd.
    + rewrite Hevs. now apply Qd.
    + rewrite Hr. discriminate.
  - apply upload_discipline_no_failure with evs [record].
    + exact Ht.
    + rewrite Hevs. now apply Qd.
    + rewrite Hevs. now apply Qd.
    + intros _. split; [now rewrite Hl|]. rewrite Hevs, Qn. reflexivity.
Qed.

Lemma upload_discipline_handle (handle : pystr) (new_books : list book_info)
    (s : state) :
  upload_discipline s (process_handle w handle new_books s).
Proof.
  unfold process_handle. apply upload_discipline_bind.
  - match goal with
    | |- context [io w ?a ?e s] => destruct (io_cases w a e s) as [[_ E]|[_ E]]
    end; rewrite E.
    + apply upload_discipline_no_failure with [] [];
        cbn; rewrite ?app_nil_r; auto; discriminate.
    + apply upload_discipline_no_failure with [EvListing handle] [];
        cbn; rewrite ?app_nil_r; auto.
  - intros publications s1 _. apply upload_discipline_for_each.
    intros x acc s2. apply upload_discipline_reference.
Qed.

Lemma failed_upload_found (file_path : pystr) (evs : history) :
  In (EvUpload file_path false) evs -> existsb is_upload_failed evs = true.
Proof.
  intros H. apply existsb_exists. exists (EvUpload file_path false).
  split; [exact H | reflexivity].
Qed.

Lemma new_events_self {A} (s : state) (e : exc) :
  new_events s (@Exc A e s) = [].
Proof. unfold new_events. cbn. apply skipn_all. Qed.

(** C3, as the code has it.  An upload that fails is the last thing a run of
    [main] does: the exception leaves the loops and [main], no later
    reference or handle is processed and no mail is sent.  The ledger holds
    one new record for each upload that succeeded before, and none for the
    publication whose upload failed. *)
Theorem upload_failure_stops_the_run (s : state) (file_path : pystr) :
  let r := main w s in
  let evs := new_events s r in
  In (EvUpload file_path false) evs ->
  (exists s', r = Exc Exception s')
  /\ (exists before,
        evs = before ++ [EvUpload file_path false]
        /\ existsb is_upload_failed before = false)
  /\ existsb is_email evs = false
  /\ length (records_of (ledger (final_state r)))
     = length (records_of (ledger s)) + uploads_ok evs.
Proof.
  intros r evs. assert (Hmain : r = main w s) by reflexivity.
  clearbody r. revert Hmain. unfold main, try_except.
  destruct (load_config w) as [config|];
    [|intros ->; unfold evs; cbv [raise]; rewrite new_events_self;
      contradiction].
  destruct (drive_service_ok w); cbn [negb];
    [|intros ->; unfold evs; cbv [raise]; rewrite new_events_self;
      contradiction].
  unfold bind at 1.
  pose proof (upload_discipline_for_each (issuu_handles config)
                (process_handle w) upload_discipline_handle [] s) as Hloop.
  destruct (for_each (issuu_handles config) (process_handle w) [] s)
    as [new_books s1|e s1].
  - destruct Hloop as (evs1 & Ht & He & Hf & _).
    cbn [final_state] in Ht.
    assert (Hno : ~ In (EvUpload file_path false) evs1).
    { intros H. apply failed_upload_found in H. congruence. }
    assert (Hev : forall tail (r : result unit),
               trace (final_state r) = trace s1 ++ tail ->
               new_events s r = evs1 ++ tail).
    { intros tail r' Hr. apply new_events_app. rewrite Hr, Ht.
      now rewrite <- app_assoc. }
    destruct new_books as [|book new_books].
    + intros ->. unfold evs.
      match goal with
      | |- In _ (new_events s ?r) -> _ =>
          rewrite (Hev [] r) by (cbn; now rewrite app_nil_r)
      end.
      rewrite app_nil_r. contradiction.
    + unfold send_email.
      match goal with
      | |- context [bind (io w ?a ?e) ?k s1] =>
          destruct (bind_io_cases w a e k s1) as [[_ E]|[_ E]]; rewrite E
      end.
      * intros ->. unfold evs.
        match goal with
        | |- In _ (new_events s ?r) -> _ =>
            rewrite (Hev [] r) by (cbn; now rewrite app_nil_r)
        end.
        rewrite app_nil_r. contradiction.
      * intros ->. unfold evs.
        match goal with
        | |- In _ (new_events s ?r) -> _ =>
            rewrite (Hev [EvEmail (book :: new_books) (smtp_ok w (trace s1))]
                       r)
              by (destruct (smtp_ok w (trace s1)); reflexivity)
        end.
        intros Hx. apply in_app_or in Hx. destruct Hx as [Hx|[Hx|[]]];
          [contradiction | discriminate].
  - destruct Hloop as (evs1 & Ht & He & Hr).
    cbn [final_state] in Ht.
    assert (Hev : forall e', new_events s (@Exc unit e' s1) = evs1)
      by (intros e'; now apply new_events_app).
    intros Hmain H.
    assert (H1 : In (EvUpload file_path false) evs1)
      by (unfold evs in H; rewrite Hmain in H; destruct e; cbv [raise] in H;
          rewrite Hev in H; exact H).
    destruct (Hr (failed_upload_found _ _ H1))
      as (-> & (added & Hl & Hn) & before & p & Hb & Hnb).
    cbn [final_state] in Hl.
    cbv [raise] in Hmain. unfold evs. rewrite Hmain. cbn [final_state].
    rewrite Hev.
    split; [eauto|]. split.
    + exists before. split; [|exact Hnb]. rewrite Hb in H1 |- *.
      apply in_app_or in H1. destruct H1 as [H1|[H1|[]]].
      * apply failed_upload_found in H1. congruence.
      * now inversion H1.
    + split; [exact He|]. rewrite Hl, length_app. lia.
Qed.

End WorkerFacts.

(** ** The sample worlds, run *)

(** C2 on the code.  Two pages; page 1 cannot be downloaded, page 2 can, and
    the future of page 2 completes first.  The failure is the second future
    yielded, so the loop appends the index 2 to [failed_pages]: the page
    recorded as failed is the one that succeeded.  The retry downloads page
    2 again and counts it a second time (2 successes and 1 failure for 2
    pages), page 1 is not asked for a second time, and the PDF is made of
    page 2 alone. *)
Theorem first_pass_records_loop_index :
  as_completed [1] [1; 2] = [2; 1]
  /\ first_pass swapped_world (JStr (str "pub1")) (JStr (str "250301120000"))
       pub1_images [2; 1] 1
       {| successful_downloads := 0; failed_pages := []; saved := [] |}
       initial
     = Ret {| successful_downloads := 1;
              failed_pages := [2];
              saved := [str "page_002.jpg"] |}
         {| trace :=
              [ EvImage FirstPass 2 (pub1_images ++ str "/page_002.jpg") true;
                EvImage FirstPass 1 (pub1_images ++ str "/page_001.jpg") false
              ];
            ledger := Ledger [] |}
  /\ returned
       (retry_pass swapped_world (JStr (str "pub1"))
          (JStr (str "250301120000")) pub1_images [2]
          {| successful_downloads := 1;
             failed_pages := [2];
             saved := [str "page_002.jpg"] |}
          initial)
     = Some {| successful_downloads := 2;
               failed_pages := [2];
               saved := [str "page_002.jpg"] |}
  /\ scrape_publication swapped_world acme guide_url initial
     = Ret true
         {| trace :=
              [ EvDocument guide_url;
                EvMakedirs pub1_images;
                EvImage FirstPass 2 (pub1_images ++ str "/page_002.jpg") true;
                EvImage FirstPass 1 (pub1_images ++ str "/page_001.jpg") false;
                EvImage RetryPass 2 (pub1_images ++ str "/page_002.jpg") true;
                EvListdir pub1_images;
                EvConvert [pub1_images ++ str "/page_002.jpg"]
                  (str "downloads/acme/pub1/Guide.pdf") true ];
            ledger := Ledger [] |}.
Proof. vm_compute. repeat split; reflexivity. Qed.

(** C5 fails on the code.  One page, whose download fails: no download
    succeeded in the first pass, [scrape_publication] returns [False] there,
    and the page that failed is not retried. *)
Lemma failed_page_not_retried_when_none_succeeded :
  image_results FirstPass
    (new_events initial
       (scrape_publication all_failed_world acme guide_url initial))
  = [(1, false)]
  /\ image_results RetryPass
       (new_events initial
          (scrape_publication all_failed_world acme guide_url initial))
     = []
  /\ returned (scrape_publication all_failed_world acme guide_url initial)
     = Some false.
Proof. vm_compute. repeat split; reflexivity. Qed.

Lemma no_pages_world_resolves :
  resolves_with_pages no_pages_world guide_url 0.
Proof. intros h. eexists. split; reflexivity. Qed.

Lemma zero_pages_never_recorded_witness :
  resolves_with_pages no_pages_world guide_url 0
  /\ existsb is_image
       (new_events initial
          (scrape_publication no_pages_world acme guide_url initial))
     = false
  /\ records_of
       (ledger (final_state
                  (process_reference no_pages_world acme guide_url []
                     initial)))
     = records_of (ledger initial).
Proof.
  split; [exact no_pages_world_resolves|].
  destruct (@zero_pages_never_recorded no_pages_world acme guide_url []
              initial no_pages_world_resolves)
    as [(H1 & _) (_ & _ & _ & H2 & _)].
  split; [exact H1 | exact H2].
Defined.


Example zero_pages_run :
  process_reference no_pages_world acme guide_url [] initial
  = Ret [] {| trace := [EvDocument guide_url; EvDocument guide_url;
                        EvMakedirs pub1_images];
              ledger := Ledger [] |}.
Proof. vm_compute. reflexivity. Qed.

(** C3 fails on the code.  Two references; the upload of the first fails.
    [main] ends with the exception: the second reference, which the same
    loop body would process and record, is never resolved. *)
Lemma upload_failure_ends_the_batch :
  main upload_fails_world initial
  = Exc Exception
      {| trace :=
           [ EvListing acme;
             EvDocument guide_url;
             EvDocument guide_url;
             EvMakedirs pub1_images;
             EvImage FirstPass 1 (pub1_images ++ str "/page_001.jpg") true;
             EvListdir pub1_images;
             EvConvert [pub1_images ++ str "/page_001.jpg"]
               (str "downloads/acme/pub1/Guide.pdf") true;
             EvUpload (str "downloads/acme/pub1/Guide.pdf") false ];
         ledger := Ledger [] |}
  /\ List.map rec_publication_id
       (records_of
          (ledger (final_state
                     (process_reference upload_fails_world acme atlas_url []
                        initial))))
     = [JStr (str "pub2")].
Proof. vm_compute. split; reflexivity. Qed.

Lemma upload_failure_stops_the_run_witness :
  In (EvUpload (str "downloads/acme/pub1/Guide.pdf") false)
    (new_events initial (main upload_fails_world initial))
  /\ (exists s', main upload_fails_world initial = Exc Exception s')
  /\ existsb is_email (new_events initial (main upload_fails_world initial))
     = false.
Proof.
  assert (H : In (EvUpload (str "downloads/acme/pub1/Guide.pdf") false)
                (new_events initial (main upload_fails_world initial)))
    by (vm_compute; repeat ((left; reflexivity) || right)).
  split; [exact H|].
  destruct (@upload_failure_stops_the_run upload_fails_world initial _ H)
    as (H1 & _ & H3 & _).
  split; [exact H1 | exact H3].
Defined.

(** In a world where all goes well both publications are recorded and one
    mail is sent. *)
Example fair_run :
  List.map rec_publication_id
    (records_of (ledger (final_state (main fair_world initial))))
  = [JStr (str "pub1"); JStr (str "pub2")]
  /\ existsb is_email (trace (final_state (main fair_world initial))) = true
  /\ is_ret (main fair_world initial) = true.
Proof. vm_compute. repeat split; reflexivity. Qed.

(** C4 fails on the code.  The resolver returns a descriptor for a page
    whose document object has neither a publication id nor a revision id. *)
Lemma resolver_accepts_missing_ids :
  returned (get_document_data anonymous_world guide_url initial)
  = Some (Some {| publication_id := JNull;
                  page_count := JNum 1;
                  title := JStr (str "Guide");
                  revision_id := JNull;
                  originalPublishDateInISOString := JNull |}).
Proof. vm_compute. reflexivity. Qed.

Lemma missing_publication_id_not_fetched_witness :
  extract_document (document anonymous_world (trace initial) guide_url)
  = Some {| publication_id := JNull;
            page_count := JNum 1;
            title := JStr (str "Guide");
            revision_id := JNull;
            originalPublishDateInISOString := JNull |}
  /\ truthy JNull = false
  /\ (scrape_publication anonymous_world acme guide_url initial
      = Exc Interrupt initial
      \/ scrape_publication anonymous_world acme guide_url initial
         = Ret false {| trace := trace initial ++ [EvDocument guide_url];
                        ledger := ledger initial |}).
Proof.
  split; [reflexivity | split; [reflexivity |]].
  exact (@missing_publication_id_not_fetched anonymous_world acme guide_url
           initial _ eq_refl eq_refl).
Defined.

(** A descriptor without a revision id is fetched all the same. *)
Example missing_revision_id_is_fetched :
  image_results FirstPass
    (trace (final_state
       (scrape_publication
          (sample_world [guide_url] (fun _ => unrevised_page)
             (fun _ _ => true) [] (fun _ => Some drive_link))
          acme guide_url initial)))
  = [(1, true)].
Proof. vm_compute. reflexivity. Qed.
(** * Further properties *)

(** ** The sanitizer *)

Section SanitizerMore.

Variable U : unicode_tables.

Lemma rfind_from_hit (c : char) (s : pystr) (i last : Z) :
  rfind_from c s i last = last
  \/ (i <= rfind_from c s i last)%Z
     /\ exists rest,
          skipn (Z.to_nat (rfind_from c s i last - i)) s = c :: rest.
Proof.
  revert i last. induction s as [|x s IH]; intros i last; simpl; auto.
  destruct (IH (i + 1)%Z (if chr_eqb x c then i else last))
    as [E|(Hle & rest & E)].
  - rewrite E. destruct (chr_eqb x c) eqn:Ex; auto.
    right. split; [lia|]. apply chr_eqb_eq in Ex. subst.
    rewrite Z.sub_diag. simpl. eauto.
  - right. split; [lia|]. exists rest.
    replace (Z.to_nat (rfind_from c s (i + 1)
                         (if chr_eqb x c then i else last) - i))
      with (S (Z.to_nat (rfind_from c s (i + 1)
                           (if chr_eqb x c then i else last) - (i + 1))))
      by lia.
    exact E.
Qed.

(** The extension [splitext] returns is empty or begins with a dot. *)
Lemma splitext_extension (p : pystr) :
  snd (splitext p) = [] \/ exists rest, snd (splitext p) = 46%N :: rest.
Proof.
  unfold splitext. destruct (Z.ltb _ _) eqn:E; [|now left].
  destruct (existsb _ _); [|now left]. right. cbn [snd].
  apply Z.ltb_lt in E.
  destruct (rfind_from_hit 46%N p 0 (-1)) as [H|(_ & rest & H)].
  - unfold rfind in E. rewrite H in E.
    pose proof (@rfind_from_bounds 47%N p 0 (-1)). lia.
  - exists rest. unfold rfind. now rewrite Z.sub_0_r in H.
Qed.

Lemma single_runs_join (p : char -> bool) (r c : char) (a rest : pystr)
    (b : bool) :
  p c = false ->
  single_runs p r b (a ++ c :: rest)
  = single_runs p r b a && single_runs p r false rest.
Proof.
  intros Hc. revert b. induction a as [|x a IH]; intros b; simpl.
  - now rewrite Hc.
  - destruct (p x); rewrite IH; [|reflexivity].
    now rewrite !andb_assoc.
Qed.

Lemma single_runs_limit_length (p : char -> bool) (r : char) (s : pystr) :
  p 46%N = false ->
  single_runs p r false s = true ->
  single_runs p r false (limit_length s) = true.
Proof.
  intros Hdot Hs. unfold limit_length. destruct (255 <? length s); auto.
  destruct (splitext s) as [name ext] eqn:E.
  pose proof (splitext_extension s) as Hext. rewrite E in Hext. cbn in Hext.
  apply splitext_app in E. subst s.
  destruct (slice_to_firstn (255 - Z.of_nat (length ext)) name) as [k ->].
  assert (Hn : single_runs p r false (firstn k name) = true).
  { apply single_runs_prefix in Hs.
    rewrite <- (firstn_skipn k name) in Hs.
    now apply single_runs_prefix in Hs. }
  destruct Hext as [-> | [rest ->]].
  - now rewrite app_nil_r.
  - rewrite single_runs_join in Hs |- * by assumption.
    apply andb_true_iff in Hs. now rewrite Hn, (proj2 Hs).
Qed.

(** Whatever the title, the name returned holds no two spaces in a row, no
    white space other than a single space, and no two hyphens in a row. *)
Theorem sanitize_filename_single_runs (x : pystr) :
  single_runs (isspace U) 32%N false (sanitize_filename U x) = true
  /\ single_runs is_dash 45%N false (sanitize_filename U x) = true.
Proof.
  destruct (cleaned_normal U x) as (_ & _ & Hw & Hd & _).
  unfold sanitize_filename. split.
  - apply (@single_runs_limit_length _ 32%N) in Hw; [|reflexivity].
    destruct (limit_length (cleaned U x)); [reflexivity | exact Hw].
  - apply (@single_runs_limit_length _ 45%N) in Hd; [|reflexivity].
    destruct (limit_length (cleaned U x)); [reflexivity | exact Hd].
Qed.

End SanitizerMore.
Section SanitizerMore2.

Variable U : unicode_tables.

(** A name the length limit does not cut begins and ends with neither a
    space nor a hyphen. *)
Theorem sanitize_filename_trimmed (x : pystr)
    (Hlen : length (cleaned U x) <= 255) :
  trim (sanitize_filename U x) = sanitize_filename U x.
Proof.
  unfold sanitize_filename. rewrite (limit_length_short _ Hlen).
  destruct (cleaned_normal U x) as (_ & _ & _ & _ & Ht).
  destruct (cleaned U x); [reflexivity | exact Ht].
Qed.

Lemma In_replace_source (old : char) (new s : pystr) (c : char) :
  In c (replace old new s) ->
  (In c s /\ c <> old) \/ (In old s /\ In c new).
Proof.
  unfold replace. rewrite in_flat_map. intros (x & Hx & Hc).
  destruct (chr_eqb x old) eqn:E.
  - apply chr_eqb_eq in E. subst. now right.
  - destruct Hc as [<-|[]]. left. split; auto.
    intros ->. now rewrite chr_eqb_refl in E.
Qed.

Lemma substitute_with_vanishing (m : list (char * pystr)) (s : pystr) :
  (forall kr, In kr m -> In (fst kr) vanishing ->
              Forall (fun c => In c vanishing) (snd kr)) ->
  Forall (fun c => In c vanishing) s ->
  Forall (fun c => In c vanishing) (substitute_with m s).
Proof.
  unfold substitute_with. revert s.
  induction m as [|[k r] m IH]; cbn [fold_left fst snd]; intros s Hm Hs;
    auto.
  apply IH; [intros kr Hkr; apply Hm; now right|].
  apply Forall_forall. intros c Hc. apply In_replace_source in Hc.
  rewrite Forall_forall in Hs.
  destruct Hc as [[Hc _]|[Hk Hc]]; [now apply Hs|].
  specialize (Hm (k, r) (or_introl eq_refl) (Hs k Hk)).
  rewrite Forall_forall in Hm. exact (Hm c Hc).
Qed.

Lemma char_map_vanishing :
  forall kr, In kr char_map -> In (fst kr) vanishing ->
             Forall (fun c => In c vanishing) (snd kr).
Proof.
  assert (H : forallb (fun kr =>
                negb (existsb (chr_eqb (fst kr)) vanishing)
                || forallb (fun c => existsb (chr_eqb c) vanishing) (snd kr))
                char_map = true) by (vm_compute; reflexivity).
  rewrite forallb_forall in H. intros kr Hkr Hk. specialize (H kr Hkr).
  cbv beta in H.
  assert (Hin : existsb (chr_eqb (fst kr)) vanishing = true).
  { apply existsb_exists. exists (fst kr). split; auto. apply chr_eqb_refl. }
  apply orb_true_iff in H. destruct H as [H|H].
  { apply negb_true_iff in H.
    pose proof (eq_trans (eq_sym Hin) H). discriminate. }
  apply Forall_forall. intros c Hc. rewrite forallb_forall in H. specialize (H c Hc).
  apply existsb_exists in H. destruct H as (v & Hv & E).
  apply chr_eqb_eq in E. now subst.
Qed.

Lemma dropwhile_all (f : char -> bool) (s : pystr) :
  Forall (fun c => f c = true) s -> dropwhile f s = [].
Proof. induction 1 as [|c s Hc _ IH]; simpl; auto. now rewrite Hc. Qed.

(** A title made only of spaces, hyphens and characters that become a hyphen
    or nothing (the empty title among them) gets the fixed fallback name. *)
Theorem sanitize_filename_fallback (x : pystr)
    (Hx : Forall (fun c => In c vanishing) x) :
  sanitize_filename U x = str "unnamed_document".
Proof.
  assert (Ha : Forall (fun c => is_ascii c = true) x).
  { revert Hx. apply Forall_impl. intros c Hc.
    assert (H : forallb is_ascii vanishing = true) by reflexivity.
    rewrite forallb_forall in H. auto. }
  assert (Hs : strip_marks U x = x).
  { apply strip_marks_fixed. revert Ha. apply Forall_impl.
    apply ascii_stable. }
  assert (Hv : Forall (fun c => c = 32%N \/ c = 45%N)
                 (substitute (strip_marks U x))).
  { rewrite Hs. apply Forall_forall. intros c Hc.
    pose proof (substitute_not_forbidden x) as Hf.
    pose proof (substitute_with_vanishing char_map char_map_vanishing Hx)
      as Hin.
    rewrite Forall_forall in Hf, Hin. specialize (Hf c Hc).
    specialize (Hin c Hc). clear Hc. unfold vanishing in Hin.
    cbn [In] in Hin.
    destruct Hin as [<-|[<-|Hin]]; [left; reflexivity | right; reflexivity |].
    repeat (destruct Hin as [<-|Hin]; [vm_compute in Hf; discriminate Hf|]).
    contradiction. }
  assert (Hc : Forall (fun c => c = 32%N \/ c = 45%N)
                 (collapse U (drop_unprintable U
                                (substitute (strip_marks U x))))).
  { apply Forall_collapse; [now left | now right |].
    unfold drop_unprintable.
    apply Forall_forall. intros c Hc. apply filter_In in Hc.
    rewrite Forall_forall in Hv. exact (Hv c (proj1 Hc)). }
  unfold sanitize_filename, cleaned, trim, strip.
  assert (Hl : lstrip (str " -")
                 (collapse U (drop_unprintable U
                                (substitute (strip_marks U x)))) = []).
  { apply dropwhile_all. revert Hc. apply Forall_impl.
    intros c [-> | ->]; reflexivity. }
  rewrite Hl. reflexivity.
Qed.

(** A name that is already clean is returned as it is: characters that
    normalization leaves in place, none of them a key of the table or
    unprintable, single spaces and hyphens only, none at either end, and
    between 1 and 255 characters. *)
Theorem sanitize_filename_fixed (x : pystr)
    (Hstable : Forall (stable U) x)
    (Hkeys : Forall (fun c => forbidden c = false) x)
    (Hprint : Forall (fun c => isprintable U c = true) x)
    (Hspace : single_runs (isspace U) 32%N false x = true)
    (Hdash : single_runs is_dash 45%N false x = true)
    (Htrim : trim x = x)
    (Hlen : 0 < length x <= 255) :
  sanitize_filename U x = x.
Proof.
  assert (Hc : cleaned U x = x).
  { unfold cleaned. rewrite (strip_marks_fixed Hstable).
    rewrite (substitute_fixed Hkeys). unfold drop_unprintable.
    rewrite (filter_fixed _ Hprint). unfold collapse.
    rewrite (single_runs_fixed _ _ _ _ Hspace).
    rewrite (single_runs_fixed _ _ _ _ Hdash). exact Htrim. }
  unfold sanitize_filename. rewrite Hc, limit_length_short by lia.
  destruct x; [simpl in Hlen; lia | reflexivity].
Qed.

End SanitizerMore2.
Lemma Forall_In_computed (l s : pystr) :
  forallb (fun c => existsb (chr_eqb c) l) s = true ->
  Forall (fun c => In c l) s.
Proof.
  intros H. apply Forall_forall. intros c Hc.
  rewrite forallb_forall in H. specialize (H c Hc).
  apply existsb_exists in H. destruct H as (v & Hv & E).
  apply chr_eqb_eq in E. now subst.
Qed.

Lemma ascii_all_stable (U : unicode_tables) (s : pystr) :
  forallb is_ascii s = true -> Forall (stable U) s.
Proof.
  intros H. apply Forall_computed in H. revert H. apply Forall_impl.
  apply ascii_stable.
Qed.

Lemma Forall_computed_false (f : char -> bool) (s : pystr) :
  forallb (fun c => negb (f c)) s = true -> Forall (fun c => f c = false) s.
Proof.
  intros H. apply Forall_forall. intros c Hc.
  rewrite forallb_forall in H. specialize (H c Hc). now destruct (f c).
Qed.

Lemma sanitize_filename_trimmed_witness :
  length (cleaned sample_tables (str " - Guide: one - ")) <= 255
  /\ trim (sanitize_filename sample_tables (str " - Guide: one - "))
     = sanitize_filename sample_tables (str " - Guide: one - ").
Proof.
  assert (H : length (cleaned sample_tables (str " - Guide: one - ")) <= 255)
    by (vm_compute; lia).
  split; [exact H | exact (@sanitize_filename_trimmed sample_tables _ H)].
Defined.

Lemma sanitize_filename_fallback_witness :
  Forall (fun c => In c vanishing) (str "?? - //")
  /\ sanitize_filename sample_tables (str "?? - //") = str "unnamed_document".
Proof.
  assert (H : Forall (fun c => In c vanishing) (str "?? - //"))
    by (apply Forall_In_computed; vm_compute; reflexivity).
  split; [exact H | exact (@sanitize_filename_fallback sample_tables _ H)].
Defined.

Lemma sanitize_filename_fixed_witness :
  Forall (stable sample_tables) (str "Issuu- Guide No.1 (Draft)")
  /\ sanitize_filename sample_tables (str "Issuu- Guide No.1 (Draft)")
     = str "Issuu- Guide No.1 (Draft)".
Proof.
  assert (H : Forall (stable sample_tables) (str "Issuu- Guide No.1 (Draft)"))
    by (apply ascii_all_stable; vm_compute; reflexivity).
  split; [exact H |].
  apply (@sanitize_filename_fixed sample_tables _ H).
  - apply Forall_computed_false. vm_compute. reflexivity.
  - apply Forall_computed. vm_compute. reflexivity.
  - vm_compute. reflexivity.
  - vm_compute. reflexivity.
  - vm_compute. reflexivity.
  - vm_compute. lia.
Defined.

(** ** The assembler *)

Section AssemblerMore.

Lemma str_leb_total (a b : pystr) :
  str_leb a b = false -> str_leb b a = true.
Proof.
  unfold str_leb. intros H. apply negb_false_iff in H.
  now rewrite (str_ltb_asym _ _ H).
Qed.

Lemma insert_sorted_perm (x : pystr) (l : list pystr) :
  Permutation (insert_sorted x l) (x :: l).
Proof.
  induction l as [|y l IH]; simpl; auto.
  destruct (str_leb x y); auto.
  rewrite IH. apply perm_swap.
Qed.

Lemma insert_sorted_sorted (x : pystr) (l : list pystr) :
  Sorted (fun a b => str_leb a b = true) l ->
  Sorted (fun a b => str_leb a b = true) (insert_sorted x l).
Proof.
  induction 1 as [|y l Hl IH Hy]; simpl.
  - repeat constructor.
  - destruct (str_leb x y) eqn:E.
    + repeat constructor; auto.
    + constructor; auto. apply str_leb_total in E.
      destruct l as [|z l]; simpl.
      * repeat constructor. exact E.
      * inversion Hy; subst. destruct (str_leb x z); constructor; auto.
Qed.

Lemma sorted_perm (l : list pystr) : Permutation (sorted l) l.
Proof.
  induction l as [|x l IH]; simpl; auto.
  rewrite insert_sorted_perm. now constructor.
Qed.

Lemma sorted_sorted (l : list pystr) :
  Sorted (fun a b => str_leb a b = true) (sorted l).
Proof.
  induction l as [|x l IH]; simpl; [constructor|].
  now apply insert_sorted_sorted.
Qed.

(** [create_pdf] hands img2pdf exactly the names of the directory that end
    in [.jpg], each joined to the folder and each as often as it is listed,
    in ascending order of the paths as strings; other files are left out. *)
Theorem image_files_sorted_jpg_only (image_folder : pystr)
    (names : list pystr) :
  Sorted (fun a b => str_leb a b = true) (image_files_of image_folder names)
  /\ Permutation (image_files_of image_folder names)
       (List.map (path_join image_folder)
          (filter (endswith (str ".jpg")) names))
  /\ (forall f, In f (image_files_of image_folder names) ->
      exists name, In name names /\ endswith (str ".jpg") name = true
                   /\ f = path_join image_folder name).
Proof.
  unfold image_files_of. split; [apply sorted_sorted|].
  split; [apply sorted_perm|].
  intros f Hf. apply (Permutation_in _ (sorted_perm _)) in Hf.
  apply in_map_iff in Hf. destruct Hf as (name & <- & Hn).
  apply filter_In in Hn. exists name. tauto.
Qed.

End AssemblerMore.

Lemma insert_nat_perm (x : nat) (l : list nat) :
  Permutation (insert_nat x l) (x :: l).
Proof.
  induction l as [|y l IH]; cbn [insert_nat]; [reflexivity|].
  destruct (x <=? y); [reflexivity|].
  rewrite IH. apply perm_swap.
Qed.

Lemma insert_nat_sorted (x : nat) (l : list nat) :
  Sorted le l -> Sorted le (insert_nat x l).
Proof.
  induction 1 as [|y l Hl IH Hy]; cbn [insert_nat].
  - repeat constructor.
  - destruct (x <=? y) eqn:E.
    + apply Nat.leb_le in E. repeat constructor; assumption.
    + apply Nat.leb_gt in E. constructor; [exact IH|].
      destruct l as [|z l]; cbn [insert_nat].
      * constructor. lia.
      * inversion Hy; subst. destruct (x <=? z); constructor; lia.
Qed.

(** Below a thousand pages the pages go into the PDF in the order of their
    numbers, in whatever order they were written: sorted as strings, the
    names [page_NNN.jpg] are sorted as numbers. *)
Theorem page_order_kept_below_1000 (image_folder : pystr)
    (pages : list nat)
    (Hpages : Forall (fun n => n < 1000) pages) :
  exists ordered,
    image_files_of image_folder (List.map page_file pages)
    = List.map (fun n => path_join image_folder (page_file n)) ordered
    /\ Permutation ordered pages
    /\ Sorted le ordered.
Proof.
  exists (sort_nat pages).
  split; [now apply image_files_below_1000|].
  unfold sort_nat. clear Hpages. split.
  - induction pages as [|n pages IH]; cbn [fold_right]; [reflexivity|].
    rewrite insert_nat_perm. now constructor.
  - induction pages as [|n pages IH]; cbn [fold_right]; [constructor|].
    now apply insert_nat_sorted.
Qed.

Lemma page_order_kept_below_1000_witness :
  exists ordered,
    image_files_of pub1_images (List.map page_file [10; 9; 100; 2])
    = List.map (fun n => path_join pub1_images (page_file n)) ordered
    /\ Permutation ordered [10; 9; 100; 2]
    /\ Sorted le ordered.
Proof.
  apply (@page_order_kept_below_1000 pub1_images [10; 9; 100; 2]).
  repeat constructor; lia.
Defined.

Section FirstPassMore.

Variable w : world.

(** When the first pass is over, every future is accounted for once: as a
    download counted, or by an entry of [failed_pages].  The counter is the
    number of downloads that succeeded, and the entries of [failed_pages]
    are loop indices, distinct and between 1 and the number of futures. *)
Theorem first_pass_accounts_for_every_future (doc_id revision_id : json)
    (dir : pystr) (completed : list nat) (s s' : state) (t : tally)
    (E : first_pass w doc_id revision_id dir completed 1
           {| successful_downloads := 0; failed_pages := []; saved := [] |} s
         = Ret t s') :
  successful_downloads t + length (failed_pages t) = length completed
  /\ successful_downloads t
     = successes_of FirstPass (new_events s (Ret t s'))
  /\ NoDup (failed_pages t)
  /\ Forall (fun i => 1 <= i <= length completed) (failed_pages t).
Proof.
  pose proof E as Hcount. apply first_pass_counts_add_up in Hcount.
  split; [exact Hcount|]. clear Hcount.
  destruct (first_pass_spec w doc_id revision_id dir completed 1
              {| successful_downloads := 0; failed_pages := []; saved := [] |}
              s) as (results & Ht & _ & Hr).
  cbv zeta in Ht, Hr. rewrite E in Ht, Hr. destruct Hr as (Hc & Hs & Hf).
  cbn [successful_downloads failed_pages app] in Hs, Hf.
  apply new_events_app in Ht. split.
  - rewrite Ht. unfold successes_of. now rewrite image_results_same, Hs.
  - rewrite Hf. split; [apply failure_indices_NoDup|].
    apply Forall_forall. intros i Hi. apply failure_indices_range in Hi.
    rewrite length_map, <- (length_map fst), Hc in Hi. lia.
Qed.

End FirstPassMore.

Lemma first_pass_accounts_for_every_future_witness :
  successful_downloads
    {| successful_downloads := 1; failed_pages := [2];
       saved := [str "page_002.jpg"] |}
  + length (failed_pages
              {| successful_downloads := 1; failed_pages := [2];
                 saved := [str "page_002.jpg"] |})
  = length [2; 1].
Proof.
  refine (proj1 (@first_pass_accounts_for_every_future swapped_world
                   (JStr (str "pub1")) (JStr (str "250301120000"))
                   pub1_images [2; 1] initial _ _ _)).
  vm_compute. reflexivity.
Defined.

(** ** The fetcher *)

Section FetcherMore.

Variable w : world.

Local Ltac step_io :=
  match goal with
  | |- context [bind (io w ?a ?e) ?k ?s] =>
      destruct (bind_io_cases w a e k s) as [[_ E]|[_ E]]; rewrite E; clear E;
      cbv beta
  end.

Lemma In_image_events (p q : pass) (dir path : pystr) (n : nat) (ok : bool)
    (res : list (nat * bool)) :
  In (EvImage q n path ok) (List.map (image_event p dir) res) ->
  path = dir ++ str "/" ++ page_file n /\ In (n, ok) res.
Proof.
  intros H. apply in_map_iff in H. destruct H as ([m b] & E & Hin).
  unfold image_event in E. cbn [fst snd] in E. inversion E; subst.
  split; [reflexivity | exact Hin].
Qed.

Lemma In_not_image (q : pass) (n : nat) (path : pystr) (ok : bool)
    (evs : history) (f : event -> bool) :
  (forall e, f e = true -> is_image e = false) ->
  Forall (fun e => f e = true) evs -> ~ In (EvImage q n path ok) evs.
Proof.
  intros Hf Hall Hin. rewrite Forall_forall in Hall.
  specialize (Hall _ Hin). apply Hf in Hall. discriminate Hall.
Qed.

(** Every page number [scrape_publication] asks for, in either pass, lies
    between 1 and the page count resolved; every image of a run is written to
    one directory, under the name [page_NNN.jpg] of its page number; and a
    run makes at most twice as many downloads as there are pages. *)
Theorem scrape_publication_pages_in_range (handle pub_url : pystr)
    (s : state) :
  let r := scrape_publication w handle pub_url s in
  let evs := new_events s r in
  let N := resolved_pages w s pub_url in
  Forall (fun n => 1 <= n <= N) (pages_of FirstPass evs)
  /\ Forall (fun n => 1 <= n <= N) (pages_of RetryPass evs)
  /\ length (pages_of FirstPass evs) + length (pages_of RetryPass evs)
     <= 2 * N
  /\ exists dir, forall p n path ok,
       In (EvImage p n path ok) evs -> path = dir ++ str "/" ++ page_file n.
Proof.
  intros r evs N.
  destruct (scrape_publication_shape w handle pub_url s)
    as (pre & res1 & res2 & post & dir & Ht & _ & Hpre & Hpost
        & [k1 Hk1] & [k2 Hk2] & _ & _).
  fold r in Ht. cbv zeta in Hk1. fold N in Hk1.
  apply new_events_app in Ht. fold evs in Ht.
  destruct (shape_projections dir res1 res2 Hpre Hpost) as (P1 & P2 & _).
  rewrite <- Ht in P1, P2. unfold pages_of. rewrite P1, P2.
  assert (L1 : length res1 <= N).
  { rewrite <- (length_map fst), Hk1, length_firstn, as_completed_length,
      length_seq. lia. }
  assert (L2 : length res2 <= length res1).
  { rewrite <- (length_map fst res2), Hk2, length_firstn,
      failure_indices_length.
    rewrite <- (length_map snd res1).
    pose proof (filter_length_le negb (List.map snd res1)). lia. }
  split; [|split; [|split]].
  - rewrite Hk1. apply Forall_forall. intros n Hn. apply In_firstn in Hn.
    apply (Permutation_in _ (as_completed_perm _ _)) in Hn.
    apply in_seq in Hn. lia.
  - rewrite Hk2. apply Forall_forall. intros n Hn. apply In_firstn in Hn.
    apply failure_indices_range in Hn. rewrite length_map in Hn. lia.
  - rewrite !length_map. lia.
  - exists dir. intros p n path ok Hin. rewrite Ht in Hin.
    apply in_app_or in Hin. destruct Hin as [Hin|Hin].
    { exfalso. revert Hin. apply In_not_image with (f := is_setup); auto.
      now intros []. }
    apply in_app_or in Hin. destruct Hin as [Hin|Hin].
    { now apply In_image_events in Hin. }
    apply in_app_or in Hin. destruct Hin as [Hin|Hin].
    { now apply In_image_events in Hin. }
    exfalso. revert Hin. apply In_not_image with (f := is_assembly); auto.
    now intros [].
Qed.

End FetcherMore.
Section FetcherOrder.

Variable w : world.

Lemma completion_order_in_order {A} (l : list A) :
  forall choices, Forall (fun c => c = 0) choices ->
  completion_order (length l) choices l = l.
Proof.
  induction l as [|x l IH]; intros choices Hc; [reflexivity|].
  cbn [length completion_order].
  assert (H0 : hd 0 choices = 0) by (destruct Hc; auto).
  assert (Ht : Forall (fun c => c = 0) (tl choices)) by (destruct Hc; auto).
  rewrite H0, Nat.Div0.mod_0_l. cbn [nth_error firstn skipn app].
  now rewrite IH.
Qed.

Lemma firstn_seq_min (k n : nat) :
  forall i, firstn k (seq i n) = seq i (Nat.min k n).
Proof.
  revert n. induction k as [|k IH]; intros [|n] i; cbn; auto.
  now rewrite IH.
Qed.

Lemma failure_indices_in_order (res : list (nat * bool)) :
  forall i, List.map fst res = seq i (length res) ->
  failure_indices i (List.map snd res)
  = List.map fst (filter (fun r => negb (snd r)) res).
Proof.
  induction res as [|[n ok] res IH]; intros i H; [reflexivity|].
  cbn [List.map length seq fst snd] in H. inversion H; subst.
  cbn [List.map filter failure_indices fst snd].
  destruct ok; cbn [negb List.map fst]; now rewrite IH.
Qed.

(** When the futures complete in the order they were submitted, the loop
    index is the page number: the retry pass asks for pages that failed in
    the first pass, in order, and in a run that returns for all of them
    (for none when no download succeeded). *)
Theorem retry_pass_asks_failed_pages_when_in_order (handle pub_url : pystr)
    (s : state)
    (Hord : forall h n, as_completed (schedule w h) (seq 1 n) = seq 1 n) :
  let r := scrape_publication w handle pub_url s in
  let evs := new_events s r in
  (exists k, pages_of RetryPass evs = firstn k (failed_in FirstPass evs))
  /\ (forall b s', r = Ret b s' ->
      pages_of RetryPass evs
      = if successes_of FirstPass evs =? 0 then []
        else failed_in FirstPass evs).
Proof.
  intros r evs.
  destruct (scrape_publication_shape w handle pub_url s)
    as (pre & res1 & res2 & post & dir & Ht & _ & Hpre & Hpost
        & [k1 Hk1] & [k2 Hk2] & _ & Hr).
  fold r in Ht, Hr. cbv zeta in Hk1. rewrite Hord in Hk1.
  apply new_events_app in Ht. fold evs in Ht.
  destruct (shape_projections dir res1 res2 Hpre Hpost) as (P1 & P2 & _).
  rewrite <- Ht in P1, P2.
  unfold pages_of, failed_in, successes_of. rewrite P1, P2.
  assert (Hf : failure_indices 1 (List.map snd res1)
               = List.map fst (filter (fun r => negb (snd r)) res1)).
  { apply failure_indices_in_order.
    rewrite Hk1, firstn_seq_min. f_equal.
    rewrite <- (length_map fst res1), Hk1, firstn_seq_min, length_seq.
    reflexivity. }
  rewrite <- Hf. split; [now exists k2|].
  intros b s' E. rewrite E in Hr. exact (proj1 Hr).
Qed.

End FetcherOrder.

Lemma in_order_schedule (w : world) :
  (forall h, Forall (fun c => c = 0) (schedule w h)) ->
  forall h n, as_completed (schedule w h) (seq 1 n) = seq 1 n.
Proof.
  intros H h n. unfold as_completed. apply completion_order_in_order, H.
Qed.

Lemma retry_pass_asks_failed_pages_when_in_order_witness :
  (forall h n, as_completed (schedule in_order_world h) (seq 1 n) = seq 1 n)
  /\ exists k,
       pages_of RetryPass
         (new_events initial
            (scrape_publication in_order_world acme guide_url initial))
       = firstn k
           (failed_in FirstPass
              (new_events initial
                 (scrape_publication in_order_world acme guide_url initial))).
Proof.
  assert (H : forall h n,
             as_completed (schedule in_order_world h) (seq 1 n) = seq 1 n)
    by (apply in_order_schedule; intros h; constructor).
  split; [exact H|].
  exact (proj1 (@retry_pass_asks_failed_pages_when_in_order
                  in_order_world acme guide_url initial H)).
Defined.

(** *** Runs that are not stopped *)

Section Settling.

Variable w : world.
Hypothesis Hni : forall h, interrupted w h = false.

Lemma settles_ret {A} (a : A) : settles (ret a).
Proof. intros s. exact I. Qed.

Lemma settles_raise {A} : settles (@raise A).
Proof. intros s. exact I. Qed.

Lemma settles_ask {A} (a : history -> A) : settles (ask a).
Proof. intros s. exact I. Qed.

Lemma settles_io {A} (a : history -> A) (e : A -> event) : settles (io w a e).
Proof. intros s. unfold io. now rewrite Hni. Qed.

Lemma settles_bind {A B} (m : M A) (k : A -> M B) :
  settles m -> (forall a, settles (k a)) -> settles (bind m k).
Proof.
  intros Hm Hk s. unfold bind. specialize (Hm s).
  destruct (m s) as [a s'|[] s']; [apply Hk | exact I | exact Hm].
Qed.

Lemma returns_settles {A} (m : M A) : returns m -> settles m.
Proof. intros H s. destruct (H s) as (a & s' & ->). exact I. Qed.

Lemma returns_try_except {A} (m h : M A) :
  settles m -> returns h -> returns (try_except m h).
Proof.
  intros Hm Hh s. unfold try_except. specialize (Hm s).
  destruct (m s) as [a s'|[] s']; [now exists a, s' | apply Hh | contradiction].
Qed.

Lemma returns_ret {A} (a : A) : returns (ret a).
Proof. intros s. now exists a, s. Qed.

Lemma settles_first_pass (doc_id revision_id : json) (dir : pystr)
    (completed : list nat) :
  forall i t, settles (first_pass w doc_id revision_id dir completed i t).
Proof.
  induction completed as [|n rest IH]; intros i t; cbn [first_pass].
  - apply settles_ret.
  - apply settles_bind; [apply settles_io|]. intros a. apply IH.
Qed.

Lemma settles_retry_pass (doc_id revision_id : json) (dir : pystr)
    (pages : list nat) :
  forall t, settles (retry_pass w doc_id revision_id dir pages t).
Proof.
  induction pages as [|n rest IH]; intros t; cbn [retry_pass].
  - apply settles_ret.
  - apply settles_bind; [apply settles_io|]. intros a. apply IH.
Qed.

Lemma returns_create_pdf (image_folder output_pdf : pystr)
    (written : list pystr) :
  returns (create_pdf w image_folder output_pdf written).
Proof.
  unfold create_pdf. apply returns_try_except; [|apply returns_ret].
  apply settles_bind; [apply settles_io|]. intros stale.
  destruct (image_files_of _ _); [apply settles_ret|].
  apply settles_bind; [apply settles_io|].
  intros []; [apply settles_ret | apply settles_raise].
Qed.

Lemma returns_scrape_publication (handle pub_url : pystr) :
  returns (scrape_publication w handle pub_url).
Proof.
  unfold scrape_publication. apply returns_try_except; [|apply returns_ret].
  apply settles_bind.
  { unfold get_document_data. apply settles_bind; [apply settles_io|].
    intros pg. apply settles_ret. }
  intros [d|]; [|apply settles_ret].
  destruct (negb (truthy (publication_id d))); [apply settles_ret|].
  destruct (title d); try apply settles_raise.
  apply settles_bind; [apply settles_io|].
  intros made. destruct (negb made); [apply settles_raise|].
  destruct (as_int (page_count d)); [|apply settles_raise].
  apply settles_bind; [apply settles_ask|]. intros choices.
  apply settles_bind; [apply settles_first_pass|]. intros t.
  destruct (successful_downloads t =? 0); [apply settles_ret|].
  apply settles_bind; [apply settles_retry_pass|]. intros t'.
  destruct (0 <? successful_downloads t'); [|apply settles_ret].
  apply returns_settles, returns_create_pdf.
Qed.

End Settling.

Section FetcherTotal.

Variable w : world.

(** [scrape_publication] keeps its failures to itself: whatever the site,
    the file system and img2pdf do, no exception leaves it and the ledger is
    as before; unless the process is stopped it returns [True] or [False]. *)
Theorem scrape_publication_never_raises (handle pub_url : pystr) (s : state) :
  let r := scrape_publication w handle pub_url s in
  ledger (final_state r) = ledger s
  /\ (forall s', r <> Exc Exception s')
  /\ ((forall h, interrupted w h = false) -> exists b s', r = Ret b s').
Proof.
  intros r.
  destruct (scrape_publication_extends w handle pub_url s)
    as (_ & Hl & _ & Hr).
  fold r in Hl, Hr. split; [exact Hl | split].
  - intros s' E. rewrite E in Hr. discriminate Hr.
  - intros Hni. exact (@returns_scrape_publication w Hni handle pub_url s).
Qed.

End FetcherTotal.

Lemma scrape_publication_never_raises_witness :
  (forall h, interrupted fair_world h = false)
  /\ exists b s', scrape_publication fair_world acme guide_url initial
                  = Ret b s'.
Proof.
  assert (H : forall h, interrupted fair_world h = false)
    by (intros h; reflexivity).
  split; [exact H|].
  exact (proj2 (proj2 (scrape_publication_never_raises
                         fair_world acme guide_url initial)) H).
Defined.

(** *** The PDF *)

Section PdfMore.

Variable w : world.

Local Ltac step_io :=
  match goal with
  | |- context [bind (io w ?a ?e) ?k ?s] =>
      destruct (bind_io_cases w a e k s) as [[_ E]|[_ E]]; rewrite E; clear E;
      cbv beta
  end.

Lemma In_add_file (name x : pystr) (dir : list pystr) :
  In x (add_file name dir) -> x = name \/ In x dir.
Proof.
  unfold add_file. destruct (existsb (str_eqb name) dir); [now right|].
  intros H. apply in_app_or in H. destruct H as [H|[<-|[]]]; auto.
Qed.

Lemma In_written (x : pystr) (stale written : list pystr) :
  In x (fold_right add_file stale written) -> In x stale \/ In x written.
Proof.
  induction written as [|name written IH]; cbn [fold_right]; [now left|].
  intros H. apply In_add_file in H. destruct H as [->|H].
  - right. now left.
  - destruct (IH H); [now left | right; now right].
Qed.

Lemma filter_none {A} (f : A -> bool) (l : list A) :
  (forall x, In x l -> f x = false) -> filter f l = [].
Proof.
  induction l as [|x l IH]; intros H; cbn [filter]; [reflexivity|].
  rewrite (H x (or_introl eq_refl)). apply IH. intros y Hy. apply H.
  now right.
Qed.

(** A run of [create_pdf] that returns [True]. *)
Lemma create_pdf_true (image_folder output_pdf : pystr)
    (written : list pystr) (s : state) :
  match create_pdf w image_folder output_pdf written s with
  | Ret true s' =>
      exists names,
        image_files_of image_folder names <> []
        /\ trace s'
           = trace s ++ [EvListdir image_folder;
                         EvConvert (image_files_of image_folder names)
                           output_pdf true]
  | Ret false _ => True
  | Exc e _ => e = Interrupt
  end.
Proof.
  unfold create_pdf, try_except. step_io; [reflexivity|].
  match goal with
  | |- context [image_files_of ?d ?l] =>
      destruct (image_files_of d l) as [|f files] eqn:F
  end; [exact I|].
  step_io; [reflexivity|]. cbn [trace].
  match goal with
  | |- context [convert_ok w ?h ?l] => destruct (convert_ok w h l)
  end; [|exact I].
  cbv [ret]. eexists. rewrite F. split; [discriminate|].
  cbn [trace]. now rewrite <- app_assoc.
Qed.

(** With no [.jpg] file in the images directory, neither left there by an
    earlier run nor written by this one, [create_pdf] lists the directory,
    does not call img2pdf, and returns [False]. *)
Theorem create_pdf_without_images (image_folder output_pdf : pystr)
    (written : list pystr) (s : state)
    (Hstale : forall name, In name (stale_files w (trace s)) ->
                           endswith (str ".jpg") name = false)
    (Hwritten : forall name, In name written ->
                             endswith (str ".jpg") name = false) :
  let r := create_pdf w image_folder output_pdf written s in
  r = Exc Interrupt s
  \/ r = Ret false {| trace := trace s ++ [EvListdir image_folder];
                      ledger := ledger s |}.
Proof.
  unfold create_pdf, try_except. step_io; [now left|]. right.
  unfold image_files_of. rewrite filter_none; [reflexivity|].
  intros x Hx. apply In_written in Hx. destruct Hx as [Hx|Hx].
  - now apply Hstale.
  - apply Hwritten. now apply in_rev.
Qed.

Lemma not_convert_images (p : pass) (dir : pystr) (res : list (nat * bool)) :
  existsb is_convert (List.map (image_event p dir) res) = false.
Proof. induction res as [|r res IH]; [reflexivity | exact IH]. Qed.

(** A run of [scrape_publication] that returns [True]. *)
Lemma scrape_publication_true_run (handle pub_url : pystr)
    (s s' : state)
    (E : scrape_publication w handle pub_url s = Ret true s') :
  exists d original_title names evs,
    extract_document (document w (trace s) pub_url) = Some d
    /\ title d = JStr original_title
    /\ truthy (publication_id d) = true
    /\ image_files_of
         (base_dir_of w handle (publication_id d) ++ str "/images") names
       <> []
    /\ trace s'
       = trace s ++ evs
           ++ [EvConvert
                 (image_files_of
                    (base_dir_of w handle (publication_id d)
                       ++ str "/images") names)
                 (written_path w handle d original_title)
                 true]
    /\ existsb is_convert evs = false.
Proof.
  enough (H : match scrape_publication w handle pub_url s with
              | Ret true s' =>
                  exists d original_title names evs,
                    extract_document (document w (trace s) pub_url) = Some d
                    /\ title d = JStr original_title
                    /\ truthy (publication_id d) = true
                    /\ image_files_of
                         (base_dir_of w handle (publication_id d)
                            ++ str "/images") names
                       <> []
                    /\ trace s'
                       = trace s ++ evs
                           ++ [EvConvert
                                 (image_files_of
                                    (base_dir_of w handle (publication_id d)
                                       ++ str "/images") names)
                                 (written_path w handle d original_title)
                                 true]
                    /\ existsb is_convert evs = false
              | _ => True
              end) by (rewrite E in H; exact H).
  clear E s'.
  unfold written_path.
  unfold scrape_publication, try_except, get_document_data.
  rewrite bind_bind. step_io; [exact I|]. rewrite bind_ret.
  destruct (extract_document (document w (trace s) pub_url)) as [d|] eqn:Ed;
    [|exact I].
  destruct (truthy (publication_id d)) eqn:Eid; cbn [negb]; [|exact I].
  destruct (title d) as [| | |original_title| |] eqn:Et; try exact I.
  fold (base_dir_of w handle (publication_id d)).
  set (base := base_dir_of w handle (publication_id d)).
  set (pdf := base ++ str "/" ++ sanitize_filename (unicode w) original_title
                ++ str ".pdf").
  step_io; [exact I|]. cbn [trace ledger].
  destruct (makedirs_ok w (trace s ++ [EvDocument pub_url])); cbn [negb];
    [|exact I].
  destruct (as_int (page_count d)) as [n|]; [|exact I].
  rewrite bind_ask. cbn [trace].
  unfold bind at 1.
  match goal with
  | |- context [first_pass w ?a ?b ?c ?l ?i ?t ?s] =>
      destruct (first_pass_spec w a b c l i t s) as (res1 & Ht1 & _ & Hr1);
      cbv zeta in Ht1, Hr1;
      destruct (first_pass w a b c l i t s) as [t1 s3|e s3]
  end; cbn [final_state trace] in Ht1, Hr1.
  2:{ destruct Hr1 as [-> _]. exact I. }
  clear Hr1.
  destruct (successful_downloads t1 =? 0); [exact I|].
  unfold bind at 1.
  match goal with
  | |- context [retry_pass w ?a ?b ?c ?l ?t ?s] =>
      destruct (retry_pass_spec w a b c l t s) as (res2 & Ht2 & _ & Hr2);
      cbv zeta in Ht2, Hr2;
      destruct (retry_pass w a b c l t s) as [t2 s4|e s4]
  end; cbn [final_state trace] in Ht2, Hr2.
  2:{ destruct Hr2 as [-> _]. exact I. }
  clear Hr2.
  destruct (0 <? successful_downloads t2); [|exact I].
  match goal with
  | |- context [create_pdf w ?x1 ?x2 ?x3 ?s] =>
      pose proof (create_pdf_true x1 x2 x3 s) as Hc;
      destruct (create_pdf w x1 x2 x3 s) as [[|] s5|e s5]
  end; [| exact I | subst e; exact I].
  destruct Hc as (names & Hne & Ht3).
  exists d, original_title, names.
  exists ([EvDocument pub_url] ++ [EvMakedirs (base ++ str "/images")]
            ++ List.map (image_event FirstPass (base ++ str "/images")) res1
            ++ List.map (image_event RetryPass (base ++ str "/images")) res2
            ++ [EvListdir (base ++ str "/images")]).
  split; [reflexivity|]. split; [exact Et|]. split; [exact Eid|].
  split; [exact Hne|].
  split; [|rewrite !existsb_app, !not_convert_images; reflexivity].
  rewrite Ht3, Ht2, Ht1. clear. subst pdf base.
  match goal with
  | |- context [EvConvert ?a ?b true] => generalize (EvConvert a b true)
  end.
  match goal with
  | |- context [List.map (image_event FirstPass ?a) res1] =>
      generalize (List.map (image_event FirstPass a) res1);
      generalize (List.map (image_event RetryPass a) res2);
      generalize (EvListdir a); generalize (EvMakedirs a)
  end.
  generalize (EvDocument pub_url). generalize (trace s).
  intros h e1 e2 e3 l2 l1 e4.
  change [e3; e4] with ([e3] ++ [e4]).
  rewrite <- !app_assoc. reflexivity.
Qed.

(** A run of [scrape_publication] that returns [True]: the last thing done
    is the conversion, the only one of the run and a successful one, of a
    list of images that is not empty, taken from the images directory of the
    publication, into
    [downloads/<handle>/<publication id>/<sanitized title>.pdf]. *)
Theorem scrape_publication_true_writes_pdf (handle pub_url : pystr)
    (s s' : state)
    (E : scrape_publication w handle pub_url s = Ret true s') :
  exists d original_title names evs,
    extract_document (document w (trace s) pub_url) = Some d
    /\ title d = JStr original_title
    /\ new_events s (scrape_publication w handle pub_url s)
       = evs ++ [EvConvert
                   (image_files_of
                      (base_dir_of w handle (publication_id d)
                         ++ str "/images") names)
                   (written_path w handle d original_title)
                   true]
    /\ image_files_of
         (base_dir_of w handle (publication_id d) ++ str "/images") names
       <> []
    /\ existsb is_convert evs = false.
Proof.
  pose proof E as Hrun. apply scrape_publication_true_run in Hrun.
  destruct Hrun
    as (d & original_title & names & evs & Ed & Et & _ & Hne & Ht & Hc).
  exists d, original_title, names, evs.
  split; [exact Ed|]. split; [exact Et|]. split; [|split; assumption].
  apply new_events_app. rewrite E. exact Ht.
Qed.

End PdfMore.
Lemma create_pdf_without_images_witness :
  create_pdf fair_world pub1_images (str "downloads/acme/pub1/Guide.pdf")
    [str "notes.txt"] initial
  = Exc Interrupt initial
  \/ create_pdf fair_world pub1_images (str "downloads/acme/pub1/Guide.pdf")
       [str "notes.txt"] initial
     = Ret false {| trace := trace initial ++ [EvListdir pub1_images];
                    ledger := ledger initial |}.
Proof.
  apply (@create_pdf_without_images fair_world pub1_images
           (str "downloads/acme/pub1/Guide.pdf") [str "notes.txt"] initial).
  - intros name H. destruct H.
  - intros name H. destruct H as [<-|H]; [reflexivity | destruct H].
Defined.

Lemma scrape_publication_true_writes_pdf_witness :
  exists d original_title names evs,
    extract_document (document fair_world (trace initial) guide_url) = Some d
    /\ title d = JStr original_title
    /\ new_events initial
         (scrape_publication fair_world acme guide_url initial)
       = evs ++ [EvConvert
                   (image_files_of
                      (base_dir_of fair_world acme (publication_id d)
                         ++ str "/images") names)
                   (written_path fair_world acme d original_title)
                   true]
    /\ image_files_of
         (base_dir_of fair_world acme (publication_id d) ++ str "/images")
         names
       <> []
    /\ existsb is_convert evs = false.
Proof.
  apply (@scrape_publication_true_writes_pdf fair_world acme guide_url
           initial
           (final_state
              (scrape_publication fair_world acme guide_url initial))).
  vm_compute. reflexivity.
Defined.

(** ** The ledger *)

Section LedgerMore.

Variable w : world.

Lemma existsb_app_true {A} (f : A -> bool) (l tail : list A) :
  existsb f l = true -> existsb f (l ++ tail) = true.
Proof. intros H. now rewrite existsb_app, H. Qed.

Lemma load_replaced {A} (k : ledger_file -> M A) (t : history)
    (l : ledger_file) :
  l = Missing \/ l = Unparseable ->
  bind (load_processed_publications w) k {| trace := t; ledger := l |}
  = match ledger_write w t with
    | Written => k (Ledger []) {| trace := t; ledger := Ledger [] |}
    | Refused => Exc Exception {| trace := t; ledger := l |}
    | Cut => Exc Exception {| trace := t; ledger := Unparseable |}
    end.
Proof.
  intros [-> | ->];
    unfold load_processed_publications;
    cbv [bind write_ledger ret]; cbn [ledger trace];
    destruct (ledger_write w t); reflexivity.
Qed.

(** A call of [save_processed_publication] that returns. *)
Lemma save_returns (pub_id : json) (metadata : book_info) (s s1 : state) :
  save_processed_publication w pub_id metadata s = Ret tt s1 ->
  s1 = {| trace := trace s ++ [EvNow];
          ledger :=
            Ledger (records_of (ledger s)
                      ++ [ {| rec_publication_id := pub_id;
                              rec_metadata := metadata;
                              rec_processed_at := now w (trace s) |} ]) |}.
Proof.
  destruct s as [t l]. cbn [trace ledger].
  assert (Hl : forall records,
             save_processed_publication w pub_id metadata
               {| trace := t; ledger := Ledger records |} = Ret tt s1 ->
             s1 = {| trace := t ++ [EvNow];
                     ledger :=
                       Ledger (records
                                 ++ [ {| rec_publication_id := pub_id;
                                         rec_metadata := metadata;
                                         rec_processed_at := now w t |} ])
                  |}).
  { intros records E.
    destruct (save_runs w pub_id metadata t records) as [[_ E']|[_ E']];
      cbv zeta in E'; [rewrite E' in E; discriminate E|].
    destruct (ledger_write w (t ++ [EvNow])); rewrite E' in E;
      [now inversion E | discriminate E | discriminate E]. }
  assert (Hr : forall l', l' = Missing \/ l' = Unparseable ->
             save_processed_publication w pub_id metadata
               {| trace := t; ledger := l' |} = Ret tt s1 ->
             save_processed_publication w pub_id metadata
               {| trace := t; ledger := Ledger [] |} = Ret tt s1).
  { intros l' Hl' E. unfold save_processed_publication in E.
    rewrite (load_replaced _ t Hl') in E.
    destruct (ledger_write w t); [exact E | discriminate E | discriminate E]. }
  destruct l; cbn [records_of]; intros E;
    try discriminate E; try (apply Hl; exact E).
  - apply Hl, (Hr Missing); [now left | exact E].
  - apply Hl, (Hr Unparseable); [now right | exact E].
Qed.

Lemma lookup_in_ledger (pub_id : json) (t : history)
    (records : list processed_record) :
  is_publication_processed w pub_id {| trace := t; ledger := Ledger records |}
  = Ret (is_processed records pub_id)
      {| trace := t; ledger := Ledger records |}.
Proof. reflexivity. Qed.

(** A publication saved is listed as processed from then on, and saving
    never unlists another: once [is_publication_processed] answers [True]
    for an id, it does so after every later [save_processed_publication].
    (The id must be equal to itself, as strings and numbers are.) *)
Theorem saved_publication_is_processed (pub_id : json)
    (metadata : book_info) (s s1 : state)
    (Heq : Json.eqb pub_id pub_id = true)
    (Hsave : save_processed_publication w pub_id metadata s = Ret tt s1) :
  is_publication_processed w pub_id s1 = Ret true s1
  /\ (forall other,
        returned (is_publication_processed w other s) = Some true ->
        is_publication_processed w other s1 = Ret true s1)
  /\ exists record,
       ledger s1 = Ledger (records_of (ledger s) ++ [record])
       /\ rec_publication_id record = pub_id
       /\ rec_metadata record = metadata.
Proof.
  apply save_returns in Hsave. subst s1.
  split; [|split].
  - rewrite lookup_in_ledger. f_equal. unfold is_processed.
    rewrite existsb_app. cbn [existsb rec_publication_id].
    rewrite Heq. now rewrite orb_true_r.
  - intros other Ho. rewrite lookup_in_ledger. f_equal.
    unfold is_processed. apply existsb_app_true.
    pose proof (lookup_runs w other s) as Hl.
    destruct (is_publication_processed w other s) as [b s'|e s'];
      [|discriminate Ho].
    destruct Hl as (_ & Hb & _). cbn [returned] in Ho.
    inversion Ho as [Hb']. rewrite Hb' in Hb. symmetry. exact Hb.
  - eexists. split; [reflexivity|]. split; reflexivity.
Qed.

(** Asking whether a publication is processed changes nothing that a second
    question would see: the answer is the same, and the records are those of
    before.  A ledger file that was missing, or on which [json.load] raised
    JSONDecodeError, has then been replaced by an empty one, and the answer
    is [False].  A file that cannot be opened or decoded is not replaced:
    the question raises and leaves the file as it is. *)
Theorem is_publication_processed_stable (pub_id : json) (s s1 : state)
    (b : bool)
    (Hq : is_publication_processed w pub_id s = Ret b s1) :
  is_publication_processed w pub_id s1 = Ret b s1
  /\ trace s1 = trace s
  /\ records_of (ledger s1) = records_of (ledger s)
  /\ (ledger s = Missing \/ ledger s = Unparseable ->
      b = false /\ ledger s1 = Ledger [])
  /\ ledger s <> Unreadable
  /\ (forall t,
        is_publication_processed w pub_id
          {| trace := t; ledger := Unreadable |}
        = Exc Exception {| trace := t; ledger := Unreadable |}).
Proof.
  pose proof (lookup_runs w pub_id s) as Hl. rewrite Hq in Hl.
  destruct Hl as (-> & -> & Hlist).
  split; [|split; [reflexivity|split; [|split; [|split]]]].
  - cbn [ledger] in *.
    destruct Hlist as [E|E]; rewrite E.
    + rewrite lookup_in_ledger. reflexivity.
    + destruct (ledger s); try discriminate E; reflexivity.
  - cbn [ledger]. destruct (ledger s); reflexivity.
  - intros [E|E]; rewrite E; split; reflexivity.
  - intros E. revert Hq. destruct s as [t l]. cbn [ledger] in E. subst l.
    discriminate.
  - intros t. reflexivity.
Qed.

End LedgerMore.

Lemma saved_publication_is_processed_witness :
  is_publication_processed fair_world (JStr (str "pub1"))
    {| trace := [EvNow];
       ledger := Ledger [ {| rec_publication_id := JStr (str "pub1");
                             rec_metadata :=
                               {| bk_title := JStr (str "Guide");
                                  bk_handle := acme;
                                  bk_publish_date := str "2025-03-01";
                                  bk_page_count := JNum 1;
                                  bk_publication_id := JStr (str "pub1");
                                  bk_drive_link := drive_link |};
                             rec_processed_at :=
                               str "2025-03-02T08:00:00" |} ] |}
  = Ret true
      {| trace := [EvNow];
         ledger := Ledger [ {| rec_publication_id := JStr (str "pub1");
                               rec_metadata :=
                                 {| bk_title := JStr (str "Guide");
                                    bk_handle := acme;
                                    bk_publish_date := str "2025-03-01";
                                    bk_page_count := JNum 1;
                                    bk_publication_id := JStr (str "pub1");
                                    bk_drive_link := drive_link |};
                               rec_processed_at :=
                                 str "2025-03-02T08:00:00" |} ] |}.
Proof.
  refine (proj1 (@saved_publication_is_processed fair_world
                   (JStr (str "pub1")) _ {| trace := []; ledger := Missing |}
                   _ _ _)).
  - vm_compute. reflexivity.
  - vm_compute. reflexivity.
Defined.

Lemma is_publication_processed_stable_witness :
  is_publication_processed fair_world (JStr (str "pub1"))
    {| trace := []; ledger := Ledger [] |}
  = Ret false {| trace := []; ledger := Ledger [] |}.
Proof.
  refine (proj1 (@is_publication_processed_stable fair_world
                   (JStr (str "pub1"))
                   {| trace := []; ledger := Unparseable |} _ _ _)).
  vm_compute. reflexivity.
Defined.

(** ** The worker's loop body *)

Section WorkerMore.

Variable w : world.

Local Ltac step_io :=
  match goal with
  | |- context [bind (io w ?a ?e) ?k ?s] =>
      destruct (bind_io_cases w a e k s) as [[_ E]|[_ E]]; rewrite E; clear E;
      cbv beta
  end.

(** The look into the ledger of the loop body. *)
Lemma lookup_after (pub_id : json) (s : state) (pub_url : pystr) :
  match is_publication_processed w pub_id
          {| trace := trace s ++ [EvDocument pub_url]; ledger := ledger s |}
  with
  | Ret b s1 =>
      s1 = after_lookup w s pub_url
      /\ s1 = looked_up_at s pub_url
      /\ b = is_processed (records_of (ledger s)) pub_id
  | Exc e s1 => e = Exception /\ s1 = after_lookup w s pub_url
  end.
Proof.
  unfold is_publication_processed, after_lookup, looked_up_at,
    load_processed_publications.
  destruct (ledger s); cbv [bind write_ledger ret raise];
    cbn [ledger trace];
    try destruct (ledger_write w (trace s ++ [EvDocument pub_url]));
    cbn [final_state ledger trace looked_up records_of is_processed existsb];
    repeat split.
Qed.

Lemma after_lookup_trace (s : state) (pub_url : pystr) :
  trace (after_lookup w s pub_url) = trace s ++ [EvDocument pub_url].
Proof.
  unfold after_lookup, load_processed_publications.
  destruct (ledger s); cbv [bind write_ledger ret raise];
    cbn [ledger trace];
    try destruct (ledger_write w (trace s ++ [EvDocument pub_url]));
    reflexivity.
Qed.

(** A publication that the ledger lists is skipped: after the request of its
    page nothing is fetched, uploaded or recorded, and the list of new books
    is as before. *)
Theorem processed_publication_skipped (handle pub_url : pystr)
    (new_books : list book_info) (s : state) (d : doc_data)
    (Hd : extract_document (document w (trace s) pub_url) = Some d)
    (Hp : is_processed (records_of (ledger s)) (publication_id d) = true) :
  let r := process_reference w handle pub_url new_books s in
  r = Exc Interrupt s \/ r = Ret new_books (after_lookup w s pub_url).
Proof.
  cbv zeta. unfold process_reference, get_document_data.
  rewrite bind_bind. step_io; [now left|]. right. rewrite bind_ret, Hd.
  unfold bind at 1. unfold after_lookup.
  destruct (ledger s) as [| | | | |records]; try discriminate Hp.
  cbn [records_of] in Hp. rewrite lookup_in_ledger, Hp. reflexivity.
Qed.

(** A publication without a date, or dated on or before the cut-off
    ([pub_date <= CUTOFF_DATE], the cut-off itself included), is skipped in
    the same way when the look into the ledger does not raise, whether the
    ledger lists it or not. *)
Theorem publication_not_after_cutoff_skipped (handle pub_url : pystr)
    (new_books : list book_info) (s : state) (d : doc_data)
    (processed : bool) (s1 : state)
    (Hd : extract_document (document w (trace s) pub_url) = Some d)
    (Hl : is_publication_processed w (publication_id d)
            {| trace := trace s ++ [EvDocument pub_url];
               ledger := ledger s |}
          = Ret processed s1)
    (Hdate : truthy (originalPublishDateInISOString d) = false
             \/ exists date_text pub_date,
                  originalPublishDateInISOString d = JStr date_text
                  /\ parse w date_text = Some pub_date
                  /\ datetime_le pub_date CUTOFF_DATE = Some true) :
  let r := process_reference w handle pub_url new_books s in
  s1 = looked_up_at s pub_url
  /\ (r = Exc Interrupt s \/ r = Ret new_books s1).
Proof.
  cbv zeta. split.
  { pose proof (lookup_after (publication_id d) s pub_url) as H.
    rewrite Hl in H. apply H. }
  unfold process_reference, get_document_data.
  rewrite bind_bind. step_io; [now left|]. right. rewrite bind_ret, Hd.
  unfold bind at 1. rewrite Hl.
  destruct processed; [reflexivity|].
  destruct Hdate as [Hf|(date_text & pub_date & Hs & Hparse & Hle)].
  - rewrite Hf. reflexivity.
  - rewrite Hs. destruct (truthy (JStr date_text)); [|reflexivity].
    cbn [negb]. rewrite Hparse, Hle. reflexivity.
Qed.

(** A date that is no string, or that cannot be parsed or compared with the
    cut-off, is not skipped: the exception leaves the loop body (and with it
    [main]) before anything is fetched. *)
Theorem publication_with_bad_date_raises (handle pub_url : pystr)
    (new_books : list book_info) (s : state) (d : doc_data)
    (Hd : extract_document (document w (trace s) pub_url) = Some d)
    (Hm : ledger s <> Malformed)
    (Hp : is_processed (records_of (ledger s)) (publication_id d) = false)
    (Ht : truthy (originalPublishDateInISOString d) = true)
    (Hdate : forall date_text,
               originalPublishDateInISOString d = JStr date_text ->
               parse_date w date_text = DateError) :
  let r := process_reference w handle pub_url new_books s in
  r = Exc Interrupt s \/ r = Exc Exception (after_lookup w s pub_url).
Proof.
  cbv zeta. unfold process_reference, get_document_data.
  rewrite bind_bind. step_io; [now left|]. right. rewrite bind_ret, Hd.
  unfold bind at 1.
  pose proof (lookup_after (publication_id d) s pub_url) as Hl.
  destruct (is_publication_processed w (publication_id d) _) as [b s1|e s1].
  2:{ destruct Hl as (-> & ->). reflexivity. }
  destruct Hl as (-> & _ & ->). rewrite Hp, Ht. cbn [negb].
  destruct (originalPublishDateInISOString d) as [| | |date_text| |];
    try reflexivity.
  pose proof (Hdate date_text eq_refl) as Hpd. unfold parse_date in Hpd.
  destruct (parse w date_text) as [pub_date|]; [|reflexivity].
  destruct (datetime_le pub_date CUTOFF_DATE) as [on_or_before|];
    [discriminate Hpd | reflexivity].
Qed.

End WorkerMore.

(** *** Where the PDF is written and where it is looked for *)

Section WorkerPaths.

Variable w : world.

Local Ltac step_io :=
  match goal with
  | |- context [bind (io w ?a ?e) ?k ?s] =>
      destruct (bind_io_cases w a e k s) as [[_ E]|[_ E]]; rewrite E; clear E;
      cbv beta
  end.

Lemma upload_in_tail (p pub_url : pystr) (ok : bool) (evs tail : history) :
  Forall (fun e => is_scrape_event e = true) evs ->
  In (EvUpload p ok) (EvDocument pub_url :: evs ++ tail) ->
  In (EvUpload p ok) tail.
Proof.
  intros Hs [H|H]; [discriminate H|].
  apply in_app_or in H. destruct H as [H|H]; [|exact H].
  rewrite Forall_forall in Hs. apply Hs in H. discriminate H.
Qed.

Lemma new_events_early {A} (s : state) (r : result A) (p : pystr)
    (ok : bool) (evs : history) :
  trace (final_state r) = trace s ++ evs ->
  Forall (fun e => is_upload e = false) evs ->
  ~ In (EvUpload p ok) (new_events s r).
Proof.
  intros Ht Hq Hin. rewrite (new_events_app _ _ _ Ht) in Hin.
  rewrite Forall_forall in Hq. apply Hq in Hin. discriminate Hin.
Qed.

Local Ltac quiet l :=
  intros Hin; exfalso; revert Hin;
  apply (@new_events_early _ _ _ _ _ l);
  [ cbn [final_state trace ret raise]; rewrite ?app_nil_r; reflexivity
  | repeat constructor ].

(** The events of the ledger write at the end of the loop body. *)
Lemma save_then_trace {A} (pub_id : json) (metadata : book_info) (x : A)
    (s : state) :
  exists tail,
    trace (final_state
             (bind (save_processed_publication w pub_id metadata)
                (fun _ => ret x) s))
    = trace s ++ tail
    /\ Forall (fun e => is_upload e = false) tail.
Proof.
  destruct s as [t l]. cbn [trace].
  assert (Hledger : forall records,
             exists tail,
               trace (final_state
                        (bind (save_processed_publication w pub_id metadata)
                           (fun _ => ret x)
                           {| trace := t; ledger := Ledger records |}))
               = t ++ tail
               /\ Forall (fun e => is_upload e = false) tail).
  { intros records. unfold bind at 1.
    destruct (save_runs w pub_id metadata t records) as [[_ E]|[_ E]];
      cbv zeta in E.
    - rewrite E. exists []. split; [now rewrite app_nil_r | constructor].
    - exists [EvNow].
      split; [|repeat constructor].
      destruct (ledger_write w (t ++ [EvNow])); rewrite E; reflexivity. }
  destruct l; try apply Hledger;
    try (exists []; split; [now rewrite app_nil_r | constructor]).
  - unfold save_processed_publication.
    rewrite bind_bind, (@load_replaced w _ _ t _ (or_introl eq_refl)).
    destruct (ledger_write w t);
      [exact (Hledger [])
      | exists []; split; [now rewrite app_nil_r | constructor]
      | exists []; split; [now rewrite app_nil_r | constructor] ].
  - unfold save_processed_publication.
    rewrite bind_bind, (@load_replaced w _ _ t _ (or_intror eq_refl)).
    destruct (ledger_write w t);
      [exact (Hledger [])
      | exists []; split; [now rewrite app_nil_r | constructor]
      | exists []; split; [now rewrite app_nil_r | constructor] ].
Qed.

(** What an upload in a run of the loop body tells. *)
Lemma process_reference_upload (handle pub_url : pystr)
    (new_books : list book_info) (s : state) (p : pystr) (ok : bool) :
  In (EvUpload p ok)
     (new_events s (process_reference w handle pub_url new_books s)) ->
  exists d s2,
    extract_document (document w (trace s) pub_url) = Some d
    /\ p = upload_path w handle d
    /\ scrape_publication w handle pub_url (looked_up_at s pub_url)
       = Ret true s2.
Proof.
  unfold process_reference, get_document_data.
  rewrite bind_bind. step_io; [quiet (@nil event)|].
  rewrite bind_ret.
  destruct (extract_document (document w (trace s) pub_url)) as [d|] eqn:Ed;
    [|quiet [EvDocument pub_url]].
  unfold bind at 1.
  pose proof (lookup_after w (publication_id d) s pub_url) as Hlook.
  destruct (is_publication_processed w (publication_id d) _)
    as [processed s1|e s1].
  2:{ destruct Hlook as (_ & ->). intros Hin. exfalso. revert Hin.
      apply (@new_events_early _ _ _ _ _ [EvDocument pub_url]);
        [cbn [final_state]; apply after_lookup_trace | repeat constructor]. }
  destruct Hlook as (_ & -> & _).
  destruct processed; [quiet [EvDocument pub_url]|].
  destruct (truthy (originalPublishDateInISOString d)); cbn [negb];
    [|quiet [EvDocument pub_url]].
  destruct (originalPublishDateInISOString d) as [| | |date_text| |];
    try (quiet [EvDocument pub_url]).
  destruct (parse w date_text) as [pub_date|];
    [|quiet [EvDocument pub_url]].
  destruct (datetime_le pub_date CUTOFF_DATE) as [[|]|];
    [quiet [EvDocument pub_url] | | quiet [EvDocument pub_url]].
  set (s1 := looked_up_at s pub_url).
  destruct (scrape_publication_extends w handle pub_url s1)
    as (Ht & Hl & Hscr & _).
  cbv zeta in Ht, Hl, Hscr. unfold bind at 1.
  assert (Hs1 : forall evs, trace s1 ++ evs
                            = trace s ++ EvDocument pub_url :: evs)
    by (intros evs; unfold s1, looked_up_at; cbn [trace];
        now rewrite <- app_assoc).
  fold (upload_path w handle d).
  destruct (scrape_publication w handle pub_url s1) as [[|] s2|e s2] eqn:Ers;
    cbn [final_state] in Ht, Hl.
  - intros Hin.
    exists d, s2. split; [reflexivity|]. split; [|reflexivity].
    revert Hin. unfold upload_to_drive. rewrite bind_bind. step_io.
    { intros Hin. exfalso.
      rewrite (new_events_app s _ (EvDocument pub_url
                 :: new_events s1 (Ret true s2) ++ [])) in Hin
        by (cbn [final_state]; rewrite app_nil_r, Ht, Hs1; reflexivity).
      apply upload_in_tail in Hin; [destruct Hin | exact Hscr]. }
    match goal with
    | |- context [drive_upload w ?h ?x] =>
        destruct (drive_upload w h x) as [web_link|]
    end.
    2:{ rewrite bind_raise. intros Hin.
        rewrite (new_events_app s _ (EvDocument pub_url
                   :: new_events s1 (Ret true s2)
                        ++ [EvUpload (upload_path w handle d) false])) in Hin
          by (cbn [final_state trace]; rewrite Ht, <- app_assoc, Hs1;
              reflexivity).
        apply upload_in_tail in Hin; [|exact Hscr].
        destruct Hin as [H|[]]. now inversion H. }
    rewrite bind_ret.
    match goal with
    | |- context [bind (save_processed_publication w ?i ?m)
                    (fun _ => ret ?x) ?st] =>
        destruct (save_then_trace i m x st) as (tail & Htail & Hq)
    end.
    cbn [trace] in Htail. intros Hin.
    rewrite (new_events_app s _ (EvDocument pub_url
               :: new_events s1 (Ret true s2)
                    ++ EvUpload (upload_path w handle d) true :: tail))
      in Hin
      by (rewrite Htail, Ht, <- !app_assoc, Hs1; reflexivity).
    apply upload_in_tail in Hin; [|exact Hscr].
    destruct Hin as [H|H]; [now inversion H|].
    rewrite Forall_forall in Hq. apply Hq in H. discriminate H.
  - intros Hin. exfalso.
    rewrite (new_events_app s _ (EvDocument pub_url
               :: new_events s1 (Ret false s2) ++ [])) in Hin
      by (unfold ret; cbn [final_state]; rewrite app_nil_r, Ht, Hs1;
          reflexivity).
    apply upload_in_tail in Hin; [destruct Hin | exact Hscr].
  - intros Hin. exfalso.
    rewrite (new_events_app s _ (EvDocument pub_url
               :: new_events s1 (Exc e s2) ++ [])) in Hin
      by (cbn [final_state]; rewrite app_nil_r, Ht, Hs1; reflexivity).
    apply upload_in_tail in Hin; [destruct Hin | exact Hscr].
Qed.

End WorkerPaths.

Section WorkerPaths2.

Variable w : world.

Lemma path_eq (base a b : pystr) :
  base ++ str "/" ++ a ++ str ".pdf" = base ++ str "/" ++ b ++ str ".pdf"
  <-> a = b.
Proof.
  split; [|now intros ->].
  intros H. apply app_inv_head in H.
  apply (app_inv_head (str "/")) in H. now apply app_inv_tail in H.
Qed.

Lemma upload_path_base (handle : pystr) (d : doc_data) :
  upload_path w handle d
  = base_dir_of w handle (publication_id d) ++ str "/"
      ++ fstring w (title d) ++ str ".pdf".
Proof.
  unfold upload_path, base_dir_of. now rewrite <- !app_assoc.
Qed.

(** Whenever the loop body uploads, [scrape_publication] has written the
    PDF under the sanitized title of the publication it resolved itself,
    while the file uploaded is named by the title as the worker resolved it,
    not sanitized.  When both resolve the same publication and the title is
    rendered as it is, the file uploaded is the file written exactly when
    [sanitize_filename] leaves the title as it is. *)
Theorem upload_looks_for_unsanitized_title (handle pub_url : pystr)
    (new_books : list book_info) (s : state) (p : pystr) (ok : bool)
    (Hin : In (EvUpload p ok)
              (new_events s
                 (process_reference w handle pub_url new_books s))) :
  exists d d' original_title image_files,
    extract_document (document w (trace s) pub_url) = Some d
    /\ p = upload_path w handle d
    /\ extract_document (document w (trace s ++ [EvDocument pub_url]) pub_url)
       = Some d'
    /\ title d' = JStr original_title
    /\ In (EvConvert image_files (written_path w handle d' original_title)
             true)
          (new_events s (process_reference w handle pub_url new_books s))
    /\ (publication_id d' = publication_id d ->
        fstring w (title d) = original_title ->
        (p = written_path w handle d' original_title
         <-> sanitize_filename (unicode w) original_title = original_title)).
Proof.
  pose proof Hin as Hup. apply process_reference_upload in Hup.
  destruct Hup as (d & s2 & Ed & Hp & Ers).
  pose proof Ers as Hrun. apply scrape_publication_true_run in Hrun.
  destruct Hrun as (d' & original_title & names & evs & Ed' & Et' & _ & _
                    & Ht' & _).
  cbn [looked_up_at trace] in Ed'.
  exists d, d', original_title. eexists.
  split; [exact Ed|]. split; [exact Hp|]. split; [exact Ed'|].
  split; [exact Et'|]. split.
  - destruct (process_reference_shape w handle pub_url new_books s)
      as (evs_r & Htr & Hcase).
    cbv zeta in Hcase. apply new_events_app in Htr.
    rewrite Htr in Hin |- *.
    rewrite Ers in Hcase.
    rewrite (new_events_app (looked_up_at s pub_url) (Ret true s2) _ Ht')
      in Hcase.
    assert (Hc : forall tail,
               In (EvConvert
                     (image_files_of
                        (base_dir_of w handle (publication_id d')
                           ++ str "/images") names)
                     (written_path w handle d' original_title) true)
                  (EvDocument pub_url
                     :: (evs ++ [EvConvert
                                   (image_files_of
                                      (base_dir_of w handle
                                         (publication_id d')
                                         ++ str "/images") names)
                                   (written_path w handle d' original_title)
                                   true]) ++ tail)).
    { intros tail. right. apply in_or_app. left. apply in_or_app. right.
      left. reflexivity. }
    destruct Hcase as [([->| ->] & _)|[(-> & _)|[(fp & s' & -> & _)
                       |[(fp & s' & e & -> & _)|[(fp & s' & -> & _)
                       |(fp & s' & rec & -> & _)]]]]].
    + destruct Hin.
    + destruct Hin as [H|[]]. discriminate H.
    + rewrite <- (app_nil_r (evs ++ _)). apply Hc.
    + apply Hc.
    + apply Hc.
    + apply Hc.
    + apply Hc.
  - intros Hid Hf. rewrite Hp, upload_path_base. unfold written_path.
    rewrite Hid, Hf, path_eq. split; intros H; symmetry; exact H.
Qed.

End WorkerPaths2.

Lemma upload_looks_for_unsanitized_title_witness :
  exists d d' original_title image_files,
    extract_document (document fair_world (trace initial) guide_url) = Some d
    /\ str "downloads/acme/pub1/Guide.pdf" = upload_path fair_world acme d
    /\ extract_document
         (document fair_world (trace initial ++ [EvDocument guide_url])
            guide_url)
       = Some d'
    /\ title d' = JStr original_title
    /\ In (EvConvert image_files
             (written_path fair_world acme d' original_title) true)
          (new_events initial
             (process_reference fair_world acme guide_url [] initial))
    /\ (publication_id d' = publication_id d ->
        fstring fair_world (title d) = original_title ->
        (str "downloads/acme/pub1/Guide.pdf"
         = written_path fair_world acme d' original_title
         <-> sanitize_filename (unicode fair_world) original_title
             = original_title)).
Proof.
  apply (@upload_looks_for_unsanitized_title fair_world acme guide_url []
           initial (str "downloads/acme/pub1/Guide.pdf") true).
  vm_compute. do 6 right. left. reflexivity.
Defined.

Lemma processed_publication_skipped_witness :
  process_reference fair_world acme guide_url []
    {| trace := [];
       ledger := Ledger [ {| rec_publication_id := JStr (str "pub1");
                             rec_metadata :=
                               {| bk_title := JStr (str "Guide");
                                  bk_handle := acme;
                                  bk_publish_date := str "2025-03-01";
                                  bk_page_count := JNum 1;
                                  bk_publication_id := JStr (str "pub1");
                                  bk_drive_link := drive_link |};
                             rec_processed_at :=
                               str "2025-03-02T08:00:00" |} ] |}
  = Exc Interrupt
      {| trace := [];
         ledger := Ledger [ {| rec_publication_id := JStr (str "pub1");
                               rec_metadata :=
                                 {| bk_title := JStr (str "Guide");
                                    bk_handle := acme;
                                    bk_publish_date := str "2025-03-01";
                                    bk_page_count := JNum 1;
                                    bk_publication_id := JStr (str "pub1");
                                    bk_drive_link := drive_link |};
                               rec_processed_at :=
                                 str "2025-03-02T08:00:00" |} ] |}
  \/ process_reference fair_world acme guide_url []
       {| trace := [];
          ledger := Ledger [ {| rec_publication_id := JStr (str "pub1");
                                rec_metadata :=
                                  {| bk_title := JStr (str "Guide");
                                     bk_handle := acme;
                                     bk_publish_date := str "2025-03-01";
                                     bk_page_count := JNum 1;
                                     bk_publication_id := JStr (str "pub1");
                                     bk_drive_link := drive_link |};
                                rec_processed_at :=
                                  str "2025-03-02T08:00:00" |} ] |}
     = Ret []
         (after_lookup fair_world
            {| trace := [];
               ledger := Ledger [ {| rec_publication_id := JStr (str "pub1");
                                     rec_metadata :=
                                       {| bk_title := JStr (str "Guide");
                                          bk_handle := acme;
                                          bk_publish_date := str "2025-03-01";
                                          bk_page_count := JNum 1;
                                          bk_publication_id :=
                                            JStr (str "pub1");
                                          bk_drive_link := drive_link |};
                                     rec_processed_at :=
                                       str "2025-03-02T08:00:00" |} ] |}
            guide_url).
Proof.
  refine (@processed_publication_skipped fair_world acme guide_url [] _ _ _ _).
  - vm_compute. reflexivity.
  - vm_compute. reflexivity.
Defined.

(** A publication dated 2025-01-31T00:00:00Z, the cut-off itself, is
    skipped. *)
Lemma publication_not_after_cutoff_skipped_witness :
  looked_up_at initial guide_url = looked_up_at initial guide_url
  /\ (process_reference (dated_world "2025-01-31T00:00:00.000Z") acme
        guide_url [] initial
      = Exc Interrupt initial
      \/ process_reference (dated_world "2025-01-31T00:00:00.000Z") acme
           guide_url [] initial
         = Ret [] (looked_up_at initial guide_url)).
Proof.
  refine (@publication_not_after_cutoff_skipped
            (dated_world "2025-01-31T00:00:00.000Z") acme guide_url []
            initial (dated_descriptor "2025-01-31T00:00:00.000Z") false
            (looked_up_at initial guide_url) _ _ _).
  - vm_compute. reflexivity.
  - vm_compute. reflexivity.
  - right. exists (str "2025-01-31T00:00:00.000Z"), CUTOFF_DATE.
    split; [|split]; vm_compute; reflexivity.
Defined.

(** One millisecond later it is processed. *)
Example publication_just_after_cutoff_processed :
  List.map bk_publish_date
    (match process_reference (dated_world "2025-01-31T00:00:00.001Z") acme
             guide_url [] initial with
     | Ret books _ => books
     | Exc _ _ => []
     end)
  = [str "2025-01-31"].
Proof. vm_compute. reflexivity. Qed.

Lemma publication_with_bad_date_raises_witness :
  process_reference (dated_world "soon") acme guide_url [] initial
  = Exc Interrupt initial
  \/ process_reference (dated_world "soon") acme guide_url [] initial
     = Exc Exception (after_lookup (dated_world "soon") initial guide_url).
Proof.
  refine (@publication_with_bad_date_raises (dated_world "soon") acme
            guide_url [] initial (dated_descriptor "soon") _ _ _ _ _).
  - vm_compute. reflexivity.
  - discriminate.
  - vm_compute. reflexivity.
  - vm_compute. reflexivity.
  - intros date_text E. inversion E. vm_compute. reflexivity.
Defined.

(** A date without a time zone cannot be compared with the cut-off. *)
Example publication_with_naive_date_raises :
  process_reference (dated_world "2025-03-01T12:00:00") acme guide_url []
    initial
  = Exc Exception (looked_up_at initial guide_url).
Proof. vm_compute. reflexivity. Qed.

(** ** The loops of [main] and the mail *)

Section BookKeeping.

Variable w : world.

Lemma distinct_ids_snoc (records : list processed_record)
    (record : processed_record) :
  distinct_ids records ->
  is_processed records (rec_publication_id record) = false ->
  distinct_ids (records ++ [record]).
Proof.
  unfold distinct_ids, is_processed. intros Hd Hp.
  induction Hd as [|a l Ha Hl IH]; cbn [app].
  - constructor; constructor.
  - cbn [existsb] in Hp. apply orb_false_iff in Hp. destruct Hp as [Hp1 Hp2].
    constructor; [|exact (IH Hp2)].
    apply Forall_app. split; [exact Ha|]. constructor; [exact Hp1|constructor].
Qed.

Lemma book_keeping_same (acc : list book_info) (s : state)
    (r : result (list book_info)) :
  records_of (ledger (final_state r)) = records_of (ledger s) ->
  (forall books s', r = Ret books s' -> books = acc) ->
  book_keeping w acc s r.
Proof.
  intros Hl Hr. split; [intros Hd; rewrite Hl; exact Hd|].
  left. exists []. cbn [map]. rewrite !app_nil_r.
  split; [exact Hl|]. intros books s' E. exact (Hr _ _ E).
Qed.

Lemma book_keeping_reference (handle pub_url : pystr)
    (new_books : list book_info) (s : state) :
  book_keeping w new_books s (process_reference w handle pub_url new_books s).
Proof.
  pose proof (process_reference_otherwise w handle pub_url new_books s)
    as Hcase.
  cbv zeta in Hcase.
  destruct Hcase
    as [(d & pub_date & s2 & web_link & Hp & Hw)
       |[(Hu & Hb)
        |(Hun & (s' & Hr) & (d & pub_date & s2 & web_link & _ & Hcut))]].
  - destruct (@process_reference_completes w handle pub_url new_books s d
                pub_date s2 web_link Hp Hw)
      as (record & s' & Hr & Hl & Hid & _).
    destruct Hp as (_ & _ & Hlook & _).
    pose proof (lookup_runs w (publication_id d)
                  {| trace := trace s ++ [EvDocument pub_url];
                     ledger := ledger s |}) as Hb.
    rewrite Hlook in Hb. destruct Hb as (_ & Hb & _). cbn [ledger] in Hb.
    rewrite Hr. unfold book_keeping. cbn [final_state]. rewrite Hl.
    cbn [records_of]. split.
    + intros Hd. apply distinct_ids_snoc; [exact Hd|].
      rewrite Hid. symmetry. exact Hb.
    + left. exists [record]. split; [reflexivity|].
      intros books s'' E. inversion E. reflexivity.
  - apply book_keeping_same; assumption.
  - split; [intros _; rewrite Hun; constructor|].
    right. split; [exact Hun|]. split; [now exists s'|].
    eexists. exact Hcut.
Qed.

Lemma book_keeping_bind {A} (m : M A) (k : A -> M (list book_info))
    (acc : list book_info) (s : state) :
  (records_of (ledger (final_state (m s))) = records_of (ledger s)) ->
  (forall a s1, m s = Ret a s1 -> book_keeping w acc s1 (k a s1)) ->
  book_keeping w acc s (bind m k s).
Proof.
  intros Hm Hk. unfold bind. destruct (m s) as [a s1|e s1] eqn:Em;
    cbn [final_state] in Hm.
  - destruct (Hk a s1 eq_refl) as (Hd & Hcase). rewrite Hm in Hd, Hcase.
    split; assumption.
  - apply book_keeping_same; [exact Hm|]. intros books s' E. discriminate E.
Qed.

Lemma book_keeping_for_each {X} (xs : list X)
    (body : X -> list book_info -> M (list book_info)) :
  (forall x acc s, book_keeping w acc s (body x acc s)) ->
  forall acc s, book_keeping w acc s (for_each xs body acc s).
Proof.
  intros Hbody. induction xs as [|x xs IH]; intros acc s.
  - apply book_keeping_same; [reflexivity|].
    intros books s' E. cbv [for_each ret] in E. now inversion E.
  - cbn [for_each]. unfold bind.
    destruct (Hbody x acc s) as (Hd1 & Hc1).
    destruct (body x acc s) as [acc1 s1|e s1] eqn:E1;
      cbn [final_state] in Hd1, Hc1.
    + destruct Hc1 as [(add1 & Hl1 & Hr1)|(_ & (s' & Hx) & _)];
        [|discriminate Hx].
      destruct (IH acc1 s1) as (Hd2 & Hc2).
      split; [intros Hd; exact (Hd2 (Hd1 Hd))|].
      destruct Hc2 as [(add2 & Hl2 & Hr2)|H]; [left | right; exact H].
      exists (add1 ++ add2).
      split; [rewrite Hl2, Hl1; now rewrite <- app_assoc|].
      intros books s' E. rewrite (Hr2 _ _ E), (Hr1 _ _ eq_refl).
      now rewrite map_app, <- app_assoc.
    + split; [exact Hd1 | exact Hc1].
Qed.

Lemma book_keeping_handle (handle : pystr) (new_books : list book_info)
    (s : state) :
  book_keeping w new_books s (process_handle w handle new_books s).
Proof.
  unfold process_handle. apply book_keeping_bind.
  - match goal with
    | |- context [io w ?a ?e s] => destruct (io_cases w a e s) as [[_ E]|[_ E]]
    end; rewrite E; reflexivity.
  - intros publications s1 _. apply book_keeping_for_each.
    intros x acc s2. apply book_keeping_reference.
Qed.

Lemma book_keeping_loops (handles : list pystr) (s : state) :
  book_keeping w [] s (for_each handles (process_handle w) [] s).
Proof. apply book_keeping_for_each. intros. apply book_keeping_handle. Qed.

End BookKeeping.

Section MainMore.

Variable w : world.

(** How [main] ends, by the way its loops end. *)
Lemma main_cases (s : state) :
  main w s = Exc Exception s
  \/ exists config,
       load_config w = Some config
       /\ match for_each (issuu_handles config) (process_handle w) [] s with
          | Exc e s1 => main w s = Exc e s1
          | Ret [] s1 => main w s = Ret tt s1
          | Ret (book :: books) s1 =>
              main w s = Exc Interrupt s1
              \/ exists (ok : bool) s2,
                   s2 = {| trace := trace s1 ++ [EvEmail (book :: books) ok];
                           ledger := ledger s1 |}
                   /\ main w s = if ok then Ret tt s2 else Exc Exception s2
          end.
Proof.
  remember (main w s) as r eqn:Hr. unfold main, try_except in Hr.
  destruct (load_config w) as [config|]; [|now left].
  destruct (drive_service_ok w); cbn [negb] in Hr; [|now left].
  right. exists config. split; [reflexivity|]. unfold bind at 1 in Hr.
  destruct (for_each (issuu_handles config) (process_handle w) [] s)
    as [[|book books] s1|e s1].
  - exact Hr.
  - unfold send_email in Hr. revert Hr.
    match goal with
    | |- context [bind (io w ?a ?e) ?k s1] =>
        destruct (bind_io_cases w a e k s1) as [[_ E]|[_ E]]; rewrite E
    end; intros Hr; [now left|].
    right. exists (smtp_ok w (trace s1)). eexists. split; [reflexivity|].
    rewrite Hr. destruct (smtp_ok w (trace s1)); reflexivity.
  - rewrite Hr. destruct e; reflexivity.
Qed.

(** A run of [main] leaves no publication twice in a ledger that held none
    twice: a publication is recorded only if no record of the ledger has an
    id equal to its own.  The records of the run are added at the end of the
    ledger, unless a write of the ledger file is cut short: [open(..., 'w')]
    has emptied the file and [json.dump] did not finish.  Then the file no
    longer parses, the records it held are lost, and the run ends with the
    exception. *)
Theorem main_records_no_publication_twice (s : state)
    (Hd : distinct_ids (records_of (ledger s))) :
  let r := main w s in
  distinct_ids (records_of (ledger (final_state r)))
  /\ ((exists added,
         records_of (ledger (final_state r)) = records_of (ledger s) ++ added
         /\ distinct_ids (records_of (ledger s) ++ added))
      \/ (ledger (final_state r) = Unparseable
          /\ (exists s', r = Exc Exception s')
          /\ exists h, ledger_write w h = Cut)).
Proof.
  cbv zeta.
  destruct (main_cases s) as [E|(config & _ & Hcase)].
  { rewrite E. cbn [final_state]. split; [exact Hd|]. left.
    exists []. rewrite app_nil_r. split; [reflexivity | exact Hd]. }
  destruct (book_keeping_loops w (issuu_handles config) s) as (Hdist & Hc).
  specialize (Hdist Hd).
  assert (Hleft : forall s1 : state,
             (exists added,
                records_of (ledger s1) = records_of (ledger s) ++ added
                /\ forall books s', @Ret (list book_info) [] s1 = Ret books s'
                                    -> True) ->
             distinct_ids (records_of (ledger s1)) ->
             exists added,
               records_of (ledger s1) = records_of (ledger s) ++ added
               /\ distinct_ids (records_of (ledger s) ++ added)).
  { intros s1 (added & Hl & _) H. exists added.
    split; [exact Hl | rewrite <- Hl; exact H]. }
  destruct (for_each (issuu_handles config) (process_handle w) [] s)
    as [[|book books] s1|e s1]; cbn [final_state] in Hdist, Hc.
  - rewrite Hcase. cbn [final_state]. split; [exact Hdist|].
    destruct Hc as [(added & Hl & _)|(_ & (s' & Hx) & _)];
      [|discriminate Hx].
    left. apply Hleft; [|exact Hdist]. exists added. now split.
  - assert (Hl1 : ledger (final_state (main w s)) = ledger s1).
    { destruct Hcase as [E|([|] & s2 & -> & E)]; rewrite E; reflexivity. }
    rewrite Hl1. split; [exact Hdist|].
    destruct Hc as [(added & Hl & _)|(_ & (s' & Hx) & _)];
      [|discriminate Hx].
    left. apply Hleft; [|exact Hdist]. exists added. now split.
  - rewrite Hcase. cbn [final_state]. split; [exact Hdist|].
    destruct Hc as [(added & Hl & _)|(Hun & (s' & Hx) & Hcut)].
    + left. apply Hleft; [|exact Hdist]. exists added. now split.
    + right. split; [exact Hun|]. split; [|exact Hcut].
      inversion Hx. now exists s'.
Qed.

(** The mail of a run of [main] is the last thing the run does, and the only
    mail of the run; it lists the books of the records this run added to the
    ledger, all of them and in their order, and there is at least one; the
    run ends well if the mail was sent and with an exception if not. *)
Theorem mail_lists_the_new_records (s : state) (books : list book_info)
    (ok : bool) :
  let r := main w s in
  let evs := new_events s r in
  In (EvEmail books ok) evs ->
  exists before added,
    evs = before ++ [EvEmail books ok]
    /\ existsb is_email before = false
    /\ records_of (ledger (final_state r)) = records_of (ledger s) ++ added
    /\ books = List.map rec_metadata added
    /\ added <> []
    /\ exists s', r = if ok then Ret tt s' else Exc Exception s'.
Proof.
  intros r evs Hin. unfold evs, r in *. clear r evs.
  destruct (main_cases s) as [E|(config & _ & Hcase)].
  { rewrite E, new_events_self in Hin. destruct Hin. }
  destruct (book_keeping_loops w (issuu_handles config) s) as (_ & Hkeep).
  destruct (upload_discipline_for_each (issuu_handles config)
              (process_handle w) (upload_discipline_handle w) [] s)
    as (evs1 & Ht & He & _).
  assert (Hno : ~ In (EvEmail books ok) evs1).
  { intros H.
    assert (Hyes : existsb is_email evs1 = true).
    { apply existsb_exists. exists (EvEmail books ok).
      split; [exact H | reflexivity]. }
    rewrite He in Hyes. discriminate Hyes. }
  destruct (for_each (issuu_handles config) (process_handle w) [] s)
    as [[|book new_books] s1|e s1]; cbn [final_state] in Hkeep, Ht.
  - rewrite Hcase in Hin.
    rewrite (new_events_app s (Ret tt s1) evs1 Ht) in Hin. contradiction.
  - destruct Hcase as [E|(sent & s2 & Hs2 & E)].
    { rewrite E in Hin.
      rewrite (new_events_app s (Exc Interrupt s1) evs1 Ht) in Hin.
      contradiction. }
    assert (Hev : new_events s (main w s)
                  = evs1 ++ [EvEmail (book :: new_books) sent]).
    { apply new_events_app. rewrite E.
      destruct sent; cbn [final_state]; rewrite Hs2; cbn [trace];
        rewrite Ht; now rewrite <- app_assoc. }
    rewrite Hev in Hin |- *. apply in_app_or in Hin.
    destruct Hin as [Hin|[Hin|[]]]; [contradiction|].
    inversion Hin; subst books ok. clear Hin.
    destruct Hkeep as [(added & Hl & Hb)|(_ & (s' & Hx) & _)];
      [|discriminate Hx].
    exists evs1, added. split; [reflexivity|]. split; [exact He|].
    split; [rewrite E, Hs2; destruct sent; exact Hl|].
    pose proof (Hb _ _ eq_refl) as Hbooks. cbn [app] in Hbooks.
    split; [exact Hbooks|]. split.
    + intros Ha. rewrite Ha in Hbooks. discriminate Hbooks.
    + eexists. rewrite E. destruct sent; reflexivity.
  - rewrite Hcase in Hin.
    rewrite (new_events_app s (Exc e s1) evs1 Ht) in Hin. contradiction.
Qed.

End MainMore.

Lemma main_records_no_publication_twice_witness :
  distinct_ids (records_of (ledger (final_state (main fair_world initial))))
  /\ ((exists added,
         records_of (ledger (final_state (main fair_world initial)))
         = records_of (ledger initial) ++ added
         /\ distinct_ids (records_of (ledger initial) ++ added))
      \/ (ledger (final_state (main fair_world initial)) = Unparseable
          /\ (exists s', main fair_world initial = Exc Exception s')
          /\ exists h, ledger_write fair_world h = Cut)).
Proof.
  apply (@main_records_no_publication_twice fair_world initial).
  constructor.
Defined.

Lemma mail_lists_the_new_records_witness :
  exists books before added,
    new_events initial (main fair_world initial)
    = before ++ [EvEmail books true]
    /\ existsb is_email before = false
    /\ records_of (ledger (final_state (main fair_world initial)))
       = records_of (ledger initial) ++ added
    /\ books = List.map rec_metadata added
    /\ added <> []
    /\ exists s', main fair_world initial = Ret tt s'.
Proof.
  eexists.
  refine (@mail_lists_the_new_records fair_world initial _ true _).
  vm_compute. do 17 right. left. reflexivity.
Defined.

(** *** A ledger write that fails *)

Section FailedWrite.

Variable w : world.

Local Ltac step_io_with Hi :=
  match goal with
  | |- context [bind (io w ?a ?e) ?k ?s] =>
      let E := fresh "E" in
      destruct (bind_io_cases w a e k s) as [[Hi E]|[Hi E]]; rewrite E;
      clear E; cbv beta
  end.

(** When the pipeline completed and the ledger write fails, the loop body
    raises after the upload: the publication is on the drive and not in the
    ledger.  A write that [open] refuses leaves the ledger as the look into
    it left it.  A write that is cut short, the file emptied by [open] and
    [json.dump] not finished, leaves a file that does not parse: the records
    it held are lost. *)
Theorem failed_write_after_upload (handle pub_url : pystr)
    (new_books : list book_info) (s : state) (d : doc_data)
    (pub_date : datetime) (s2 : state) (web_link : json)
    (write : write_result)
    (Hp : pipeline_completed w s handle pub_url d pub_date s2 web_link)
    (Hh : ledger s2 <> Hollow)
    (Hi : interrupted w (trace s2 ++ [EvUpload (upload_path w handle d) true])
          = false)
    (Hw : ledger_write w
            (trace s2 ++ [EvUpload (upload_path w handle d) true; EvNow])
          = write)
    (Hf : write <> Written) :
  process_reference w handle pub_url new_books s
  = Exc Exception
      {| trace := trace s2 ++ [EvUpload (upload_path w handle d) true; EvNow];
         ledger := match write with
                   | Cut => Unparseable
                   | _ => Ledger (records_of (ledger s))
                   end |}.
Proof.
  destruct Hp as (Hi0 & Ed & Hlook & (date_text & Edate & Hne & Eparse) & Ele
                  & Ers & Hi2 & Eup).
  pose proof (lookup_runs w (publication_id d)
                {| trace := trace s ++ [EvDocument pub_url];
                   ledger := ledger s |}) as Hl0.
  rewrite Hlook in Hl0. destruct Hl0 as (_ & _ & Hlist).
  cbn [ledger] in Hlist.
  destruct (scrape_publication_extends w handle pub_url
              (looked_up_at s pub_url)) as (_ & Hl & _ & _).
  cbv zeta in Hl. rewrite Ers in Hl. cbn [final_state] in Hl.
  assert (El : ledger s2 = Ledger (records_of (ledger s))).
  { destruct Hlist as [E|E]; [now rewrite Hl|].
    elim Hh. rewrite Hl. exact E. }
  apply truthy_text in Hne.
  unfold process_reference, get_document_data.
  rewrite bind_bind. step_io_with Hi'; [congruence|].
  rewrite bind_ret, Ed. unfold bind at 1. rewrite Hlook, Edate, Hne.
  cbn [negb]. rewrite Eparse, Ele. unfold bind at 1. rewrite Ers.
  unfold upload_to_drive. rewrite bind_bind.
  fold (upload_path w handle d).
  step_io_with Hi''; [congruence|]. rewrite Eup, bind_ret.
  unfold bind at 1. rewrite El.
  match goal with
  | |- context [save_processed_publication w ?i ?m
                  {| trace := ?t; ledger := Ledger ?l |}] =>
      destruct (save_runs w i m t l) as [[Hi3 E]|[_ E]]; cbv zeta in E
  end; [congruence|].
  rewrite <- app_assoc in E. cbn [app] in E. rewrite Hw in E.
  destruct write; [contradiction | rewrite E | rewrite E]; reflexivity.
Qed.

End FailedWrite.

(** The ledger holds the record of an earlier run; the write after the
    upload of the sample publication is cut short. *)
Lemma failed_write_after_upload_witness :
  process_reference (written_world Cut) acme guide_url []
    {| trace := []; ledger := Ledger [earlier_record] |}
  = Exc Exception
      {| trace :=
           [ EvDocument guide_url;
             EvDocument guide_url;
             EvMakedirs pub1_images;
             EvImage FirstPass 1 (pub1_images ++ str "/page_001.jpg") true;
             EvListdir pub1_images;
             EvConvert [pub1_images ++ str "/page_001.jpg"]
               (str "downloads/acme/pub1/Guide.pdf") true;
             EvUpload (str "downloads/acme/pub1/Guide.pdf") true;
             EvNow ];
         ledger := Unparseable |}.
Proof.
  refine (@failed_write_after_upload (written_world Cut) acme guide_url []
            {| trace := []; ledger := Ledger [earlier_record] |}
            guide_descriptor guide_date
            (final_state
               (scrape_publication (written_world Cut) acme guide_url
                  (looked_up_at
                     {| trace := []; ledger := Ledger [earlier_record] |}
                     guide_url)))
            drive_link Cut _ _ _ _ _).
  - split; [reflexivity|]. split; [reflexivity|].
    split; [vm_compute; reflexivity|].
    split; [exists (str "2025-03-01T12:00:00.000Z");
            split; [reflexivity | split; [discriminate | reflexivity]]|].
    split; [reflexivity|]. split; [vm_compute; reflexivity|].
    split; reflexivity.
  - discriminate.
  - reflexivity.
  - reflexivity.
  - discriminate.
Defined.

(** The run after it starts from an empty ledger: the record of the earlier
    run is gone, and both publications are processed. *)
Example run_after_a_cut_write :
  List.map rec_publication_id
    (records_of
       (ledger (final_state
                  (main fair_world {| trace := []; ledger := Unparseable |}))))
  = [JStr (str "pub1"); JStr (str "pub2")].
Proof. vm_compute. reflexivity. Qed.

(** *** A ledger file on which the look into it raises *)

Section MalformedLedger.

Variable w : world.

Lemma only_looked_up_refl (s : state) : only_looked_up s s.
Proof.
  intros Hl. split; [reflexivity|]. exists []. now rewrite app_nil_r.
Qed.

Lemma only_looked_up_trans (s1 s2 s3 : state) :
  only_looked_up s1 s2 -> only_looked_up s2 s3 -> only_looked_up s1 s3.
Proof.
  intros H12 H23 Hl. destruct (H12 Hl) as (Hl2 & evs1 & Ht1 & Hq1).
  rewrite <- Hl2 in Hl.
  destruct (H23 Hl) as (Hl3 & evs2 & Ht2 & Hq2).
  split; [now rewrite Hl3|]. exists (evs1 ++ evs2).
  split; [rewrite Ht2, Ht1; now rewrite <- app_assoc|].
  apply Forall_app. split; assumption.
Qed.

Lemma only_looked_up_for_each {X A} (xs : list X) (body : X -> A -> M A) :
  (forall x acc s, only_looked_up s (final_state (body x acc s))) ->
  forall acc s, only_looked_up s (final_state (for_each xs body acc s)).
Proof.
  intros Hbody. induction xs as [|x xs IH]; intros acc s.
  - apply only_looked_up_refl.
  - cbn [for_each]. unfold bind. specialize (Hbody x acc s).
    destruct (body x acc s) as [acc1 s1|e s1]; cbn [final_state] in Hbody.
    + exact (only_looked_up_trans Hbody (IH acc1 s1)).
    + exact Hbody.
Qed.

Lemma only_looked_up_reference (handle pub_url : pystr)
    (new_books : list book_info) (s : state) :
  only_looked_up s
    (final_state (process_reference w handle pub_url new_books s)).
Proof.
  intros Hl. unfold process_reference, get_document_data.
  rewrite bind_bind.
  match goal with
  | |- context [bind (io w ?a ?e) ?k ?s] =>
      destruct (bind_io_cases w a e k s) as [[_ E]|[_ E]]; rewrite E; clear E;
      cbv beta
  end.
  { cbn [final_state]. now apply only_looked_up_refl. }
  rewrite bind_ret.
  assert (Hdoc : forall r : result (list book_info),
             final_state r = {| trace := trace s ++ [EvDocument pub_url];
                                ledger := ledger s |} ->
             ledger (final_state r) = ledger s
             /\ exists evs, trace (final_state r) = trace s ++ evs
                            /\ Forall (fun e => is_lookup e = true) evs).
  { intros r ->. split; [reflexivity|]. exists [EvDocument pub_url].
    split; [reflexivity | repeat constructor]. }
  destruct (extract_document (document w (trace s) pub_url)) as [d|];
    [|apply Hdoc; reflexivity].
  assert (Hlook : forall k : bool -> M (list book_info),
             bind (is_publication_processed w (publication_id d)) k
               {| trace := trace s ++ [EvDocument pub_url];
                  ledger := ledger s |}
             = Exc Exception
                 {| trace := trace s ++ [EvDocument pub_url];
                    ledger := ledger s |})
    by (intros k; destruct Hl as [E|E]; rewrite E; reflexivity).
  rewrite Hlook. apply Hdoc. reflexivity.
Qed.

Lemma only_looked_up_handle (handle : pystr) (new_books : list book_info)
    (s : state) :
  only_looked_up s (final_state (process_handle w handle new_books s)).
Proof.
  unfold process_handle.
  match goal with
  | |- context [bind (io w ?a ?e) ?k ?s] =>
      destruct (bind_io_cases w a e k s) as [[_ E]|[_ E]]; rewrite E; clear E;
      cbv beta
  end.
  { apply only_looked_up_refl. }
  eapply only_looked_up_trans;
    [|apply only_looked_up_for_each; intros; apply only_looked_up_reference].
  intros Hl. split; [reflexivity|]. exists [EvListing handle].
  split; [reflexivity | repeat constructor].
Qed.

(** With a ledger file on which the look into the ledger raises, a run of
    [main] does nothing but list the handles and request pages: the first
    publication that resolves raises at the look into the ledger.  Such a
    file is one that cannot be opened or decoded, and one that parses but
    is no object, has no "processed_publications", or holds there what
    cannot be iterated.  No image is fetched, nothing is uploaded or mailed,
    and the file stays as it is.  (A file that holds an empty object or an
    empty string there is not such a file: with it the look into the ledger
    answers [False].) *)
Theorem malformed_ledger_blocks_the_run (s : state)
    (Hl : ledger s = Malformed \/ ledger s = Unreadable) :
  let r := main w s in
  ledger (final_state r) = ledger s
  /\ Forall (fun e => is_lookup e = true) (new_events s r).
Proof.
  cbv zeta.
  assert (H : only_looked_up s (final_state (main w s))).
  { destruct (main_cases w s) as [E|(config & _ & Hcase)].
    { rewrite E. apply only_looked_up_refl. }
    pose proof (only_looked_up_for_each (issuu_handles config)
                  (process_handle w) (only_looked_up_handle) [] s) as Hloop.
    destruct (book_keeping_loops w (issuu_handles config) s)
      as (_ & Hkeep).
    destruct (for_each (issuu_handles config) (process_handle w) [] s)
      as [[|book books] s1|e s1]; cbn [final_state] in Hloop, Hkeep.
    - rewrite Hcase. exact Hloop.
    - exfalso. destruct (Hloop Hl) as (Hl1 & _).
      destruct Hkeep as [(added & Hrec & Hb)|(_ & (s' & Hx) & _)];
        [|discriminate Hx].
      rewrite Hl1 in Hrec.
      assert (Hnil : records_of (ledger s) = [])
        by (destruct Hl as [E|E]; rewrite E; reflexivity).
      rewrite Hnil in Hrec. cbn [app] in Hrec. subst added.
      specialize (Hb _ _ eq_refl). discriminate Hb.
    - rewrite Hcase. exact Hloop. }
  destruct (H Hl) as (Hl' & evs & Ht & Hq).
  split; [exact Hl'|]. rewrite (new_events_app s (main w s) evs Ht).
  exact Hq.
Qed.

End MalformedLedger.

Lemma malformed_ledger_blocks_the_run_witness :
  ledger (final_state (main fair_world {| trace := []; ledger := Unreadable |}))
  = Unreadable
  /\ Forall (fun e => is_lookup e = true)
       (new_events {| trace := []; ledger := Unreadable |}
          (main fair_world {| trace := []; ledger := Unreadable |})).
Proof.
  apply (@malformed_ledger_blocks_the_run fair_world
           {| trace := []; ledger := Unreadable |}).
  right. reflexivity.
Defined.

(** *** A ledger file with no list to append to *)

Section HollowLedger.

Variable w : world.

Local Ltac step_io :=
  match goal with
  | |- context [bind (io w ?a ?e) ?k ?s] =>
      destruct (bind_io_cases w a e k s) as [[_ E]|[_ E]]; rewrite E; clear E;
      cbv beta
  end.

Lemma nothing_kept_quiet {A} (acc : A) (s : state) (r : result A)
    (evs : history) :
  (ledger s = Hollow -> ledger (final_state r) = Hollow) ->
  trace (final_state r) = trace s ++ evs ->
  existsb is_email evs = false ->
  existsb is_upload evs = false ->
  match r with Ret a _ => a = acc | Exc _ _ => True end ->
  nothing_kept acc s r.
Proof.
  intros Hl Ht He Hu Hr Hs. split; [exact (Hl Hs)|]. exists evs.
  split; [exact Ht|]. split; [exact He|].
  destruct r; [split; assumption | left; exact Hu].
Qed.

Lemma nothing_kept_for_each {X A} (xs : list X) (body : X -> A -> M A) :
  (forall x acc s, nothing_kept acc s (body x acc s)) ->
  forall acc s, nothing_kept acc s (for_each xs body acc s).
Proof.
  intros Hbody. induction xs as [|x xs IH]; intros acc s.
  - apply (@nothing_kept_quiet _ acc s _ []); cbn; rewrite ?app_nil_r;
      auto.
  - cbn [for_each]. unfold bind. intros Hl.
    pose proof (Hbody x acc s Hl) as H1.
    destruct (body x acc s) as [acc1 s1|e s1]; [|exact H1].
    cbn [final_state] in H1.
    destruct H1 as (Hl1 & evs1 & Ht1 & He1 & -> & Hu1).
    destruct (IH acc s1 Hl1) as (Hl2 & evs2 & Ht2 & He2 & H2).
    split; [exact Hl2|]. exists (evs1 ++ evs2).
    split; [rewrite Ht2, Ht1; now rewrite <- app_assoc|].
    split; [rewrite existsb_app, He1, He2; reflexivity|].
    destruct (for_each xs body acc s1) as [a s2|e s2].
    + destruct H2 as (-> & Hu2). split; [reflexivity|].
      rewrite existsb_app, Hu1, Hu2. reflexivity.
    + destruct H2 as [Hu2|(before & p & ok & -> & Hb)].
      * left. rewrite existsb_app, Hu1, Hu2. reflexivity.
      * right. exists (evs1 ++ before), p, ok.
        split; [now rewrite app_assoc|].
        rewrite existsb_app, Hu1, Hb. reflexivity.
Qed.

Lemma nothing_kept_reference_at (handle pub_url : pystr)
    (new_books : list book_info) (t : history) :
  nothing_kept new_books {| trace := t; ledger := Hollow |}
    (process_reference w handle pub_url new_books
       {| trace := t; ledger := Hollow |}).
Proof.
  unfold process_reference, get_document_data.
  rewrite bind_bind. step_io; cbn [trace ledger].
  { apply (@nothing_kept_quiet _ _ _ _ []); cbn; rewrite ?app_nil_r;
      auto. }
  rewrite bind_ret.
  set (s := {| trace := t; ledger := Hollow |}).
  set (s1 := {| trace := t ++ [EvDocument pub_url]; ledger := Hollow |}).
  assert (Hquiet : forall r : result (list book_info),
             final_state r = s1 ->
             match r with
             | Ret books _ => books = new_books
             | Exc _ _ => True
             end ->
             nothing_kept new_books s r).
  { intros r Hr Hb.
    apply (@nothing_kept_quiet _ _ s r [EvDocument pub_url]); auto;
      try (intros _); rewrite Hr; reflexivity. }
  destruct (extract_document (document w t pub_url)) as [d|] eqn:Ed;
    [|apply Hquiet; reflexivity].
  unfold bind at 1.
  change (is_publication_processed w (publication_id d) s1)
    with (@Ret bool false s1).
  cbv iota beta.
  destruct (truthy (originalPublishDateInISOString d)); cbn [negb];
    [|apply Hquiet; reflexivity].
  destruct (originalPublishDateInISOString d) as [| | |date_text| |];
    try (apply Hquiet; [reflexivity | exact I]).
  destruct (parse w date_text) as [pub_date|];
    [|apply Hquiet; [reflexivity | exact I]].
  destruct (datetime_le pub_date CUTOFF_DATE) as [[|]|];
    [apply Hquiet; reflexivity | | apply Hquiet; [reflexivity | exact I]].
  destruct (scrape_publication_extends w handle pub_url s1)
    as (Ht & Hl1 & Hscr & _).
  cbv zeta in Ht, Hl1, Hscr. unfold bind at 1.
  assert (Hs1 : forall evs, trace s1 ++ evs
                            = trace s ++ EvDocument pub_url :: evs)
    by (intros evs; unfold s1, s; cbn [trace]; now rewrite <- app_assoc).
  pose proof (scrape_events_no_upload Hscr) as Hnu.
  destruct (scrape_events_quiet Hscr) as (Hne & _).
  change (ledger s1) with Hollow in Hl1.
  assert (Hstill : forall r : result (list book_info),
             ledger (final_state r) = Hollow ->
             trace (final_state r)
             = trace (final_state (scrape_publication w handle pub_url s1)) ->
             match r with
             | Ret books _ => books = new_books
             | Exc _ _ => True
             end ->
             nothing_kept new_books s r).
  { intros r Hlr Htr Hb.
    apply (@nothing_kept_quiet _ _ s r
             (EvDocument pub_url
                :: new_events s1 (scrape_publication w handle pub_url s1)));
      auto.
    rewrite Htr, Ht, Hs1. reflexivity. }
  destruct (scrape_publication w handle pub_url s1) as [[|] s2|e s2] eqn:Ers;
    cbn [final_state] in Ht, Hl1, Hstill.
  - unfold upload_to_drive. rewrite bind_bind. step_io.
    { apply Hstill; [exact Hl1 | reflexivity | exact I]. }
    match goal with
    | |- context [drive_upload w ?h ?x] =>
        set (file_path := x); destruct (drive_upload w h file_path)
          as [web_link|]
    end.
    + rewrite bind_ret. unfold bind at 1. rewrite Hl1, save_hollow.
      intros _. split; [reflexivity|].
      exists (EvDocument pub_url
                :: new_events s1 (Ret true s2) ++ [EvUpload file_path true]).
      split; [cbn [final_state trace]; rewrite Ht, <- app_assoc, Hs1;
              reflexivity|].
      split; [cbn [existsb is_email]; rewrite existsb_app, Hne;
              reflexivity|].
      right. exists (EvDocument pub_url :: new_events s1 (Ret true s2)),
               file_path, true.
      split; [reflexivity|]. cbn [existsb is_upload]. exact Hnu.
    + rewrite bind_raise. intros _. split; [exact Hl1|].
      exists (EvDocument pub_url
                :: new_events s1 (Ret true s2) ++ [EvUpload file_path false]).
      split; [cbn [final_state trace]; rewrite Ht, <- app_assoc, Hs1;
              reflexivity|].
      split; [cbn [existsb is_email]; rewrite existsb_app, Hne;
              reflexivity|].
      right. exists (EvDocument pub_url :: new_events s1 (Ret true s2)),
               file_path, false.
      split; [reflexivity|]. cbn [existsb is_upload]. exact Hnu.
  - apply Hstill; [exact Hl1 | reflexivity | reflexivity].
  - apply Hstill; [exact Hl1 | reflexivity | exact I].
Qed.

Lemma nothing_kept_reference (handle pub_url : pystr)
    (new_books : list book_info) (s : state) :
  nothing_kept new_books s
    (process_reference w handle pub_url new_books s).
Proof.
  destruct s as [t l]. intros Hl. cbn [ledger] in Hl. subst l.
  now apply nothing_kept_reference_at.
Qed.

Lemma nothing_kept_handle (handle : pystr) (new_books : list book_info)
    (s : state) :
  nothing_kept new_books s (process_handle w handle new_books s).
Proof.
  unfold process_handle. step_io.
  { apply (@nothing_kept_quiet _ _ s _ []); cbn; rewrite ?app_nil_r;
      auto. }
  intros Hl.
  match goal with
  | |- context [for_each ?xs ?body ?acc ?st] =>
      destruct (@nothing_kept_for_each _ _ xs body
                  (fun x acc s => nothing_kept_reference handle x acc s)
                  acc st Hl) as (Hl2 & evs & Ht & He & H2);
      set (r := for_each xs body acc st) in *
  end.
  cbn [trace] in Ht.
  split; [exact Hl2|]. exists (EvListing handle :: evs).
  split; [rewrite Ht, <- app_assoc; reflexivity|].
  split; [exact He|].
  destruct r as [a s2|e s2].
  - exact H2.
  - destruct H2 as [Hu|(before & p & ok & -> & Hb)]; [left; exact Hu|].
    right. exists (EvListing handle :: before), p, ok.
    split; [reflexivity | exact Hb].
Qed.

(** With a ledger file that holds an empty object or an empty string where
    the list of processed publications should be, no publication counts as
    processed, and the first one that is due is fetched, assembled and
    uploaded; then [save_processed_publication] raises at [.append].  The
    upload, whether it succeeded or not, is the last thing such a run does,
    and the run raises; nothing is recorded, the file stays as it is, and no
    mail is sent. *)
Theorem hollow_ledger_uploads_and_raises (s : state)
    (Hl : ledger s = Hollow) :
  let r := main w s in
  let evs := new_events s r in
  ledger (final_state r) = Hollow
  /\ existsb is_email evs = false
  /\ forall file_path ok,
       In (EvUpload file_path ok) evs ->
       exists before e s',
         evs = before ++ [EvUpload file_path ok]
         /\ existsb is_upload before = false
         /\ r = Exc e s'.
Proof.
  cbv zeta.
  assert (Hfin : forall (r : result unit) evs,
             trace (final_state r) = trace s ++ evs ->
             existsb is_email evs = false ->
             (existsb is_upload evs = false
              \/ exists before p ok e s',
                   evs = before ++ [EvUpload p ok]
                   /\ existsb is_upload before = false
                   /\ r = Exc e s') ->
             existsb is_email (new_events s r) = false
             /\ forall file_path ok,
                  In (EvUpload file_path ok) (new_events s r) ->
                  exists before e s',
                    new_events s r = before ++ [EvUpload file_path ok]
                    /\ existsb is_upload before = false
                    /\ r = Exc e s').
  { intros r evs Ht He Hu. rewrite (new_events_app s r evs Ht).
    split; [exact He|]. intros p ok Hin.
    destruct Hu as [Hu|(before & p' & ok' & e & s' & -> & Hb & Hr)].
    - exfalso.
      assert (Hyes : existsb is_upload evs = true).
      { apply existsb_exists. exists (EvUpload p ok).
        split; [exact Hin | reflexivity]. }
      rewrite Hu in Hyes. discriminate Hyes.
    - apply in_app_or in Hin. destruct Hin as [Hin|[Hin|[]]].
      + exfalso.
        assert (Hyes : existsb is_upload before = true).
        { apply existsb_exists. exists (EvUpload p ok).
          split; [exact Hin | reflexivity]. }
        rewrite Hb in Hyes. discriminate Hyes.
      + inversion Hin; subst p' ok'. exists before, e, s'.
        split; [reflexivity|]. split; assumption. }
  destruct (main_cases w s) as [E|(config & _ & Hcase)].
  { rewrite E. cbn [final_state]. split; [exact Hl|].
    apply (Hfin _ []); auto. cbn. now rewrite app_nil_r. }
  destruct (@nothing_kept_for_each _ _ (issuu_handles config)
              (process_handle w) nothing_kept_handle [] s Hl)
    as (Hl2 & evs & Ht & He & H2).
  destruct (for_each (issuu_handles config) (process_handle w) [] s)
    as [[|book books] s1|e s1]; cbn [final_state] in Hl2, Ht.
  - rewrite Hcase. cbn [final_state]. split; [exact Hl2|].
    apply (Hfin _ evs); [exact Ht | exact He | left; apply H2].
  - destruct H2 as (H2 & _). discriminate H2.
  - rewrite Hcase. cbn [final_state]. split; [exact Hl2|].
    apply (Hfin _ evs); [exact Ht | exact He |].
    destruct H2 as [Hu|(before & p & ok & -> & Hb)]; [left; exact Hu|].
    right. exists before, p, ok, e, s1. auto.
Qed.

End HollowLedger.

(** The sample publication, taken up with such a ledger: it is uploaded, and
    the run raises. *)
Lemma hollow_ledger_uploads_and_raises_witness :
  exists before e s',
    new_events {| trace := []; ledger := Hollow |}
      (main fair_world {| trace := []; ledger := Hollow |})
    = before ++ [EvUpload (str "downloads/acme/pub1/Guide.pdf") true]
    /\ existsb is_upload before = false
    /\ main fair_world {| trace := []; ledger := Hollow |} = Exc e s'.
Proof.
  refine (proj2 (proj2 (@hollow_ledger_uploads_and_raises fair_world
                          {| trace := []; ledger := Hollow |} eq_refl))
            _ true _).
  vm_compute. do 7 right. left. reflexivity.
Defined.

(** ** The walk over the pages of a handle *)

Section ListingFacts.

Variable fetch : site.
Variable handle : pystr.
Variable n : Z.

Lemma existsb_str_eqb_false (x : pystr) (l : list pystr) :
  existsb (str_eqb x) l = false -> ~ In x l.
Proof.
  intros H Hin.
  assert (Hyes : existsb (str_eqb x) l = true).
  { apply existsb_exists. exists x. split; [exact Hin|].
    now apply str_eqb_eq. }
  rewrite H in Hyes. discriminate Hyes.
Qed.

Lemma NoDup_snoc {A} (l : list A) (x : A) :
  NoDup l -> ~ In x l -> NoDup (l ++ [x]).
Proof.
  intros Hl Hx. induction Hl as [|y l Hy Hl IH]; cbn [app].
  - constructor; [intros [] | constructor].
  - constructor.
    + intros H. apply in_app_or in H. destruct H as [H|[H|[]]].
      * now apply Hy.
      * apply Hx. left. symmetry. exact H.
    + apply IH. intros H. apply Hx. right. exact H.
Qed.

Lemma find_link_listed (c : card) (href : pystr) :
  find_link handle c = Some href ->
  accepted href = true ->
  listed handle (str "https://issuu.com" ++ href).
Proof.
  intros Hf Ha. unfold find_link in Hf. apply find_some in Hf.
  destruct Hf as [_ Hf]. unfold is_publication_link in Hf.
  unfold accepted in Ha. apply andb_true_iff in Ha. destruct Ha as [Ha1 Ha2].
  apply negb_true_iff in Ha1. apply negb_true_iff in Ha2.
  exists href. split; [reflexivity|]. split; [|split; assumption].
  destruct href; [discriminate Hf | exact Hf].
Qed.

(** One page: references are added at the end, each new and well formed, and
    the loop is left as soon as [n] are there. *)
Lemma scan_cards_spec (pub_cards : list card) :
  forall pub_urls,
  NoDup pub_urls -> Forall (listed handle) pub_urls ->
  (Z.of_nat (length pub_urls) < n)%Z ->
  let pub_urls' := scan_cards handle n pub_cards pub_urls in
  NoDup pub_urls' /\ Forall (listed handle) pub_urls'
  /\ (Z.of_nat (length pub_urls') <= n)%Z
  /\ exists added, pub_urls' = pub_urls ++ added.
Proof.
  induction pub_cards as [|c rest IH]; intros pub_urls Hnd Hall Hlen;
    cbn [scan_cards].
  - cbv zeta. split; [exact Hnd|]. split; [exact Hall|]. split; [lia|].
    exists []. now rewrite app_nil_r.
  - destruct (find_link handle c) as [href|] eqn:Ef; [|now apply IH].
    destruct (accepted href) eqn:Ea; [|now apply IH].
    destruct (existsb (str_eqb (str "https://issuu.com" ++ href)) pub_urls)
      eqn:Ex; [now apply IH|].
    assert (Hnd' : NoDup (pub_urls ++ [str "https://issuu.com" ++ href]))
      by (apply NoDup_snoc; [exact Hnd | now apply existsb_str_eqb_false]).
    assert (Hall' : Forall (listed handle)
                      (pub_urls ++ [str "https://issuu.com" ++ href])).
    { apply Forall_app. split; [exact Hall|]. constructor; [|constructor].
      exact (find_link_listed c Ef Ea). }
    assert (Hlen' : length (pub_urls ++ [str "https://issuu.com" ++ href])
                    = S (length pub_urls))
      by (rewrite length_app; cbn [length]; lia).
    destruct (n <=? Z.of_nat
                      (length (pub_urls ++ [str "https://issuu.com" ++ href])))%Z
      eqn:En.
    + cbv zeta. split; [exact Hnd'|]. split; [exact Hall'|].
      split; [rewrite Hlen'; lia|]. eexists. reflexivity.
    + apply Z.leb_gt in En.
      destruct (IH _ Hnd' Hall' En) as (H1 & H2 & H3 & added & H4).
      cbv zeta. split; [exact H1|]. split; [exact H2|]. split; [exact H3|].
      exists ((str "https://issuu.com" ++ href) :: added).
      rewrite H4, <- app_assoc. reflexivity.
Qed.

Lemma walk_spec (fuel : nat) :
  forall pub_urls page requested urls reqs,
  NoDup pub_urls -> Forall (listed handle) pub_urls ->
  (Z.of_nat (length pub_urls) <= Z.max 0 n)%Z ->
  walk fuel fetch handle n pub_urls page requested = Some (urls, reqs) ->
  NoDup urls /\ Forall (listed handle) urls
  /\ (Z.of_nat (length urls) <= Z.max 0 n)%Z
  /\ exists k, k <= fuel
               /\ reqs = requested ++ List.map (page_url handle) (seq page k)
               /\ (0 < k -> (0 < n)%Z).
Proof.
  induction fuel as [|fuel IH]; intros pub_urls page requested urls reqs
    Hnd Hall Hlen; cbn [walk];
    destruct (Z.of_nat (length pub_urls) <? n)%Z eqn:Elt;
    try discriminate.
  - intros H. inversion H; subst.
    split; [exact Hnd|]. split; [exact Hall|]. split; [exact Hlen|].
    exists 0. split; [lia|]. split; [now rewrite app_nil_r | lia].
  - apply Z.ltb_lt in Elt.
    assert (Hstop : Some (pub_urls, requested ++ [page_url handle page])
                    = Some (urls, reqs) ->
            NoDup urls /\ Forall (listed handle) urls
            /\ (Z.of_nat (length urls) <= Z.max 0 n)%Z
            /\ exists k, k <= S fuel
                 /\ reqs = requested
                             ++ List.map (page_url handle) (seq page k)
                 /\ (0 < k -> (0 < n)%Z)).
    { intros H. inversion H; subst.
      split; [exact Hnd|]. split; [exact Hall|]. split; [exact Hlen|].
      exists 1. split; [lia|]. split; [reflexivity | lia]. }
    destruct (fetch requested (page_url handle page)) as [[|c rest]|];
      [exact Hstop | | exact Hstop].
    intros H.
    destruct (scan_cards_spec (c :: rest) Hnd Hall Elt)
      as (H1 & H2 & H3 & _).
    apply IH in H; [|exact H1 | exact H2 | lia].
    destruct H as (G1 & G2 & G3 & k & Hk & Hr & _).
    split; [exact G1|]. split; [exact G2|]. split; [exact G3|].
    exists (S k). split; [lia|]. split; [|lia].
    rewrite Hr, <- app_assoc. reflexivity.
  - intros H. inversion H; subst.
    split; [exact Hnd|]. split; [exact Hall|]. split; [exact Hlen|].
    exists 0. split; [lia|]. split; [now rewrite app_nil_r | lia].
Qed.

Lemma list_slice_to_short {A} (l : list A) :
  (Z.of_nat (length l) <= Z.max 0 n)%Z -> list_slice_to n l = l.
Proof.
  intros H. unfold list_slice_to. destruct (0 <=? n)%Z eqn:E.
  - apply Z.leb_le in E. apply firstn_all2. lia.
  - apply Z.leb_gt in E. destruct l; [apply firstn_nil | cbn [length] in H; lia].
Qed.

(** What [get_publications] returns: references of publications of the
    handle, built from links that are relative, each once, and at most
    [num_publications] of them (none when that is not positive).  The pages
    it requested are pages 1, 2, ... of the handle, in that order and without
    a gap; none is requested when [num_publications] is not positive. *)
Theorem get_publications_result (fuel : nat) (urls reqs : list pystr)
    (Hget : get_publications fuel fetch handle n = Some (urls, reqs)) :
  NoDup urls
  /\ Forall (listed handle) urls
  /\ (Z.of_nat (length urls) <= Z.max 0 n)%Z
  /\ reqs = List.map (page_url handle) (seq 1 (length reqs))
  /\ length reqs <= fuel
  /\ (reqs <> [] -> (0 < n)%Z).
Proof.
  unfold get_publications in Hget.
  destruct (walk fuel fetch handle n [] 1 []) as [[urls' reqs']|] eqn:Ew;
    [|discriminate Hget].
  apply walk_spec in Ew; [|constructor | constructor | cbn [length]; lia].
  destruct Ew as (H1 & H2 & H3 & k & Hk & Hr & Hn).
  rewrite (list_slice_to_short _ H3) in Hget. inversion Hget; subst.
  cbn [app]. split; [exact H1|]. split; [exact H2|]. split; [exact H3|].
  rewrite length_map, length_seq. split; [reflexivity|].
  split; [exact Hk|]. intros Hne. apply Hn.
  destruct k; [now elim Hne | lia].
Qed.

End ListingFacts.

Section ListingEnds.

Variable fetch : site.
Variable handle : pystr.
Variable n : Z.

Lemma walk_more_fuel (fuel : nat) :
  forall pub_urls page requested r fuel',
  walk fuel fetch handle n pub_urls page requested = Some r ->
  fuel <= fuel' ->
  walk fuel' fetch handle n pub_urls page requested = Some r.
Proof.
  induction fuel as [|fuel IH]; intros pub_urls page requested r fuel' H Hle.
  - cbn [walk] in H. destruct fuel'; cbn [walk];
      destruct (Z.of_nat (length pub_urls) <? n)%Z; try discriminate H;
      exact H.
  - destruct fuel' as [|fuel']; [lia|]. cbn [walk] in H |- *.
    destruct (Z.of_nat (length pub_urls) <? n)%Z; [|exact H].
    destruct (fetch requested (page_url handle page)) as [[|c rest]|];
      try exact H.
    apply IH with (fuel' := fuel') in H; [exact H | lia].
Qed.

Lemma walk_ends (d : nat) :
  forall fuel pub_urls page requested,
  (forall requested,
     fetch requested (page_url handle (page + d)) = None
     \/ fetch requested (page_url handle (page + d)) = Some []) ->
  d < fuel ->
  exists r, walk fuel fetch handle n pub_urls page requested = Some r.
Proof.
  induction d as [|d IH]; intros fuel pub_urls page requested Hend Hfuel;
    (destruct fuel as [|fuel]; [lia|]); cbn [walk];
    (destruct (Z.of_nat (length pub_urls) <? n)%Z; [|eauto]).
  - rewrite Nat.add_0_r in Hend.
    destruct (Hend requested) as [E|E]; rewrite E; eauto.
  - destruct (fetch requested (page_url handle page)) as [[|c rest]|];
      eauto.
    apply IH; [|lia]. intros requested'.
    replace (S page + d) with (page + S d) by lia. apply Hend.
Qed.

(** [get_publications] returns when some page of the handle is without
    cards or cannot be fetched: it then asks for no page beyond that one,
    and a bound of that many pages is as good as any greater one. *)
Theorem get_publications_ends_at_empty_page (p fuel : nat)
    (Hp : 1 <= p)
    (Hend : forall requested,
              fetch requested (page_url handle p) = None
              \/ fetch requested (page_url handle p) = Some [])
    (Hfuel : p <= fuel) :
  exists urls reqs,
    get_publications p fetch handle n = Some (urls, reqs)
    /\ get_publications fuel fetch handle n = Some (urls, reqs).
Proof.
  destruct (@walk_ends (p - 1) p [] 1 []) as [[urls reqs] Hw].
  { replace (1 + (p - 1)) with p by lia. exact Hend. }
  { lia. }
  exists (list_slice_to n urls), reqs. unfold get_publications.
  pose proof Hw as Hw'. apply walk_more_fuel with (fuel' := fuel) in Hw';
    [|exact Hfuel].
  rewrite Hw, Hw'. split; reflexivity.
Qed.

Lemma scan_cards_prefix (pub_cards : list card) :
  forall pub_urls, exists added,
    scan_cards handle n pub_cards pub_urls = pub_urls ++ added.
Proof.
  induction pub_cards as [|c rest IH]; intros pub_urls; cbn [scan_cards].
  - exists []. now rewrite app_nil_r.
  - destruct (find_link handle c) as [href|]; [|apply IH].
    destruct (accepted href); [|apply IH].
    destruct (existsb _ pub_urls); [apply IH|].
    destruct (n <=? _)%Z; [eexists; reflexivity|].
    destruct (IH (pub_urls ++ [str "https://issuu.com" ++ href]))
      as [added E].
    exists ((str "https://issuu.com" ++ href) :: added).
    rewrite E, <- app_assoc. reflexivity.
Qed.

Lemma existsb_str_eqb_true (x : pystr) (l : list pystr) :
  In x l -> existsb (str_eqb x) l = true.
Proof.
  intros H. apply existsb_exists. exists x. split; [exact H|].
  now apply str_eqb_eq.
Qed.

(** A page all of whose references are there already adds nothing. *)
Lemma scan_cards_known (pub_cards : list card) (pub_urls : list pystr) :
  (forall c href, In c pub_cards -> find_link handle c = Some href ->
                  accepted href = true ->
                  In (str "https://issuu.com" ++ href) pub_urls) ->
  scan_cards handle n pub_cards pub_urls = pub_urls.
Proof.
  induction pub_cards as [|c rest IH]; intros Hall; cbn [scan_cards];
    [reflexivity|].
  assert (Hrest : scan_cards handle n rest pub_urls = pub_urls).
  { apply IH. intros c' href Hc. apply Hall. now right. }
  destruct (find_link handle c) as [href|] eqn:Ef; [|exact Hrest].
  destruct (accepted href) eqn:Ea; [|exact Hrest].
  rewrite (existsb_str_eqb_true _ _ (Hall c href (or_introl eq_refl) Ef Ea)).
  exact Hrest.
Qed.

(** A page that leaves fewer than [n] references has given all of its
    own. *)
Lemma scan_cards_collects (pub_cards : list card) :
  forall pub_urls,
  (Z.of_nat (length (scan_cards handle n pub_cards pub_urls)) < n)%Z ->
  forall c href, In c pub_cards -> find_link handle c = Some href ->
                 accepted href = true ->
                 In (str "https://issuu.com" ++ href)
                    (scan_cards handle n pub_cards pub_urls).
Proof.
  induction pub_cards as [|c rest IH]; intros pub_urls Hlen c' href' Hin Hf Ha;
    [destruct Hin|].
  assert (Hkeep : forall l x, In x l -> In x (scan_cards handle n rest l)).
  { intros l x Hx. destruct (scan_cards_prefix rest l) as [added ->].
    apply in_or_app. now left. }
  cbn [scan_cards] in Hlen |- *. revert Hlen.
  destruct Hin as [->|Hin].
  - rewrite Hf, Ha.
    destruct (existsb (str_eqb (str "https://issuu.com" ++ href')) pub_urls)
      eqn:Ex.
    + intros _. apply Hkeep. apply existsb_exists in Ex.
      destruct Ex as (x & Hx & Exx).
      apply str_eqb_eq in Exx. now subst x.
    + destruct (n <=? _)%Z eqn:En.
      * apply Z.leb_le in En. lia.
      * intros _. apply Hkeep. apply in_or_app. right. now left.
  - destruct (find_link handle c) as [href|];
      [|intros Hlen; exact (IH _ Hlen c' href' Hin Hf Ha)].
    destruct (accepted href);
      [|intros Hlen; exact (IH _ Hlen c' href' Hin Hf Ha)].
    destruct (existsb _ pub_urls);
      [intros Hlen; exact (IH _ Hlen c' href' Hin Hf Ha)|].
    destruct (n <=? _)%Z eqn:En; [apply Z.leb_le in En; lia|].
    intros Hlen; exact (IH _ Hlen c' href' Hin Hf Ha).
Qed.

(** [get_publications] does not return when the site answers every request
    with the same page of cards and that page has fewer than
    [num_publications] references: the loop asks for page after page, and no
    bound on their number is enough. *)
Theorem get_publications_loops_on_repeated_page (pub_cards : list card)
    (Hsite : forall requested url, fetch requested url = Some pub_cards)
    (Hcards : pub_cards <> [])
    (Hfew : (Z.of_nat (length (scan_cards handle n pub_cards [])) < n)%Z) :
  forall fuel, get_publications fuel fetch handle n = None.
Proof.
  assert (Hloop : forall fuel pub_urls page requested,
            (pub_urls = [] \/ pub_urls = scan_cards handle n pub_cards []) ->
            walk fuel fetch handle n pub_urls page requested = None).
  { induction fuel as [|fuel IH]; intros pub_urls page requested Hu;
      cbn [walk].
    - assert (Hlt : (Z.of_nat (length pub_urls) <? n)%Z = true).
      { apply Z.ltb_lt. destruct Hu as [->| ->]; [|exact Hfew].
        destruct (scan_cards_prefix pub_cards []) as [added E].
        rewrite E in Hfew. cbn [length app] in *. lia. }
      now rewrite Hlt.
    - assert (Hlt : (Z.of_nat (length pub_urls) <? n)%Z = true).
      { apply Z.ltb_lt. destruct Hu as [->| ->]; [|exact Hfew].
        destruct (scan_cards_prefix pub_cards []) as [added E].
        rewrite E in Hfew. cbn [length app] in *. lia. }
      rewrite Hlt, Hsite.
      destruct pub_cards as [|c rest] eqn:Ec; [now elim Hcards|].
      rewrite <- Ec in *. apply IH. right.
      destruct Hu as [->| ->]; [reflexivity|].
      apply scan_cards_known. intros c' href Hc Hf Ha.
      now apply scan_cards_collects with c'. }
  intros fuel. unfold get_publications. rewrite Hloop; [reflexivity|].
  now left.
Qed.

End ListingEnds.

Lemma get_publications_result_witness :
  NoDup [ str "https://issuu.com/acme/docs/guide";
          str "https://issuu.com/acme/docs/atlas";
          str "https://issuu.com/acme/docs/annual" ].
Proof.
  refine (proj1 (@get_publications_result two_pages acme 10 5 _ _ _)).
  vm_compute. reflexivity.
Defined.

Lemma get_publications_ends_at_empty_page_witness :
  exists urls reqs,
    get_publications 3 two_pages acme 10 = Some (urls, reqs)
    /\ get_publications 7 two_pages acme 10 = Some (urls, reqs).
Proof.
  apply (@get_publications_ends_at_empty_page two_pages acme 10 3 7).
  - lia.
  - intros requested. right. reflexivity.
  - lia.
Defined.

Lemma get_publications_loops_on_repeated_page_witness :
  get_publications 100 same_page acme 10 = None.
Proof.
  apply (@get_publications_loops_on_repeated_page same_page acme 10
           [ [str "/acme/followers"]; [str "/acme/docs/guide"] ]).
  - intros requested url. reflexivity.
  - discriminate.
  - vm_compute. reflexivity.
Defined.

(** ** The command line *)

Section CliFacts.

Variable w : world.

Local Ltac step_io :=
  match goal with
  | |- context [bind (io w ?a ?e) ?k ?s] =>
      destruct (bind_io_cases w a e k s) as [[_ E]|[_ E]]; rewrite E; clear E;
      cbv beta
  end.

Lemma documents_of_app (a b : history) :
  documents_of (a ++ b) = documents_of a ++ documents_of b.
Proof. apply flat_map_app. Qed.

Lemma documents_of_none (evs : history) :
  Forall (fun e => is_document e = false) evs -> documents_of evs = [].
Proof.
  induction 1 as [|e evs He _ IH]; [reflexivity|].
  cbn [documents_of flat_map]. fold (documents_of evs). rewrite IH.
  destruct e; try reflexivity. discriminate He.
Qed.

Lemma documents_of_images (p : pass) (dir : pystr)
    (res : list (nat * bool)) :
  documents_of (List.map (image_event p dir) res) = [].
Proof. induction res as [|r res IH]; [reflexivity | exact IH]. Qed.

Lemma documents_of_assembly (evs : history) :
  Forall (fun e => is_assembly e = true) evs -> documents_of evs = [].
Proof.
  intros H. apply documents_of_none. revert H. apply Forall_impl.
  now intros [].
Qed.

(** [scrape_publication] requests the page of its publication, once, as the
    first thing it does. *)
Lemma scrape_publication_documents (handle pub_url : pystr) (s : state) :
  let r := scrape_publication w handle pub_url s in
  r = Exc Interrupt s
  \/ exists evs,
       trace (final_state r) = trace s ++ EvDocument pub_url :: evs
       /\ documents_of evs = [].
Proof.
  cbv zeta. unfold scrape_publication, try_except, get_document_data.
  rewrite bind_bind. step_io; [now left|]. right. rewrite bind_ret.
  assert (Hstop : forall r : result bool,
             final_state r = {| trace := trace s ++ [EvDocument pub_url];
                                ledger := ledger s |} ->
             exists evs,
               trace (final_state r) = trace s ++ EvDocument pub_url :: evs
               /\ documents_of evs = []).
  { intros r ->. exists []. split; reflexivity. }
  destruct (extract_document (document w (trace s) pub_url)) as [d|];
    [|apply Hstop; reflexivity].
  destruct (truthy (publication_id d)); cbn [negb];
    [|apply Hstop; reflexivity].
  destruct (title d) as [| | |original_title| |];
    try (apply Hstop; reflexivity).
  generalize (sanitize_filename (unicode w) original_title).
  intros sanitized_title.
  set (dir := (str "downloads/" ++ handle ++ str "/"
                 ++ fstring w (publication_id d)) ++ str "/images").
  step_io; [apply Hstop; reflexivity|]. cbn [trace ledger].
  assert (Hmk : forall r : result bool,
             (exists evs, trace (final_state r)
                          = ((trace s ++ [EvDocument pub_url])
                               ++ [EvMakedirs dir]) ++ evs
                          /\ documents_of evs = []) ->
             exists evs,
               trace (final_state r) = trace s ++ EvDocument pub_url :: evs
               /\ documents_of evs = []).
  { intros r (evs & Ht & Hd). exists (EvMakedirs dir :: evs).
    split; [rewrite Ht, <- !app_assoc; reflexivity | exact Hd]. }
  assert (Hmk0 : forall r : result bool,
             final_state r
             = {| trace := (trace s ++ [EvDocument pub_url])
                             ++ [EvMakedirs dir];
                  ledger := ledger s |} ->
             exists evs,
               trace (final_state r) = trace s ++ EvDocument pub_url :: evs
               /\ documents_of evs = []).
  { intros r Hr. apply Hmk. exists []. rewrite Hr, app_nil_r.
    split; reflexivity. }
  destruct (makedirs_ok w (trace s ++ [EvDocument pub_url])); cbn [negb];
    [|apply Hmk0; reflexivity].
  destruct (as_int (page_count d)) as [n|]; [|apply Hmk0; reflexivity].
  rewrite bind_ask. cbn [trace]. unfold bind at 1.
  match goal with
  | |- context [first_pass w ?a ?b ?c ?l ?i ?t ?s] =>
      destruct (first_pass_spec w a b c l i t s) as (res1 & Ht1 & _ & Hr1);
      cbv zeta in Ht1, Hr1;
      destruct (first_pass w a b c l i t s) as [t1 s3|e s3]
  end; cbn [final_state trace] in Ht1, Hr1.
  2:{ destruct Hr1 as [-> _]. apply Hmk. eexists.
      split; [cbn [final_state]; exact Ht1 | apply documents_of_images]. }
  clear Hr1.
  destruct (successful_downloads t1 =? 0).
  { apply Hmk. eexists.
    split; [cbn [final_state ret]; exact Ht1 | apply documents_of_images]. }
  unfold bind at 1.
  match goal with
  | |- context [retry_pass w ?a ?b ?c ?l ?t ?s] =>
      destruct (retry_pass_spec w a b c l t s) as (res2 & Ht2 & _ & Hr2);
      cbv zeta in Ht2, Hr2;
      destruct (retry_pass w a b c l t s) as [t2 s4|e s4]
  end; cbn [final_state trace] in Ht2, Hr2.
  2:{ destruct Hr2 as [-> _]. apply Hmk. eexists.
      split; [cbn [final_state]; rewrite Ht2, Ht1, <- app_assoc; reflexivity|].
      now rewrite documents_of_app, !documents_of_images. }
  clear Hr2.
  destruct (0 <? successful_downloads t2).
  2:{ apply Hmk. eexists.
      split; [cbn [final_state ret]; rewrite Ht2, Ht1, <- app_assoc;
              reflexivity|].
      now rewrite documents_of_app, !documents_of_images. }
  match goal with
  | |- context [create_pdf w ?x1 ?x2 ?x3 ?s] =>
      destruct (create_pdf_spec w x1 x2 x3 s)
        as (post & Ht3 & _ & Hp3 & Hr3);
      cbv zeta in Ht3, Hr3;
      destruct (create_pdf w x1 x2 x3 s) as [b s5|e s5]
  end; cbn [final_state trace] in Ht3, Hr3; [|subst e];
    (apply Hmk; eexists;
     split; [cbn [final_state]; rewrite Ht3, Ht2, Ht1, <- !app_assoc;
             reflexivity|];
     now rewrite !documents_of_app, !documents_of_images,
       (documents_of_assembly Hp3)).
Qed.

End CliFacts.

Section CliMain.

Variable w : world.
Variable set_order : list pystr -> list pystr.

Lemma settles_for_each {X A} (xs : list X) (body : X -> A -> M A) :
  (forall x acc, settles (body x acc)) ->
  forall acc, settles (for_each xs body acc).
Proof.
  intros Hbody. induction xs as [|x xs IH]; intros acc; cbn [for_each].
  - intros s. exact I.
  - intros s. unfold bind. specialize (Hbody x acc s).
    destruct (body x acc s) as [a s'|[] s']; [apply IH | exact I | exact Hbody].
Qed.

Local Ltac no_exc :=
  intros ? Hexc; cbv [ret] in Hexc; discriminate Hexc.

(** The loop of [main] over the references. *)
Lemma cli_loop (handle : pystr) (urls : list pystr) :
  forall s r,
  r = for_each urls
        (fun pub_url (_ : unit) =>
           _ <- scrape_publication w handle pub_url ;; ret tt) tt s ->
  ledger (final_state r) = ledger s
  /\ (forall s', r <> Exc Exception s')
  /\ exists evs k,
       trace (final_state r) = trace s ++ evs
       /\ documents_of evs = firstn k urls
       /\ (forall s', r = Ret tt s' -> documents_of evs = urls).
Proof.
  induction urls as [|url urls IH]; intros s r Hr; cbn [for_each] in Hr.
  - subst r. split; [reflexivity|]. split; [no_exc|]. exists [], 0.
    cbn [final_state ret]. rewrite app_nil_r. repeat split; reflexivity.
  - rewrite bind_bind in Hr. unfold bind at 1 in Hr.
    destruct (scrape_publication_documents w handle url s) as [E|Hdoc].
    { rewrite E in Hr. subst r. split; [reflexivity|]. split; [no_exc|].
      exists [], 0. cbn [final_state]. rewrite app_nil_r.
      split; [reflexivity|]. split; [reflexivity | no_exc]. }
    destruct (scrape_publication_extends w handle url s)
      as (_ & Hl & _ & Hx).
    cbv zeta in Hdoc, Hl, Hx. destruct Hdoc as (evs1 & Ht1 & Hd1).
    destruct (scrape_publication w handle url s) as [b s1|e s1];
      cbn [final_state] in Ht1, Hl.
    + rewrite bind_ret in Hr.
      destruct (IH s1 r Hr) as (Hl2 & Hx2 & evs2 & k & Ht2 & Hd2 & Hr2).
      split; [now rewrite Hl2|]. split; [exact Hx2|].
      exists (EvDocument url :: evs1 ++ evs2), (S k).
      split; [rewrite Ht2, Ht1, <- app_assoc; reflexivity|].
      change (EvDocument url :: evs1 ++ evs2)
        with ([EvDocument url] ++ evs1 ++ evs2).
      rewrite !documents_of_app, Hd1, Hd2.
      cbn [firstn app documents_of flat_map].
      split; [reflexivity|]. intros s' E. now rewrite <- Hd2, (Hr2 s' E).
    + subst e r. split; [exact Hl|]. split; [no_exc|].
      exists (EvDocument url :: evs1), 1. cbn [final_state].
      split; [exact Ht1|].
      change (EvDocument url :: evs1) with ([EvDocument url] ++ evs1).
      rewrite documents_of_app, Hd1. cbn [firstn app documents_of flat_map].
      split; [reflexivity | no_exc].
Qed.

Lemma list_slice_to_firstn {A} (n : Z) (l : list A) :
  exists k, list_slice_to n l = firstn k l
            /\ ((0 <= n)%Z -> k = Z.to_nat n).
Proof.
  unfold list_slice_to. destruct (0 <=? n)%Z eqn:E.
  - eexists. split; [reflexivity|]. reflexivity.
  - eexists. split; [reflexivity|]. apply Z.leb_gt in E. lia.
Qed.

(** How [main] runs: the request of the handle's page, then the loop. *)
Lemma cli_main_cases (handle : pystr) (n : Z)
    (page : history -> option (list pystr)) (s : state) :
  let r := Cli.main w set_order handle n page s in
  let s0 := {| trace := trace s ++ [EvListing handle]; ledger := ledger s |} in
  r = Exc Interrupt s
  \/ (page (trace s) = None /\ r = Ret tt s0)
  \/ exists hrefs,
       page (trace s) = Some hrefs
       /\ r = for_each
                (list_slice_to n (set_order (Cli.references handle hrefs)))
                (fun pub_url (_ : unit) =>
                   _ <- scrape_publication w handle pub_url ;; ret tt) tt s0.
Proof.
  cbv zeta. unfold Cli.main, try_except.
  match goal with
  | |- context [bind (io w ?a ?e) ?k ?s] =>
      destruct (bind_io_cases w a e k s) as [[_ E]|[_ E]]; rewrite E; clear E;
      cbv beta
  end; [now left|]. right.
  destruct (page (trace s)) as [hrefs|]; [|left; split; reflexivity].
  right. exists hrefs. split; [reflexivity|].
  set (s0 := {| trace := trace s ++ [EvListing handle];
                ledger := ledger s |}).
  assert (Hloop :
    match for_each (list_slice_to n (set_order (Cli.references handle hrefs)))
            (fun pub_url (_ : unit) =>
               _ <- scrape_publication w handle pub_url ;; ret tt) tt s0
    with
    | Exc Exception s' => ret tt s'
    | r => r
    end
    = for_each (list_slice_to n (set_order (Cli.references handle hrefs)))
        (fun pub_url (_ : unit) =>
           _ <- scrape_publication w handle pub_url ;; ret tt) tt s0).
  { destruct (@cli_loop handle
                (list_slice_to n (set_order (Cli.references handle hrefs)))
                s0 _ eq_refl) as (_ & Hx & _).
    destruct (for_each _ _ tt s0) as [a s1|[] s1];
      [reflexivity | now elim (Hx s1) | reflexivity]. }
  destruct (set_order (Cli.references handle hrefs)) as [|u l] eqn:Eo;
    [|exact Hloop].
  destruct (list_slice_to_firstn n (@nil pystr)) as (k & -> & _).
  rewrite firstn_nil. reflexivity.
Qed.

Lemma returns_cli_main (handle : pystr) (n : Z)
    (page : history -> option (list pystr)) :
  (forall h, interrupted w h = false) ->
  returns (Cli.main w set_order handle n page).
Proof.
  intros Hni. unfold Cli.main.
  apply returns_try_except; [|apply returns_ret].
  apply settles_bind; [now apply settles_io|].
  intros [hrefs|]; [|apply settles_raise].
  destruct (set_order (Cli.references handle hrefs)); [apply settles_ret|].
  apply settles_for_each. intros x acc.
  apply settles_bind; [|intros b; apply settles_ret].
  now apply returns_settles, returns_scrape_publication.
Qed.

(** The command line keeps every failure to itself: no exception leaves
    [main], which touches no ledger, and unless the process is stopped
    [main] returns, whatever the site and the downloads do. *)
Theorem cli_main_never_raises (handle : pystr) (n : Z)
    (page : history -> option (list pystr)) (s : state) :
  let r := Cli.main w set_order handle n page s in
  (forall s', r <> Exc Exception s')
  /\ ledger (final_state r) = ledger s
  /\ ((forall h, interrupted w h = false) -> exists s', r = Ret tt s').
Proof.
  cbv zeta. split; [|split].
  - destruct (cli_main_cases handle n page s) as [E|[[_ E]|(hrefs & _ & E)]];
      cbv zeta in E.
    + rewrite E. no_exc.
    + rewrite E. no_exc.
    + exact (proj1 (proj2 (@cli_loop handle _ _ _ E))).
  - destruct (cli_main_cases handle n page s) as [E|[[_ E]|(hrefs & _ & E)]];
      cbv zeta in E.
    + rewrite E. reflexivity.
    + rewrite E. reflexivity.
    + exact (proj1 (@cli_loop handle _ _ _ E)).
  - intros Hni. destruct (returns_cli_main handle n page Hni s) as ([] & s' & E).
    exists s'. exact E.
Qed.

(** The publications [main] attempts are references of the handle built from
    relative links, each once, and they are the first of the list cut to [n]
    (all of it, when [main] returns): a publication that fails does not keep
    the next ones from being attempted.  A non-negative [n] bounds their
    number. *)
Theorem cli_main_attempts_each_reference (handle : pystr) (n : Z)
    (page : history -> option (list pystr)) (s : state)
    (Hset : forall l, NoDup (set_order l)
                      /\ forall x, In x (set_order l) <-> In x l) :
  let r := Cli.main w set_order handle n page s in
  let attempted := documents_of (new_events s r) in
  NoDup attempted
  /\ (forall url, In url attempted ->
      exists href, url = str "https://issuu.com" ++ href
                   /\ is_publication_link handle href = true
                   /\ accepted href = true)
  /\ ((0 <= n)%Z -> length attempted <= Z.to_nat n)
  /\ (forall hrefs s', page (trace s) = Some hrefs -> r = Ret tt s' ->
      attempted
      = list_slice_to n (set_order (Cli.references handle hrefs))).
Proof.
  cbv zeta.
  assert (Hnone : forall r : result unit,
             new_events s r = [] \/ new_events s r = [EvListing handle] ->
             NoDup (documents_of (new_events s r))
             /\ (forall url, In url (documents_of (new_events s r)) ->
                 exists href, url = str "https://issuu.com" ++ href
                              /\ is_publication_link handle href = true
                              /\ accepted href = true)
             /\ ((0 <= n)%Z ->
                 length (documents_of (new_events s r)) <= Z.to_nat n)).
  { intros r [-> | ->]; cbn [documents_of flat_map app length];
      (split; [constructor|]); (split; [intros url []|]); lia. }
  destruct (cli_main_cases handle n page s) as [E|[[Ep E]|(hrefs & Ep & E)]];
    cbv zeta in E.
  - destruct (Hnone (Cli.main w set_order handle n page s))
      as (H1 & H2 & H3).
    { left. rewrite E. apply new_events_self. }
    split; [exact H1|]. split; [exact H2|]. split; [exact H3|].
    intros hrefs s' _ Hr. rewrite E in Hr. discriminate Hr.
  - destruct (Hnone (Cli.main w set_order handle n page s))
      as (H1 & H2 & H3).
    { right. rewrite E. apply new_events_app. reflexivity. }
    split; [exact H1|]. split; [exact H2|]. split; [exact H3|].
    intros hrefs s' Hp _. rewrite Ep in Hp. discriminate Hp.
  - set (L := set_order (Cli.references handle hrefs)) in *.
    destruct (@cli_loop handle (list_slice_to n L)
                {| trace := trace s ++ [EvListing handle];
                   ledger := ledger s |} _ E)
      as (_ & _ & evs & k & Ht & Hd & Hr).
    cbn [trace] in Ht.
    assert (Hev : new_events s (Cli.main w set_order handle n page s)
                  = EvListing handle :: evs).
    { apply new_events_app. rewrite Ht, <- app_assoc. reflexivity. }
    rewrite Hev.
    change (EvListing handle :: evs) with ([EvListing handle] ++ evs).
    rewrite documents_of_app. cbn [documents_of flat_map app].
    fold (documents_of evs). rewrite Hd.
    destruct (list_slice_to_firstn n L) as (j & Hj & Hjn).
    destruct (Hset (Cli.references handle hrefs)) as [Hnd Hin].
    fold L in Hnd, Hin.
    split; [rewrite Hj; now apply NoDup_firstn, NoDup_firstn|]. split.
    { intros url Hu. apply In_firstn in Hu. rewrite Hj in Hu.
      apply In_firstn in Hu. apply Hin in Hu.
      unfold Cli.references in Hu. apply in_map_iff in Hu.
      destruct Hu as (href & <- & Hf). apply filter_In in Hf.
      destruct Hf as [Hf Ha]. apply filter_In in Hf.
      exists href. split; [reflexivity|]. split; [exact (proj2 Hf) | exact Ha]. }
    split.
    { intros Hn. rewrite Hj, (Hjn Hn), !length_firstn. lia. }
    intros hrefs' s' Hp Hret. rewrite Ep in Hp. inversion Hp; subst hrefs'.
    fold L. rewrite <- Hd. exact (Hr s' Hret).
Qed.

End CliMain.

Lemma dedupe_In (x : pystr) (l : list pystr) :
  In x (Cli.dedupe l) <-> In x l.
Proof.
  induction l as [|y l IH]; cbn [Cli.dedupe]; [tauto|].
  destruct (existsb (str_eqb y) l) eqn:E.
  - rewrite IH. split; [now right|]. intros [<-|H]; [|exact H].
    apply existsb_exists in E. destruct E as (z & Hz & Ez).
    apply str_eqb_eq in Ez. now subst z.
  - cbn [In]. rewrite IH. tauto.
Qed.

Lemma dedupe_NoDup (l : list pystr) : NoDup (Cli.dedupe l).
Proof.
  induction l as [|y l IH]; cbn [Cli.dedupe]; [constructor|].
  destruct (existsb (str_eqb y) l) eqn:E; [exact IH|].
  constructor; [|exact IH]. rewrite dedupe_In.
  now apply existsb_str_eqb_false.
Qed.

Lemma cli_main_never_raises_witness :
  (forall h, interrupted fair_world h = false)
  /\ exists s',
       Cli.main fair_world Cli.dedupe acme 2 (fun _ => Some Cli.sample_hrefs)
         initial
       = Ret tt s'.
Proof.
  assert (H : forall h, interrupted fair_world h = false)
    by (intros h; reflexivity).
  split; [exact H|].
  exact (proj2 (proj2 (@cli_main_never_raises fair_world Cli.dedupe acme 2
                         (fun _ => Some Cli.sample_hrefs) initial)) H).
Defined.

Lemma cli_main_attempts_each_reference_witness :
  NoDup (documents_of
           (new_events initial
              (Cli.main fair_world Cli.dedupe acme 2
                 (fun _ => Some Cli.sample_hrefs) initial))).
Proof.
  refine (proj1 (@cli_main_attempts_each_reference fair_world Cli.dedupe acme 2
                   (fun _ => Some Cli.sample_hrefs) initial _)).
  intros l. split; [apply dedupe_NoDup | intros x; apply dedupe_In].
Defined.
